(** * Durante Invariance Forensic Analyzer: a shallow embedding of the
    analysis core and of the integrity chain.

    Python values are modelled as follows.
    - [str]: a Rocq [string], one character per code point; the model
      covers texts over the code points 0..255 (Latin-1).
    - [float]: the kernel's binary64 numbers ([PrimFloat.float]), with
      Python's operators mapped to the IEEE operations.
    - [int]: [Z].
    - a raised exception: the [Raise] case of [result]. *)

From Stdlib Require Import ZArith List Bool Lia String Ascii Permutation Sorted.
From Stdlib Require Import Floats Uint63 DecimalString.
Import ListNotations.

Set Warnings "-inexact-float,-register-all".

(* ================================================================== *)
(** ** Exceptions *)

Inductive exn : Type :=
| ValueError (msg : string).

Inductive result (A : Type) : Type :=
| Ok (a : A)
| Raise (e : exn).

Arguments Ok {A} a.
Arguments Raise {A} e.

Definition bind {A B : Type} (m : result A) (k : A -> result B) : result B :=
  match m with
  | Ok a => k a
  | Raise e => Raise e
  end.

Notation "x <- m ;; k" := (bind m (fun x => k))
  (at level 61, m at next level, right associativity).
Notation "' p <- m ;; k" := (bind m (fun p => k))
  (at level 61, p pattern, m at next level, right associativity).

(** [try: body except Exception: handler]. *)
Definition try_except {A : Type} (body : result A) (handler : exn -> result A)
  : result A :=
  match body with
  | Ok a => Ok a
  | Raise e => handler e
  end.

(* ================================================================== *)
(** ** Numbers *)

(** [float(n)] for a Python int [n]; exact for [|n| < 2^53]. *)
Definition float_of_Z (n : Z) : float :=
  match n with
  | Zneg p => PrimFloat.opp (PrimFloat.of_uint63 (Uint63.of_Z (Zpos p)))
  | _ => PrimFloat.of_uint63 (Uint63.of_Z n)
  end.

(** Python's [a / b] on two ints (true division).  For operands below
    [2^53] it is the IEEE quotient of the two converted operands. *)
Definition truediv (a b : Z) : float :=
  PrimFloat.div (float_of_Z a) (float_of_Z b).

(** Python's [max(a, b)] on floats: [b] only when [b > a]. *)
Definition py_max (a b : float) : float :=
  if PrimFloat.ltb a b then b else a.

(** Lists are summed from the left. *)
Definition fsum (l : list float) : float :=
  fold_left PrimFloat.add l 0%float.

(** [len(l)] as a Python int. *)
Definition len {A : Type} (l : list A) : Z := Z.of_nat (List.length l).

(* ================================================================== *)
(** ** Text: [str.lower] and the pattern [\w] over Latin-1 *)

Definition code (c : ascii) : N := N_of_ascii c.

Definition between (lo hi n : N) : bool := (N.leb lo n && N.leb n hi)%bool.

(** The characters Python's [re] classifies as [\w] (Unicode mode). *)
Definition is_word_char (c : ascii) : bool :=
  let n := code c in
  (between 48 57 n || between 65 90 n || N.eqb n 95 || between 97 122 n
   || N.eqb n 170 || between 178 179 n || N.eqb n 181 || between 185 186 n
   || between 188 190 n || between 192 214 n || between 216 246 n
   || between 248 255 n)%bool.

Definition lower_char (c : ascii) : ascii :=
  let n := code c in
  if (between 65 90 n || between 192 214 n || between 216 222 n)%bool
  then ascii_of_N (n + 32) else c.

Fixpoint lower (s : string) : string :=
  match s with
  | EmptyString => EmptyString
  | String c s' => String (lower_char c) (lower s')
  end.

(** Stable insertion sort: Python's [sorted] and numpy's [argsort] are
    modelled with it. *)
Fixpoint insert_by {A : Type} (le : A -> A -> bool) (x : A) (l : list A)
  : list A :=
  match l with
  | [] => [x]
  | y :: l' => if le x y then x :: l else y :: insert_by le x l'
  end.

Definition sort_by {A : Type} (le : A -> A -> bool) (l : list A) : list A :=
  fold_right (insert_by le) [] l.

(* ================================================================== *)
(** ** scikit-learn's [TfidfVectorizer], as configured by the program

    [TfidfVectorizer(max_features, ngram_range=(1, 2), min_df=1,
    lowercase=True, token_pattern=r'(?u)\b\w\w+\b')] applied to a corpus
    of exactly two documents.  The library is not part of the
    repository; the model follows its documented algorithm: lowercase,
    extract the tokens, add the bigrams, build the sorted vocabulary,
    fail on an empty vocabulary, keep the [max_features] most frequent
    terms, weigh by smoothed idf and normalise each row to unit l2
    norm. *)

Module Tfidf.

(** A maximal run of word characters is a token when it has two
    characters or more. *)
Definition emit (run : string) : list string :=
  if (2 <=? String.length run)%nat then [run] else [].

(** [re.findall(r'(?u)\b\w\w+\b', s)], [run] being the word
    characters read since the last boundary. *)
Fixpoint findall (s : string) (run : string) : list string :=
  match s with
  | EmptyString => emit run
  | String c s' =>
      if is_word_char c
      then findall s' (String.append run (String c EmptyString))
      else emit run ++ findall s' EmptyString
  end.

Definition tokenize (doc : string) : list string := findall doc EmptyString.

Fixpoint bigrams (tokens : list string) : list string :=
  match tokens with
  | t1 :: ((t2 :: _) as rest) =>
      String.append t1 (String " "%char t2) :: bigrams rest
  | _ => []
  end.

(** [_word_ngrams] for [ngram_range=(1, 2)]: the tokens, then the
    bigrams. *)
Definition word_ngrams (tokens : list string) : list string :=
  tokens ++ bigrams tokens.

Definition analyze (doc : string) : list string :=
  word_ngrams (tokenize (lower doc)).

(** The distinct terms of both documents in code-point order. *)
Definition vocabulary (terms_a terms_b : list string) : list string :=
  sort_by String.leb (nodup string_dec (terms_a ++ terms_b)).

Definition tf (terms : list string) (t : string) : nat :=
  count_occ string_dec terms t.

(** [_limit_features]: when the vocabulary has more than [limit]
    terms, keep the [limit] terms with the highest total count, in
    vocabulary order.  Among equal counts the earlier term is kept
    (numpy's default [argsort] leaves the choice open). *)
Definition limit_features (limit : nat) (vocab : list string)
    (tfs : list nat) : list string :=
  if (List.length vocab <=? limit)%nat then vocab
  else
    let by_count (i j : nat) := (nth j tfs 0 <=? nth i tfs 0)%nat in
    let order := sort_by by_count (seq 0 (List.length vocab)) in
    let kept := sort_by Nat.leb (firstn limit order) in
    map (fun i => nth i vocab EmptyString) kept.

(** [log(3 / 2) + 1] in binary64. *)
Definition idf_one_document : float := 0x1.67cc8fb2fe613p+0%float.

(** Smoothed idf over two documents: [log((1 + 2) / (1 + df)) + 1]. *)
Definition idf (df : nat) : float :=
  if (2 <=? df)%nat then 1%float else idf_one_document.

Definition document_frequency (terms_a terms_b : list string) (t : string)
  : nat :=
  ((if (0 <? tf terms_a t)%nat then 1 else 0)
   + (if (0 <? tf terms_b t)%nat then 1 else 0))%nat.

(** l2 normalisation of one row; a row of norm zero is left as it is. *)
Definition normalize (row : list float) : list float :=
  let squares := fold_left (fun acc w => PrimFloat.add acc (PrimFloat.mul w w))
                   row 0%float in
  if PrimFloat.eqb squares 0%float then row
  else map (fun w => PrimFloat.div w (PrimFloat.sqrt squares)) row.

Definition row (features : list string) (terms_a terms_b terms : list string)
  : list float :=
  normalize
    (map (fun t => PrimFloat.mul (float_of_Z (Z.of_nat (tf terms t)))
                     (idf (document_frequency terms_a terms_b t)))
         features).

(** [fit_transform([a, b]).toarray()] with [get_feature_names_out()]:
    the two rows and the feature names. *)
Definition fit_transform (max_features : nat) (a b : string)
  : result (list float * list float * list string) :=
  let terms_a := analyze a in
  let terms_b := analyze b in
  let vocab := vocabulary terms_a terms_b in
  match vocab with
  | [] => Raise (ValueError
            "empty vocabulary; perhaps the documents only contain stop words")
  | _ =>
      let tfs := map (fun t => (tf terms_a t + tf terms_b t)%nat) vocab in
      let features := limit_features max_features vocab tfs in
      Ok (row features terms_a terms_b terms_a,
          row features terms_a terms_b terms_b,
          features)
  end.

End Tfidf.

(* ================================================================== *)
(** ** Core/semantic_vector_space.py *)

Module SemanticVectorSpace.

(** The object's state: the vectorizer's configuration and the three
    attributes, [None] until [fit_transform] has run. *)
Record t : Type := mk {
  max_features : nat;
  V_O : option (list float);
  V_C : option (list float);
  feature_names : option (list string)
}.

(** [__init__(max_features=1000)]. *)
Definition init (max_features : nat) : t :=
  mk max_features None None None.

Definition default : t := init 1000.

(** [fit_transform]: the new state and the returned pair. *)
Definition fit_transform (self : t) (text_origin text_control : string)
  : result (t * (list float * list float)) :=
  '(vectors_0, vectors_1, names) <-
     Tfidf.fit_transform (max_features self) text_origin text_control ;;
  Ok (mk (max_features self) (Some vectors_0) (Some vectors_1) (Some names),
      (vectors_0, vectors_1)).

Definition dot (x y : list float) : float :=
  fsum (map (fun p => PrimFloat.mul (fst p) (snd p)) (combine x y)).

(** scikit-learn's [cosine_similarity([x], [y])[0][0]]: the dot
    product of the two l2-normalised rows. *)
Definition cosine_similarity (x y : list float) : float :=
  dot (Tfidf.normalize x) (Tfidf.normalize y).

Definition cosine_distance (self : t) : result float :=
  match V_O self, V_C self with
  | Some v_o, Some v_c =>
      let similarity := cosine_similarity v_o v_c in
      let distance := PrimFloat.sub 1 similarity in
      Ok distance
  | _, _ =>
      Raise (ValueError
        "Vectores no inicializados. Ejecutar fit_transform primero.")
  end.

Definition cosine_similarity_score (self : t) : result float :=
  match V_O self, V_C self with
  | Some v_o, Some v_c => Ok (cosine_similarity v_o v_c)
  | _, _ => Raise (ValueError "Vectores no inicializados.")
  end.

(** The activation threshold of [dimensionality_intersection]. *)
Definition threshold : float := 1e-6%float.

(** [np.abs(v) > threshold], componentwise. *)
Definition active (v : list float) : list bool :=
  map (fun x => PrimFloat.ltb threshold (PrimFloat.abs x)) v.

(** [mask_a & mask_b] on two arrays of one shape. *)
Definition np_and (mask_a mask_b : list bool) : list bool :=
  map (fun p => andb (fst p) (snd p)) (combine mask_a mask_b).

(** [int(np.sum(mask))]. *)
Definition np_sum (mask : list bool) : Z :=
  len (filter (fun b => b) mask).

Record Dims : Type := mkDims {
  dim_V_O : Z;
  dim_V_C : Z;
  dim_intersection : Z
}.

Definition dimensionality_intersection (self : t) : result Dims :=
  match V_O self, V_C self with
  | Some v_o, Some v_c =>
      let dim_O := np_sum (active v_o) in
      let dim_C := np_sum (active v_c) in
      let intersection_mask := np_and (active v_o) (active v_c) in
      let dim_intersection := np_sum intersection_mask in
      Ok (mkDims dim_O dim_C dim_intersection)
  | _, _ => Raise (ValueError "Vectores no inicializados.")
  end.

(** [get_top_features]: the [top_n] largest components, largest
    first, those above zero only. *)
Definition get_top_features (self : t) (vector : list float) (top_n : nat)
  : list (string * float) :=
  match feature_names self with
  | None => []
  | Some names =>
      let by_value (i j : nat) :=
        PrimFloat.leb (nth i vector 0%float) (nth j vector 0%float) in
      let argsort := sort_by by_value (seq 0 (List.length vector)) in
      let top_indices := firstn top_n (rev argsort) in
      map (fun idx => (nth idx names EmptyString, nth idx vector 0%float))
          (filter (fun idx => PrimFloat.ltb 0 (nth idx vector 0%float))
                  top_indices)
  end.

Record Overlap : Type := mkOverlap {
  dimensionality : Dims;
  o_cosine_similarity : float;
  o_cosine_distance : float;
  o_kl_divergence : float;
  o_overlap_ratio : float;
  top_features_origin : list (string * float);
  top_features_control : list (string * float)
}.

Section WithLog.

(** The natural logarithm of the numeric library. *)
Variable log : float -> float.

(** scipy's [rel_entr]. *)
Definition rel_entr (x y : float) : float :=
  if (PrimFloat.ltb 0 x && PrimFloat.ltb 0 y)%bool
  then PrimFloat.mul x (log (PrimFloat.div x y))
  else if (PrimFloat.eqb x 0 && PrimFloat.leb 0 y)%bool then 0%float
  else infinity.

Definition to_distribution (p : list float) : list float :=
  map (fun x => PrimFloat.div x (fsum p)) p.

(** [scipy.stats.entropy(pk, qk)]: both arguments are normalised
    again, then the relative entropies are summed. *)
Definition scipy_entropy (pk qk : list float) : float :=
  fsum (map (fun p => rel_entr (fst p) (snd p))
            (combine (to_distribution pk) (to_distribution qk))).

Definition kl_divergence (self : t) : result float :=
  match V_O self, V_C self with
  | Some v_o, Some v_c =>
      let epsilon := 1e-10%float in
      let P := map (fun x => PrimFloat.add x epsilon) v_o in
      let Q := map (fun x => PrimFloat.add x epsilon) v_c in
      let P := to_distribution P in
      let Q := to_distribution Q in
      Ok (scipy_entropy P Q)
  | _, _ => Raise (ValueError "Vectores no inicializados.")
  end.

Definition analyze_semantic_overlap (self : t) : result Overlap :=
  match V_O self, V_C self with
  | Some v_o, Some v_c =>
      dims <- dimensionality_intersection self ;;
      cos_sim <- cosine_similarity_score self ;;
      cos_dist <- cosine_distance self ;;
      kl_div <- kl_divergence self ;;
      let overlap_ratio :=
        if (0 <? dim_V_O dims)%Z
        then truediv (dim_intersection dims) (dim_V_O dims)
        else 0%float in
      let top_origin := get_top_features self v_o 10 in
      let top_control := get_top_features self v_c 10 in
      Ok (mkOverlap dims cos_sim cos_dist kl_div overlap_ratio
                    top_origin top_control)
  | _, _ => Raise (ValueError "Vectores no inicializados.")
  end.

End WithLog.

End SemanticVectorSpace.

(* ================================================================== *)
(** ** Core/degradation_index.py *)

Record DegradationResult : Type := mkDegradationResult {
  I_D : float;
  dim_V_O : Z;
  dim_V_C : Z;
  dim_intersection : Z;
  status : string;
  interference_detected : bool;
  degradation_percentage : float;
  overlap_ratio : float
}.

Module DegradationIndexCalculator.

Definition CRITICAL_THRESHOLD : float := 0.4%float.
Definition HIGH_THRESHOLD : float := 0.25%float.

Definition calculate (text_origin text_control : string)
  : result DegradationResult :=
  let vs_space := SemanticVectorSpace.default in
  '(vs_space, _) <-
     SemanticVectorSpace.fit_transform vs_space text_origin text_control ;;
  dims <- SemanticVectorSpace.dimensionality_intersection vs_space ;;
  let dim_O := SemanticVectorSpace.dim_V_O dims in
  let dim_C := SemanticVectorSpace.dim_V_C dims in
  let dim_intersection := SemanticVectorSpace.dim_intersection dims in
  let '(I_D, overlap_ratio) :=
    if (dim_O =? 0)%Z then (0%float, 0%float)
    else
      let overlap_ratio := truediv dim_intersection dim_O in
      (PrimFloat.sub 1 overlap_ratio, overlap_ratio) in
  let '(status, interference_detected) :=
    if PrimFloat.leb CRITICAL_THRESHOLD I_D
    then ("INTERFERENCIA_CRITICA"%string, true)
    else if PrimFloat.leb HIGH_THRESHOLD I_D
    then ("INTERFERENCIA_ALTA"%string, true)
    else ("ESTABLE"%string, false) in
  let degradation_percentage := PrimFloat.mul I_D 100 in
  let overlap_percentage := PrimFloat.mul overlap_ratio 100 in
  Ok (mkDegradationResult I_D dim_O dim_C dim_intersection status
        interference_detected degradation_percentage overlap_percentage).

End DegradationIndexCalculator.

(* ================================================================== *)
(** ** Core/truth_invariance.py *)

Record InvarianceResult : Type := mkInvarianceResult {
  gradient_magnitude : float;
  is_invariant : bool;
  perturbation_responses : list string;
  stability_score : float;
  bias_detected : bool;
  mean_distance : float;
  std_distance : float
}.

Module TruthInvarianceValidator.

Definition INVARIANCE_THRESHOLD : float := 0.15%float.

(** The dict [calculate_gradient] returns. *)
Record Gradient : Type := mkGradient {
  g_gradient_magnitude : float;
  g_mean_distance : float;
  g_std_distance : float
}.

Definition np_mean (l : list float) : float :=
  PrimFloat.div (fsum l) (float_of_Z (len l)).

Definition np_std (l : list float) : float :=
  let m := np_mean l in
  PrimFloat.sqrt
    (np_mean (map (fun x => let d := PrimFloat.abs (PrimFloat.sub x m) in
                            PrimFloat.mul d d) l)).

(** One turn of the loop over [perturbed_responses].  The state is
    the shared [vs_space] and the list [distances]; the [try] body
    is [fit_transform] followed by [cosine_distance], and the
    [except Exception] branch goes on to the next response. *)
Definition step (original_response : string)
    (st : SemanticVectorSpace.t * list float) (perturbed : string)
  : SemanticVectorSpace.t * list float :=
  let '(vs_space, distances) := st in
  match SemanticVectorSpace.fit_transform vs_space original_response
          perturbed with
  | Raise _ => (vs_space, distances)
  | Ok (vs_space', _) =>
      match SemanticVectorSpace.cosine_distance vs_space' with
      | Raise _ => (vs_space', distances)
      | Ok dist => (vs_space', distances ++ [dist])
      end
  end.

Definition collect_distances (original_response : string)
    (perturbed_responses : list string) : list float :=
  snd (fold_left (step original_response) perturbed_responses
         (SemanticVectorSpace.default, [])).

Definition calculate_gradient (original_response : string)
    (perturbed_responses : list string) : result Gradient :=
  match perturbed_responses with
  | [] => Ok (mkGradient 0 0 0)
  | _ =>
      let distances :=
        collect_distances original_response perturbed_responses in
      match distances with
      | [] => Ok (mkGradient 0 0 0)
      | _ =>
          let mean_distance := np_mean distances in
          let std_distance := np_std distances in
          let gradient_magnitude := mean_distance in
          Ok (mkGradient gradient_magnitude mean_distance std_distance)
      end
  end.

Definition validate_invariance (original_response : string)
    (perturbed_responses : list string) : result InvarianceResult :=
  gradient_data <- calculate_gradient original_response perturbed_responses ;;
  let gradient := g_gradient_magnitude gradient_data in
  let mean_dist := g_mean_distance gradient_data in
  let std_dist := g_std_distance gradient_data in
  let is_invariant := PrimFloat.ltb gradient INVARIANCE_THRESHOLD in
  let stability_score :=
    py_max 0 (PrimFloat.sub 1 (PrimFloat.div gradient INVARIANCE_THRESHOLD)) in
  let bias_detected := PrimFloat.leb INVARIANCE_THRESHOLD gradient in
  Ok (mkInvarianceResult gradient is_invariant perturbed_responses
        stability_score bias_detected mean_dist std_dist).

(** [s.rstrip(c)] for a single character [c]: the trailing run of [c]
    is removed. *)
Fixpoint rstrip (c : ascii) (s : string) : string :=
  match s with
  | EmptyString => EmptyString
  | String a s' =>
      match rstrip c s' with
      | EmptyString =>
          if Ascii.eqb a c then EmptyString else String a EmptyString
      | rest => String a rest
      end
  end.

(** [list(dict.fromkeys(l))]: the first occurrence of each element, in
    order. *)
Definition fromkeys (l : list string) : list string :=
  fold_left
    (fun seen x => if in_dec string_dec x seen then seen else seen ++ [x])
    l [].

(** The slice [l[:n]]; a negative [n] counts from the end. *)
Definition slice_to {A : Type} (n : Z) (l : list A) : list A :=
  if (0 <=? n)%Z then firstn (Z.to_nat n) l
  else firstn (Z.to_nat (len l + n)) l.

(** The eight templates, in the order of the source; the seventh has
    the letter i with acute accent, code point 237. *)
Definition templates (original_prompt : string) : list string :=
  [original_prompt;
   String.append (rstrip "."%char original_prompt) "."%string;
   String.append "Por favor, "%string (lower original_prompt);
   String.append original_prompt " Gracias."%string;
   String.append "Necesito que: "%string (lower original_prompt);
   String.append (rstrip "."%char original_prompt) "?"%string;
   String.append
     (String.append "Me gustar"%string
        (String (ascii_of_nat 237) "a saber: "%string))
     (lower original_prompt);
   String.append original_prompt " Responde de forma clara."%string].

Definition generate_perturbations (original_prompt : string)
    (n_perturbations : Z) : list string :=
  let perturbations := templates original_prompt in
  slice_to n_perturbations (fromkeys perturbations).

End TruthInvarianceValidator.

(* ================================================================== *)
(** ** Core/shannon_entropy.py: the tokenizer *)

(** The characters Python classifies as whitespace, for [\s] and for
    [str.split()] alike. *)
Definition is_space (c : ascii) : bool :=
  let n := code c in
  (between 9 13 n || between 28 32 n || N.eqb n 133 || N.eqb n 160)%bool.

Module ShannonEntropyCalculator.

(** [re.sub(r'[^\w\s]', '', s)]. *)
Fixpoint remove_punctuation (s : string) : string :=
  match s with
  | EmptyString => EmptyString
  | String c s' =>
      if (is_word_char c || is_space c)%bool
      then String c (remove_punctuation s')
      else remove_punctuation s'
  end.

(** A run of characters read up to a whitespace is a word of
    [s.split()] when it is not empty. *)
Definition word (run : string) : list string :=
  match run with
  | EmptyString => []
  | _ => [run]
  end.

(** [s.split()], [run] being the characters read since the last
    whitespace. *)
Fixpoint split (s : string) (run : string) : list string :=
  match s with
  | EmptyString => word run
  | String c s' =>
      if is_space c then word run ++ split s' EmptyString
      else split s' (String.append run (String c EmptyString))
  end.

Definition tokenize (text : string) : list string :=
  let text_clean := remove_punctuation (lower text) in
  filter (fun token => (1 <? String.length token)%nat)
    (split text_clean EmptyString).

End ShannonEntropyCalculator.

(* ================================================================== *)
(** ** [hashlib.sha256] (FIPS 180-4) and [str.encode('utf-8')] *)

Module SHA256.

Local Open Scope Z_scope.

Definition w32 (x : Z) : Z := Z.land x 0xFFFFFFFF.

Definition add32 (x y : Z) : Z := w32 (x + y).

Definition rotr (n x : Z) : Z :=
  Z.lor (Z.shiftr x n) (w32 (Z.shiftl x (32 - n))).

Definition Ch (x y z : Z) : Z :=
  Z.lxor (Z.land x y) (Z.land (Z.lxor x 0xFFFFFFFF) z).

Definition Maj (x y z : Z) : Z :=
  Z.lxor (Z.lxor (Z.land x y) (Z.land x z)) (Z.land y z).

Definition Sigma0 (x : Z) : Z :=
  Z.lxor (Z.lxor (rotr 2 x) (rotr 13 x)) (rotr 22 x).
Definition Sigma1 (x : Z) : Z :=
  Z.lxor (Z.lxor (rotr 6 x) (rotr 11 x)) (rotr 25 x).
Definition sigma0 (x : Z) : Z :=
  Z.lxor (Z.lxor (rotr 7 x) (rotr 18 x)) (Z.shiftr x 3).
Definition sigma1 (x : Z) : Z :=
  Z.lxor (Z.lxor (rotr 17 x) (rotr 19 x)) (Z.shiftr x 10).

(** The integer cube root, one bit at a time from bit [bits - 1]. *)
Fixpoint icbrt (bits : nat) (n r : Z) : Z :=
  match bits with
  | O => r
  | S b =>
      let r' := r + Z.shiftl 1 (Z.of_nat b) in
      icbrt b n (if r' * r' * r' <=? n then r' else r)
  end.

(** [is_prime fuel d n]: no divisor of [n] among [d, d + 1, ...],
    as far as [d * d <= n]. *)
Fixpoint is_prime (fuel : nat) (d n : Z) : bool :=
  match fuel with
  | O => true
  | S f =>
      if n <? d * d then true
      else if n mod d =? 0 then false
      else is_prime f (d + 1) n
  end.

Fixpoint primes_from (fuel : nat) (count : nat) (n : Z) : list Z :=
  match fuel, count with
  | S f, S c =>
      if is_prime 32 2 n then n :: primes_from f c (n + 1)
      else primes_from f count (n + 1)
  | _, _ => []
  end.

(** The first 64 prime numbers, 2 to 311. *)
Definition primes : list Z := Eval vm_compute in primes_from 400 64 2.

(** The round constants: the first 32 bits of the fractional parts of
    the cube roots of the first 64 primes. *)
Definition K : list Z :=
  Eval vm_compute in
    map (fun p => w32 (icbrt 40 (Z.shiftl p 96) 0)) primes.

(** The initial hash value: the first 32 bits of the fractional parts
    of the square roots of the first 8 primes. *)
Definition H0 : list Z :=
  Eval vm_compute in
    map (fun p => w32 (Z.sqrt (Z.shiftl p 64))) (firstn 8 primes).

(** The message followed by the bit 1, zeros, and the bit length on
    eight bytes, a multiple of 64 bytes in all. *)
Definition pad (msg : list Z) : list Z :=
  let n := Z.of_nat (List.length msg) in
  let zeros := Z.to_nat ((55 - n) mod 64) in
  let bits := 8 * n in
  msg ++ [0x80] ++ repeat 0 zeros
      ++ map (fun i => Z.land (Z.shiftr bits (8 * (7 - Z.of_nat i))) 0xFF)
             (seq 0%nat 8%nat).

(** Big-endian 32-bit words. *)
Fixpoint words (bytes : list Z) : list Z :=
  match bytes with
  | b0 :: b1 :: b2 :: b3 :: rest =>
      (Z.shiftl b0 24 + Z.shiftl b1 16 + Z.shiftl b2 8 + b3) :: words rest
  | _ => []
  end.

(** The message schedule, most recent word first. *)
Fixpoint schedule (n : nat) (w : list Z) : list Z :=
  match n with
  | O => w
  | S n' =>
      let next :=
        add32 (add32 (sigma1 (nth 1%nat w 0)) (nth 6%nat w 0))
              (add32 (sigma0 (nth 14%nat w 0)) (nth 15%nat w 0)) in
      schedule n' (next :: w)
  end.

Definition round (s : list Z) (kw : Z * Z) : list Z :=
  match s with
  | [a; b; c; d; e; f; g; h] =>
      let t1 := add32 (add32 (add32 h (Sigma1 e)) (Ch e f g))
                      (add32 (fst kw) (snd kw)) in
      let t2 := add32 (Sigma0 a) (Maj a b c) in
      [add32 t1 t2; a; b; c; add32 d t1; e; f; g]
  | _ => s
  end.

Definition compress (h : list Z) (block : list Z) : list Z :=
  let w := rev (schedule 48%nat (rev block)) in
  let s := fold_left round (combine K w) h in
  map (fun p => add32 (fst p) (snd p)) (combine h s).

Fixpoint blocks (n : nat) (ws : list Z) : list (list Z) :=
  match n with
  | O => []
  | S n' =>
      match ws with
      | [] => []
      | _ => firstn 16%nat ws :: blocks n' (skipn 16%nat ws)
      end
  end.

Definition digest (msg : list Z) : list Z :=
  let ws := words (pad msg) in
  fold_left compress (blocks (List.length ws) ws) H0.

Definition hex_digit (n : Z) : ascii :=
  if n <? 10 then ascii_of_N (Z.to_N (48 + n))
  else ascii_of_N (Z.to_N (87 + n)).

Definition hex_word (w : Z) : string :=
  fold_right
    (fun i acc =>
       String (hex_digit (Z.land (Z.shiftr w (4 * (7 - Z.of_nat i))) 0xF)) acc)
    EmptyString (seq 0%nat 8%nat).

Definition hexdigest (msg : list Z) : string :=
  String.concat EmptyString (map hex_word (digest msg)).

End SHA256.

(** [s.encode('utf-8')] for code points below 256. *)
Fixpoint utf8_encode (s : string) : list Z :=
  match s with
  | EmptyString => []
  | String c s' =>
      let n := Z.of_N (code c) in
      if (n <? 128)%Z then n :: utf8_encode s'
      else (192 + Z.shiftr n 6)%Z :: (128 + Z.land n 63)%Z :: utf8_encode s'
  end.

(** [hashlib.sha256(s.encode('utf-8')).hexdigest()]. *)
Definition sha256_hex (s : string) : string :=
  SHA256.hexdigest (utf8_encode s).

(* ================================================================== *)
(** ** [json.dumps(data, sort_keys=True, ensure_ascii=False)] *)

(** A JSON-serialisable Python value.  A float is represented by the
    text the encoder prints for it ([float.__repr__]); a dict by its
    items in insertion order, the keys being strings and distinct. *)
Inductive json : Type :=
| JNull
| JBool (b : bool)
| JInt (n : Z)
| JFloat (repr : string)
| JStr (s : string)
| JList (items : list json)
| JDict (items : list (string * json)).

Definition Dict : Type := list (string * json).

Module Json.

Local Open Scope string_scope.

Definition hex4 (n : Z) : string :=
  String (SHA256.hex_digit (Z.land (Z.shiftr n 12) 15))
    (String (SHA256.hex_digit (Z.land (Z.shiftr n 8) 15))
      (String (SHA256.hex_digit (Z.land (Z.shiftr n 4) 15))
        (String (SHA256.hex_digit (Z.land n 15)) ""))).

(** [ESCAPE_DCT]: the two-character escapes, and [\u00XX] for the
    other control characters. *)
Definition escape_char (c : ascii) : string :=
  let n := Z.of_N (code c) in
  if (n =? 92)%Z then "\\"
  else if (n =? 34)%Z then String "\"%char (String (ascii_of_nat 34) "")
  else if (n =? 8)%Z then "\b"
  else if (n =? 12)%Z then "\f"
  else if (n =? 10)%Z then "\n"
  else if (n =? 13)%Z then "\r"
  else if (n =? 9)%Z then "\t"
  else if (n <? 32)%Z then "\u" ++ hex4 n
  else String c "".

Fixpoint escape (s : string) : string :=
  match s with
  | EmptyString => ""
  | String c s' => escape_char c ++ escape s'
  end.

Definition quote (s : string) : string :=
  String (ascii_of_nat 34) (escape s ++ String (ascii_of_nat 34) "").

Definition int_repr (n : Z) : string :=
  DecimalString.NilZero.string_of_int (Z.to_int n).

(** Items are ordered by key, as [sort_keys=True] has it. *)
Definition by_key {A : Type} (x y : string * A) : bool :=
  String.leb (fst x) (fst y).

Definition item (kv : string * string) : string :=
  quote (fst kv) ++ ": " ++ snd kv.

Fixpoint dumps (j : json) : string :=
  match j with
  | JNull => "null"
  | JBool true => "true"
  | JBool false => "false"
  | JInt n => int_repr n
  | JFloat repr => repr
  | JStr s => quote s
  | JList items =>
      "[" ++ String.concat ", " (map dumps items) ++ "]"
  | JDict items =>
      let rendered :=
        (fix render (l : list (string * json)) : list (string * string) :=
           match l with
           | [] => []
           | (k, v) :: l' => (k, dumps v) :: render l'
           end) items in
      "{" ++ String.concat ", " (map item (sort_by by_key rendered)) ++ "}"
  end.

(** With [ensure_ascii=True], the default, every character outside
    the range from the space to the tilde is escaped as well. *)
Definition escape_char_ascii (c : ascii) : string :=
  let n := Z.of_N (code c) in
  if (127 <=? n)%Z then "\u" ++ hex4 n else escape_char c.

Fixpoint escape_ascii (s : string) : string :=
  match s with
  | EmptyString => ""
  | String c s' => escape_char_ascii c ++ escape_ascii s'
  end.

Definition quote_ascii (s : string) : string :=
  String (ascii_of_nat 34) (escape_ascii s ++ String (ascii_of_nat 34) "").

Definition item_ascii (kv : string * string) : string :=
  quote_ascii (fst kv) ++ ": " ++ snd kv.

(** [json.dumps(data, sort_keys=True)]. *)
Fixpoint dumps_ascii (j : json) : string :=
  match j with
  | JNull => "null"
  | JBool true => "true"
  | JBool false => "false"
  | JInt n => int_repr n
  | JFloat repr => repr
  | JStr s => quote_ascii s
  | JList items =>
      "[" ++ String.concat ", " (map dumps_ascii items) ++ "]"
  | JDict items =>
      let rendered :=
        (fix render (l : list (string * json)) : list (string * string) :=
           match l with
           | [] => []
           | (k, v) :: l' => (k, dumps_ascii v) :: render l'
           end) items in
      "{" ++ String.concat ", " (map item_ascii (sort_by by_key rendered))
        ++ "}"
  end.

(** [d[key] = value] on a dict. *)
Fixpoint set (d : Dict) (key : string) (value : json) : Dict :=
  match d with
  | [] => [(key, value)]
  | (k, v) :: d' =>
      if String.eqb k key then (k, value) :: d'
      else (k, v) :: set d' key value
  end.

(** [d.get(key)]: the value of the first item with that key. *)
Fixpoint get (d : Dict) (key : string) : option json :=
  match d with
  | [] => None
  | (k, v) :: d' => if String.eqb k key then Some v else get d' key
  end.

(** [d.setdefault(key, value)]: the dict it leaves. *)
Definition setdefault (d : Dict) (key : string) (value : json) : Dict :=
  match get d key with
  | Some _ => d
  | None => (d ++ [(key, value)])%list
  end.

End Json.

(* ================================================================== *)
(** ** Sovereignty/integrity_chain.py *)

Record IntegrityLink : Type := mkIntegrityLink {
  data_hash : string;
  chain_hash : string;
  root_hash : string;
  cid : string;
  timestamp : string;
  metadata : Dict
}.

(** The argument [data: Any].  [bytes] are represented by the text
    [decode('utf-8', errors='replace')] gives, and a value of any
    other type by the text [str()] gives. *)
Inductive PyData : Type :=
| PyDict (d : Dict)
| PyStr (s : string)
| PyBytes (decoded : string)
| PyOther (str : string).

Module IntegrityChain.

Local Open Scope string_scope.

Definition ROOT_HASH : string :=
  "606a347f6e2502a23179c18e4a637ca15138aa2f04194c6e6a578f8d1f8d7287".
Definition CID : string :=
  "bafybeihqz3x7k5t2m4n6p8r9s1v3w5y7a9c1e3g5i7k9m1o3q5s7u9w1y3".

Definition _serialize_data (data : PyData) : string :=
  match data with
  | PyDict d => Json.dumps (JDict d)
  | PyStr s => s
  | PyBytes decoded => decoded
  | PyOther str => str
  end.

Definition compute_data_hash (data : PyData) : string :=
  let data_str := _serialize_data data in
  sha256_hex data_str.

Definition compute_chain_hash (data : PyData) : string :=
  let data_str := _serialize_data data in
  let chain_data := data_str ++ "||" ++ ROOT_HASH ++ "||" ++ CID in
  sha256_hex chain_data.

(** [create_link]; [utcnow] is the text
    [datetime.utcnow().isoformat()] of the moment of the call. *)
Definition create_link (utcnow : string) (data : PyData)
    (metadata : option Dict) : IntegrityLink :=
  let metadata := match metadata with None => [] | Some m => m end in
  let timestamp := utcnow ++ "Z" in
  let metadata := Json.set metadata "created_at" (JStr timestamp) in
  let data_hash := compute_data_hash data in
  let chain_hash := compute_chain_hash data in
  mkIntegrityLink data_hash chain_hash ROOT_HASH CID timestamp metadata.

Definition verify_link (data : PyData) (link : IntegrityLink) : bool :=
  if negb (String.eqb (root_hash link) ROOT_HASH) then false
  else if negb (String.eqb (cid link) CID) then false
  else
    let computed_data_hash := compute_data_hash data in
    let computed_chain_hash := compute_chain_hash data in
    let data_valid := String.eqb computed_data_hash (data_hash link) in
    let chain_valid := String.eqb computed_chain_hash (chain_hash link) in
    data_valid && chain_valid.

Definition create_merkle_root (links : list IntegrityLink) : string :=
  match links with
  | [] => ""
  | _ =>
      let combined := String.concat "" (map chain_hash links) in
      sha256_hex combined
  end.

Record Verification : Type := mkVerification {
  data_hash_matches : bool;
  chain_hash_matches : bool;
  root_hash_matches : bool;
  cid_matches : bool
}.

Record Reconstruction : Type := mkReconstruction {
  formula : string;
  data_length : Z;
  chain_data_preview : string
}.

(** The dict [create_proof_of_integrity] returns. *)
Record ProofOfIntegrity : Type := mkProofOfIntegrity {
  is_valid : bool;
  proof_link : IntegrityLink;
  verification : Verification;
  reconstruction : Reconstruction;
  proof_timestamp : string
}.

Definition create_proof_of_integrity (utcnow : string) (data : PyData)
    (link : IntegrityLink) : ProofOfIntegrity :=
  let is_valid := verify_link data link in
  let data_str := _serialize_data data in
  let chain_reconstruction := data_str ++ "||" ++ ROOT_HASH ++ "||" ++ CID in
  mkProofOfIntegrity is_valid link
    (mkVerification
       (String.eqb (compute_data_hash data) (data_hash link))
       (String.eqb (compute_chain_hash data) (chain_hash link))
       (String.eqb (root_hash link) ROOT_HASH)
       (String.eqb (cid link) CID))
    (mkReconstruction "SHA256(Data || Root_Hash || CID)"
       (Z.of_nat (String.length data_str))
       (substring 0 200 chain_reconstruction ++ "..."))
    (utcnow ++ "Z").

(** The dict [export_chain_certificate] returns. *)
Record Certificate : Type := mkCertificate {
  certificate_type : string;
  version : string;
  cert_root_hash : string;
  cert_cid : string;
  total_links : Z;
  merkle_root : string;
  links : list IntegrityLink;
  generated_at : string;
  cert_formula : string;
  verification_note : string
}.

Definition export_chain_certificate (utcnow : string)
    (links : list IntegrityLink) : Certificate :=
  let merkle_root := create_merkle_root links in
  mkCertificate "ACI_Integrity_Chain" "v4" ROOT_HASH CID (len links)
    merkle_root links (utcnow ++ "Z")
    "Hash_Final = SHA256(Data || Root_Hash || CID)"
    "Este certificado vincula legalmente cada hallazgo con ACI".

(** *** Metadata as shared objects

    [create_link] writes [created_at] into the dict it is given, and
    the link it returns holds that same dict.  To follow a dict that
    several links share, dicts live on a heap and are named by their
    address; a link object holds the address of its metadata. *)

Definition Heap : Type := list Dict.

Record LinkObject : Type := mkLinkObject {
  o_data_hash : string;
  o_chain_hash : string;
  o_root_hash : string;
  o_cid : string;
  o_timestamp : string;
  o_metadata : nat
}.

Definition heap_get (h : Heap) (a : nat) : Dict := nth a h [].

Definition heap_set (h : Heap) (a : nat) (d : Dict) : Heap :=
  (firstn a h ++ d :: skipn (S a) h)%list.

(** The link as a reader sees it on heap [h]. *)
Definition link_of (h : Heap) (o : LinkObject) : IntegrityLink :=
  mkIntegrityLink (o_data_hash o) (o_chain_hash o) (o_root_hash o) (o_cid o)
    (o_timestamp o) (heap_get h (o_metadata o)).

(** [create_link] on the heap: a dict is allocated when [metadata] is
    [None], and the dict at the address is updated in place. *)
Definition create_link_on (h : Heap) (utcnow : string) (data : PyData)
    (metadata : option nat) : LinkObject * Heap :=
  let '(metadata, h) :=
    match metadata with
    | None => (List.length h, (h ++ [[]])%list)
    | Some a => (a, h)
    end in
  let timestamp := utcnow ++ "Z" in
  let h :=
    heap_set h metadata
      (Json.set (heap_get h metadata) "created_at" (JStr timestamp)) in
  let data_hash := compute_data_hash data in
  let chain_hash := compute_chain_hash data in
  (mkLinkObject data_hash chain_hash ROOT_HASH CID timestamp metadata, h).

(** The loop of [batch_create_links] over the zipped pairs; [clock t]
    is the text of the [t]-th reading of [datetime.utcnow()]. *)
Fixpoint batch_loop (clock : nat -> string) (t : nat) (h : Heap)
    (pairs : list (PyData * nat)) : list LinkObject * Heap :=
  match pairs with
  | [] => ([], h)
  | (data, metadata) :: pairs' =>
      let '(link, h) := create_link_on h (clock t) data (Some metadata) in
      let '(links, h) := batch_loop clock (S t) h pairs' in
      (link :: links, h)
  end.

(** [batch_create_links]; without a metadata list, [[{}] * len(data_list)]
    is one new dict, listed once per data item. *)
Definition batch_create_links (clock : nat -> string) (t : nat) (h : Heap)
    (data_list : list PyData) (metadata_list : option (list nat))
  : list LinkObject * Heap :=
  let '(metadata_list, h) :=
    match metadata_list with
    | None =>
        (repeat (List.length h) (List.length data_list), (h ++ [[]])%list)
    | Some l => (l, h)
    end in
  batch_loop clock t h (combine data_list metadata_list).

(** A data item as the caller holds it: a value nothing else refers
    to, or a dict object of the heap, which the caller may pass as
    metadata as well. *)
Inductive DataObject : Type :=
| Value (data : PyData)
| Object (address : nat).

(** The data a reader finds on heap [h]. *)
Definition data_of (h : Heap) (data : DataObject) : PyData :=
  match data with
  | Value v => v
  | Object a => PyDict (heap_get h a)
  end.

(** [create_link] and [batch_create_links] on data that may be shared
    with the metadata: [created_at] is written into the metadata dict
    first, and the hashes are computed from the data as it is then. *)
Module Shared.

Definition create_link (h : Heap) (utcnow : string) (data : DataObject)
    (metadata : option nat) : LinkObject * Heap :=
  let '(metadata, h) :=
    match metadata with
    | None => (List.length h, (h ++ [[]])%list)
    | Some a => (a, h)
    end in
  let timestamp := utcnow ++ "Z" in
  let h :=
    heap_set h metadata
      (Json.set (heap_get h metadata) "created_at" (JStr timestamp)) in
  let data_hash := compute_data_hash (data_of h data) in
  let chain_hash := compute_chain_hash (data_of h data) in
  (mkLinkObject data_hash chain_hash ROOT_HASH CID timestamp metadata, h).

Fixpoint batch_loop (clock : nat -> string) (t : nat) (h : Heap)
    (pairs : list (DataObject * nat)) : list LinkObject * Heap :=
  match pairs with
  | [] => ([], h)
  | (data, metadata) :: pairs' =>
      let '(link, h) := create_link h (clock t) data (Some metadata) in
      let '(links, h) := batch_loop clock (S t) h pairs' in
      (link :: links, h)
  end.

Definition batch_create_links (clock : nat -> string) (t : nat) (h : Heap)
    (data_list : list DataObject) (metadata_list : option (list nat))
  : list LinkObject * Heap :=
  let '(metadata_list, h) :=
    match metadata_list with
    | None =>
        (repeat (List.length h) (List.length data_list), (h ++ [[]])%list)
    | Some l => (l, h)
    end in
  batch_loop clock t h (combine data_list metadata_list).

End Shared.

End IntegrityChain.

(* ================================================================== *)
(** ** Sovereignty/hash_validator.py *)

(** The argument [data: Any] of [compute_hash]: [bytes] are hashed as
    they are, a value of any other type through the text [str()]
    gives. *)
Inductive HashData : Type :=
| HDict (d : Dict)
| HStr (s : string)
| HBytes (b : list Z)
| HOther (str : string).

Record ValidationResult : Type := mkValidationResult {
  v_is_valid : bool;
  expected_hash : string;
  computed_hash : string;
  v_timestamp : string;
  data_fingerprint : string;
  error_message : option string
}.

Inductive SecurityException : Type :=
| mkSecurityException (msg : string).

Module HashValidator.

Local Open Scope string_scope.

Definition ROOT_HASH : string :=
  "606a347f6e2502a23179c18e4a637ca15138aa2f04194c6e6a578f8d1f8d7287".
Definition CID : string :=
  "bafybeihqz3x7k5t2m4n6p8r9s1v3w5y7a9c1e3g5i7k9m1o3q5s7u9w1y3".

Definition compute_hash (data : HashData) : string :=
  let data_bytes :=
    match data with
    | HDict d => utf8_encode (Json.dumps_ascii (JDict d))
    | HStr s => utf8_encode s
    | HBytes b => b
    | HOther str => utf8_encode str
    end in
  SHA256.hexdigest data_bytes.

(** The first word of the error messages, with its capital O with
    acute accent, code point 211. *)
Definition MANIPULACION : string :=
  "MANIPULACI" ++ String (ascii_of_nat 211) "N".

(** [utcnow] is the text [datetime.utcnow().isoformat()] of the moment
    of the call. *)
Definition validate_against_root (utcnow : string) (data : HashData)
  : ValidationResult :=
  let timestamp := utcnow ++ "Z" in
  let computed_hash := compute_hash data in
  let is_valid := String.eqb computed_hash ROOT_HASH in
  let fingerprint := substring 0 16 computed_hash in
  let error_message :=
    if negb is_valid
    then Some (MANIPULACION ++ " DETECTADA: Hash no coincide con Root Hash")
    else None in
  mkValidationResult is_valid ROOT_HASH computed_hash timestamp fingerprint
    error_message.

Definition validate_derived_hash (utcnow : string) (data : HashData)
    (expected_hash : string) : ValidationResult :=
  let timestamp := utcnow ++ "Z" in
  let computed_hash := compute_hash data in
  let is_valid := String.eqb computed_hash expected_hash in
  let fingerprint := substring 0 16 computed_hash in
  let error_message :=
    if negb is_valid
    then Some (MANIPULACION ++ " DETECTADA: Hash esperado "
               ++ substring 0 16 expected_hash ++ "..., obtenido "
               ++ substring 0 16 computed_hash ++ "...")
    else None in
  mkValidationResult is_valid expected_hash computed_hash timestamp
    fingerprint error_message.

Definition validate_chain (utcnow : string) (data : HashData)
    (root_hash cid : string) : ValidationResult :=
  if negb (String.eqb root_hash ROOT_HASH)
  then mkValidationResult false ROOT_HASH root_hash (utcnow ++ "Z") ""
         (Some ("Root Hash inv" ++ String (ascii_of_nat 225) "lido"))
  else if negb (String.eqb cid CID)
  then mkValidationResult false CID cid (utcnow ++ "Z") ""
         (Some ("CID inv" ++ String (ascii_of_nat 225) "lido"))
  else validate_against_root utcnow data.

(** [block_if_invalid]: [inr tt] when it returns, [inl e] when it
    raises [e]. *)
Definition block_if_invalid (utcnow : string) (data : HashData)
    (expected_hash : string) : SecurityException + unit :=
  let result := validate_derived_hash utcnow data expected_hash in
  if negb (v_is_valid result)
  then inl (mkSecurityException
              ("OPERACI" ++ String (ascii_of_nat 211) "N BLOQUEADA: "
               ++ match error_message result with
                  | Some m => m
                  | None => "None"
                  end
               ++ String (ascii_of_nat 10) "Esperado: " ++ expected_hash
               ++ String (ascii_of_nat 10) "Obtenido: "
               ++ computed_hash result
               ++ String (ascii_of_nat 10) "Timestamp: "
               ++ v_timestamp result))
  else inr tt.

(** The dict [verify_integrity_trail] returns, the results as the
    records [to_dict] renders. *)
Record Trail : Type := mkTrail {
  all_valid : bool;
  total_validated : Z;
  valid_count : Z;
  invalid_count : Z;
  results : list ValidationResult
}.

(** One turn of the loop of [verify_integrity_trail]; the state is the
    number of clock readings taken, [results] and [all_valid]. *)
Definition trail_step (clock : nat -> string)
    (st : nat * list ValidationResult * bool) (entry : HashData * string)
  : nat * list ValidationResult * bool :=
  let '(t, results, all_valid) := st in
  let '(data, expected_hash) := entry in
  let result := validate_derived_hash (clock t) data expected_hash in
  (S t, (results ++ [result])%list,
   if negb (v_is_valid result) then false else all_valid).

Definition verify_integrity_trail (clock : nat -> string) (t : nat)
    (data_chain : list (HashData * string)) : Trail :=
  let '(_, results, all_valid) :=
    fold_left (trail_step clock) data_chain (t, [], true) in
  mkTrail all_valid (len data_chain)
    (len (filter (fun r => v_is_valid r) results))
    (len (filter (fun r => negb (v_is_valid r)) results))
    results.

End HashValidator.

(* ================================================================== *)
(** ** The run-time environment of the audit modules

    What the audit code takes from outside the repository and from the
    clock: the successive readings of [datetime.utcnow()], the entropy
    of a text ([ShannonEntropyCalculator.calculate_entropy], a total
    function into the floats), and the [statistics] functions and the
    built-in [sum] on lists of floats, whose rounding depends on the
    interpreter. *)

(** An ISO-8601 timestamp text, represented by the instant it denotes
    in microseconds ([isoformat] and [fromisoformat] are inverse to
    each other), or the placeholder ["N/A"]. *)
Inductive Timestamp : Type :=
| NA
| Instant (microseconds : Z).

Record Runtime : Type := mkRuntime {
  utcnow : nat -> Z;
  calculate_entropy : string -> float;
  statistics_mean : list float -> float;
  statistics_stdev : list float -> float;
  py_sum : list float -> float
}.

(* ================================================================== *)
(** ** Audit/log_capture.py: the record read by the monitor *)

Record InteractionLog : Type := mkInteractionLog {
  log_session_id : string;
  log_timestamp : Timestamp;
  log_prompt : string;
  response_origin : string;
  response_control : string;
  log_metadata : Dict;
  log_root_hash : string;
  session_hash : string
}.

Module LogCapture.

Local Open Scope string_scope.

Definition ROOT_HASH : string :=
  "606a347f6e2502a23179c18e4a637ca15138aa2f04194c6e6a578f8d1f8d7287".
Definition CID : string :=
  "bafybeihqz3x7k5t2m4n6p8r9s1v3w5y7a9c1e3g5i7k9m1o3q5s7u9w1y3".

Definition _compute_session_hash
    (session_id timestamp prompt response_origin response_control : string)
  : string :=
  let session_data :=
    session_id ++ "|" ++ timestamp ++ "|" ++ prompt ++ "|" ++ response_origin
      ++ "|" ++ response_control in
  let combined := session_data ++ "||" ++ ROOT_HASH ++ "||" ++ CID in
  sha256_hex combined.

(** An entry of the index file's [sessions] list. *)
Record Session : Type := mkSession {
  s_session_id : string;
  s_timestamp : Timestamp;
  s_session_hash : string
}.

Record Index : Type := mkIndex {
  idx_created_at : Timestamp;
  idx_root_hash : string;
  idx_cid : string;
  total_logs : Z;
  sessions : list Session
}.

(** The two files of the log directory: the JSONL file, represented by
    the logs its lines decode to, and the index. *)
Record t : Type := mk {
  log_file : list InteractionLog;
  index : Index
}.

(** [__init__] on a directory without files, at instant [now]. *)
Definition init (now : Z) : t :=
  mk [] (mkIndex (Instant now) ROOT_HASH CID 0 []).

Definition _append_to_jsonl (self : t) (log : InteractionLog) : t :=
  mk (log_file self ++ [log])%list (index self).

Definition _update_index (self : t) (session_id : string)
    (timestamp : Timestamp) (session_hash : string) : t :=
  let index := index self in
  mk (log_file self)
    (mkIndex (idx_created_at index) (idx_root_hash index) (idx_cid index)
       (total_logs index + 1)
       (sessions index ++ [mkSession session_id timestamp session_hash])%list).

Definition load_all_logs (self : t) : list InteractionLog := log_file self.

Definition load_by_session_id (self : t) (session_id : string)
  : option InteractionLog :=
  find (fun log => String.eqb (log_session_id log) session_id)
    (load_all_logs self).

Section WithIsoformat.

(** [datetime.isoformat()] of an instant. *)
Variable isoformat : Z -> string.

(** The text of a timestamp field. *)
Definition timestamp_text (timestamp : Timestamp) : string :=
  match timestamp with
  | NA => "N/A"
  | Instant t => isoformat t ++ "Z"
  end.

(** [capture]; [uuid4] is the identifier drawn and [now] the instant
    read from the clock. *)
Definition capture (self : t) (uuid4 : string) (now : Z)
    (prompt response_origin response_control : string)
    (metadata : option Dict) : InteractionLog * t :=
  let session_id := uuid4 in
  let timestamp := Instant now in
  let metadata := match metadata with None => [] | Some m => m end in
  let metadata :=
    Json.setdefault metadata "captured_by" (JStr "ACI_LogCapture_v4") in
  let session_hash :=
    _compute_session_hash session_id (timestamp_text timestamp) prompt
      response_origin response_control in
  let log :=
    mkInteractionLog session_id timestamp prompt response_origin
      response_control metadata ROOT_HASH session_hash in
  let self := _append_to_jsonl self log in
  let self := _update_index self session_id timestamp session_hash in
  (log, self).

Definition verify_integrity (log : InteractionLog) : bool :=
  let computed_hash :=
    _compute_session_hash (log_session_id log)
      (timestamp_text (log_timestamp log)) (log_prompt log)
      (response_origin log) (response_control log) in
  String.eqb computed_hash (session_hash log).

(** The dict [get_statistics] returns. *)
Record Statistics : Type := mkStatistics {
  st_total_logs : Z;
  total_sessions : Z;
  first_log : option Timestamp;
  last_log : option Timestamp;
  st_root_hash : string;
  st_cid : string;
  integrity_verified : bool
}.

Definition get_statistics (self : t) : Statistics :=
  let index := index self in
  let logs := load_all_logs self in
  mkStatistics (total_logs index) (len (sessions index))
    (match sessions index with
     | [] => None
     | s :: _ => Some (s_timestamp s)
     end)
    (match sessions index with
     | [] => None
     | s :: rest => Some (s_timestamp (last rest s))
     end)
    ROOT_HASH CID (forallb verify_integrity logs).

End WithIsoformat.

End LogCapture.

(* ================================================================== *)
(** ** Audit/degradation_monitor.py *)

Record Metrics : Type := mkMetrics {
  entropy_origin : float;
  entropy_control : float;
  entropy_loss_percentage : float;
  m_I_D : float;
  m_dim_V_O : Z;
  m_dim_V_C : Z;
  m_dim_intersection : Z
}.

Record MonitoringResult : Type := mkMonitoringResult {
  session_id : string;
  r_timestamp : Timestamp;
  degradation : DegradationResult;
  intervention_detected : bool;
  severity_level : string;
  alert_triggered : bool;
  metrics : Metrics
}.

Module DegradationMonitor.

Local Open Scope string_scope.

Definition CRITICAL_THRESHOLD : float := 0.4%float.
Definition HIGH_THRESHOLD : float := 0.25%float.
Definition MEDIUM_THRESHOLD : float := 0.15%float.

Record Stats : Type := mkStats {
  total_monitored : Z;
  interventions_detected : Z;
  critical_alerts : Z;
  high_alerts : Z;
  medium_alerts : Z;
  low_alerts : Z
}.

(** The monitor's mutable state, with the number of clock readings
    taken so far. *)
Record t : Type := mk {
  clock : nat;
  stats : Stats
}.

Definition init : t := mk 0 (mkStats 0 0 0 0 0 0).

Definition _determine_severity (I_D : float) : string :=
  if PrimFloat.leb CRITICAL_THRESHOLD I_D then "CRITICAL"
  else if PrimFloat.leb HIGH_THRESHOLD I_D then "HIGH"
  else if PrimFloat.leb MEDIUM_THRESHOLD I_D then "MEDIUM"
  else "LOW".

Definition _update_stats (s : Stats) (result : MonitoringResult) : Stats :=
  let s := mkStats (total_monitored s + 1) (interventions_detected s)
             (critical_alerts s) (high_alerts s) (medium_alerts s)
             (low_alerts s) in
  let s := if intervention_detected result
           then mkStats (total_monitored s) (interventions_detected s + 1)
                  (critical_alerts s) (high_alerts s) (medium_alerts s)
                  (low_alerts s)
           else s in
  if String.eqb (severity_level result) "CRITICAL"
  then mkStats (total_monitored s) (interventions_detected s)
         (critical_alerts s + 1) (high_alerts s) (medium_alerts s)
         (low_alerts s)
  else if String.eqb (severity_level result) "HIGH"
  then mkStats (total_monitored s) (interventions_detected s)
         (critical_alerts s) (high_alerts s + 1) (medium_alerts s)
         (low_alerts s)
  else if String.eqb (severity_level result) "MEDIUM"
  then mkStats (total_monitored s) (interventions_detected s)
         (critical_alerts s) (high_alerts s) (medium_alerts s + 1)
         (low_alerts s)
  else mkStats (total_monitored s) (interventions_detected s)
         (critical_alerts s) (high_alerts s) (medium_alerts s)
         (low_alerts s + 1).

Section WithRuntime.

Variable rt : Runtime.

Definition monitor_interaction (self : t)
    (session_id prompt response_origin response_control : string)
  : result (MonitoringResult * t) :=
  let timestamp := Instant (utcnow rt (clock self)) in
  degradation <-
    DegradationIndexCalculator.calculate response_origin response_control ;;
  let severity := _determine_severity (I_D degradation) in
  let intervention_detected :=
    PrimFloat.leb CRITICAL_THRESHOLD (I_D degradation) in
  let alert_triggered :=
    PrimFloat.leb MEDIUM_THRESHOLD (I_D degradation) in
  let entropy_O := calculate_entropy rt response_origin in
  let entropy_C := calculate_entropy rt response_control in
  let entropy_loss :=
    if PrimFloat.ltb 0 entropy_O
    then PrimFloat.mul
           (PrimFloat.div (PrimFloat.sub entropy_O entropy_C) entropy_O) 100
    else 0%float in
  let metrics :=
    mkMetrics entropy_O entropy_C entropy_loss (I_D degradation)
      (dim_V_O degradation) (dim_V_C degradation)
      (dim_intersection degradation) in
  let result :=
    mkMonitoringResult session_id timestamp degradation
      intervention_detected severity alert_triggered metrics in
  Ok (result, mk (S (clock self)) (_update_stats (stats self) result)).

Definition monitor_log (self : t) (log : InteractionLog)
  : result (MonitoringResult * t) :=
  monitor_interaction self (log_session_id log) (log_prompt log)
    (response_origin log) (response_control log).

Fixpoint batch_monitor (self : t) (logs : list InteractionLog)
  : result (list MonitoringResult * t) :=
  match logs with
  | [] => Ok ([], self)
  | log :: logs' =>
      '(result, self) <- monitor_log self log ;;
      '(results, self) <- batch_monitor self logs' ;;
      Ok (result :: results, self)
  end.

(** The dict [get_statistics] returns: the counters and two rates. *)
Record Statistics : Type := mkStatistics {
  counters : Stats;
  intervention_rate_percentage : float;
  critical_rate_percentage : float
}.

Definition get_statistics (self : t) : Statistics :=
  let total := total_monitored (stats self) in
  let '(intervention_rate, critical_rate) :=
    if (0 <? total)%Z
    then (PrimFloat.mul
            (truediv (interventions_detected (stats self)) total) 100,
          PrimFloat.mul (truediv (critical_alerts (stats self)) total) 100)
    else (0%float, 0%float) in
  mkStatistics (stats self) intervention_rate critical_rate.

Definition get_interventions (self : t) (logs : list InteractionLog)
  : result (list MonitoringResult * t) :=
  '(results, self) <- batch_monitor self logs ;;
  Ok (filter intervention_detected results, self).

End WithRuntime.

End DegradationMonitor.

(* ================================================================== *)
(** ** Audit/temporal_analysis.py *)

Record TemporalMetrics : Type := mkTemporalMetrics {
  period_start : Timestamp;
  period_end : Timestamp;
  total_interactions : Z;
  mean_I_D : float;
  std_I_D : float;
  trend_slope : float;
  trend_direction : string;
  interventions_count : Z;
  thermal_death_risk : string
}.

Module TemporalAnalyzer.

Local Open Scope string_scope.

Definition STABLE_THRESHOLD : float := 0.05%float.
Definition MODERATE_THRESHOLD : float := 0.15%float.
Definition HIGH_THRESHOLD : float := 0.30%float.

(** [(parse(ts) - parse(base)).total_seconds() / 86400]. *)
Definition days_since (base ts : Timestamp) : float :=
  match base, ts with
  | Instant b, Instant t =>
      PrimFloat.div (truediv (t - b) 1000000) 86400
  | _, _ => nan
  end.

(** [sum([high_baseline, increasing_trend, high_interventions])]. *)
Definition count_true (l : list bool) : Z :=
  fold_left (fun acc (b : bool) => if b then (acc + 1)%Z else acc) l 0%Z.

Definition _determine_trend_direction (slope : float) : string :=
  if PrimFloat.ltb (PrimFloat.abs slope) STABLE_THRESHOLD then "STABLE"
  else if PrimFloat.ltb 0 slope then "INCREASING"
  else "DECREASING".

Definition _assess_thermal_death_risk
    (mean_I_D trend_slope interventions_rate : float) : string :=
  let high_baseline := PrimFloat.leb 0.35 mean_I_D in
  let increasing_trend := PrimFloat.ltb MODERATE_THRESHOLD trend_slope in
  let high_interventions := PrimFloat.ltb 0.5 interventions_rate in
  let risk_score :=
    count_true [high_baseline; increasing_trend; high_interventions] in
  if (3 <=? risk_score)%Z then "CRITICAL"
  else if (risk_score =? 2)%Z then "HIGH"
  else if (risk_score =? 1)%Z then "MEDIUM"
  else "LOW".

Section WithRuntime.

Variable rt : Runtime.

(** The square [(days[i] - mean_x) ** 2] is taken as a product. *)
Definition _calculate_trend_slope (I_D_values : list float)
    (timestamps : list Timestamp) : float :=
  if (len I_D_values <? 2)%Z then 0%float
  else
    let base_time := hd NA timestamps in
    let days := map (days_since base_time) timestamps in
    let mean_x := statistics_mean rt days in
    let mean_y := statistics_mean rt I_D_values in
    let numerator :=
      py_sum rt
        (map (fun p => PrimFloat.mul (PrimFloat.sub (fst p) mean_x)
                         (PrimFloat.sub (snd p) mean_y))
             (combine days I_D_values)) in
    let denominator :=
      py_sum rt
        (map (fun x => let d := PrimFloat.sub x mean_x in PrimFloat.mul d d)
             days) in
    if PrimFloat.eqb denominator 0 then 0%float
    else PrimFloat.div numerator denominator.

(** [analyze_period]; [monitor] is the state of [self.monitor]. *)
Definition analyze_period (monitor : DegradationMonitor.t)
    (logs : list InteractionLog)
  : result (TemporalMetrics * DegradationMonitor.t) :=
  match logs with
  | [] =>
      Ok (mkTemporalMetrics NA NA 0 0 0 0 "STABLE" 0 "LOW", monitor)
  | _ =>
      '(results, monitor) <-
         DegradationMonitor.batch_monitor rt monitor logs ;;
      let I_D_values := map (fun r => I_D (degradation r)) results in
      let timestamps := map r_timestamp results in
      let mean_I_D := statistics_mean rt I_D_values in
      let std_I_D :=
        if (1 <? len I_D_values)%Z then statistics_stdev rt I_D_values
        else 0%float in
      let trend_slope := _calculate_trend_slope I_D_values timestamps in
      let trend_direction := _determine_trend_direction trend_slope in
      let interventions_count :=
        len (filter intervention_detected results) in
      let interventions_rate :=
        match results with
        | [] => 0%float
        | _ => truediv interventions_count (len results)
        end in
      let thermal_death_risk :=
        _assess_thermal_death_risk mean_I_D trend_slope
          interventions_rate in
      Ok (mkTemporalMetrics (hd NA timestamps) (last timestamps NA)
            (len logs) mean_I_D std_I_D trend_slope trend_direction
            interventions_count thermal_death_risk, monitor)
  end.

(** The dict [compare_periods] returns. *)
Record Comparison : Type := mkComparison {
  period1 : TemporalMetrics;
  period2 : TemporalMetrics;
  mean_I_D_change_percentage : float;
  interventions_change : Z;
  trend_changed : bool;
  risk_level_changed : bool
}.

Definition compare_periods (monitor : DegradationMonitor.t)
    (period1_logs period2_logs : list InteractionLog)
  : result (Comparison * DegradationMonitor.t) :=
  '(metrics1, monitor) <- analyze_period monitor period1_logs ;;
  '(metrics2, monitor) <- analyze_period monitor period2_logs ;;
  let mean_I_D_change :=
    if PrimFloat.ltb 0 (mean_I_D metrics1)
    then PrimFloat.mul
           (PrimFloat.div
              (PrimFloat.sub (mean_I_D metrics2) (mean_I_D metrics1))
              (mean_I_D metrics1)) 100
    else 0%float in
  let interventions_change :=
    (interventions_count metrics2 - interventions_count metrics1)%Z in
  Ok (mkComparison metrics1 metrics2 mean_I_D_change interventions_change
        (negb (String.eqb (trend_direction metrics1)
                 (trend_direction metrics2)))
        (negb (String.eqb (thermal_death_risk metrics1)
                 (thermal_death_risk metrics2))),
      monitor).

End WithRuntime.

End TemporalAnalyzer.

(* ================================================================== *)
(** ** Core/invariance_engine.py *)

Record IntegrityMatrix : Type := mkIntegrityMatrix {
  im_root_hash : string;
  im_cid : string;
  im_timestamp : string;
  im_entropy_O : float;
  im_entropy_C : float;
  im_entropy_loss_percentage : float;
  degradation_index : float;
  degradation_status : string;
  im_interference_detected : bool;
  truth_invariance : bool;
  im_gradient_magnitude : float;
  im_stability_score : float;
  im_cosine_distance : float;
  im_kl_divergence : float;
  im_dim_V_O : Z;
  im_dim_V_C : Z;
  im_dim_intersection : Z;
  integrity_hash : string
}.

Module InvarianceEngine.

Local Open Scope string_scope.

Definition ROOT_HASH : string :=
  "606a347f6e2502a23179c18e4a637ca15138aa2f04194c6e6a578f8d1f8d7287".
Definition CID : string :=
  "bafybeihqz3x7k5t2m4n6p8r9s1v3w5y7a9c1e3g5i7k9m1o3q5s7u9w1y3".

Definition compute_integrity_hash (data : string) : string :=
  let combined := data ++ ROOT_HASH ++ CID in
  sha256_hex combined.

(** [str(b)] of a bool. *)
Definition str_bool (b : bool) : string := if b then "True" else "False".

Section WithEnvironment.

(** [ShannonEntropyCalculator.calculate_entropy], the natural logarithm
    of the numeric library, the format [{:.6f}] of a float, and the
    text [datetime.utcnow().isoformat()] of the moment of the call. *)
Variable calculate_entropy : string -> float.
Variable log : float -> float.
Variable format_6f : float -> string.
Variable utcnow : string.

Definition analyze (text_origin text_control : string)
    (perturbed_responses : option (list string)) : result IntegrityMatrix :=
  let entropy_O := calculate_entropy text_origin in
  let entropy_C := calculate_entropy text_control in
  let entropy_loss :=
    if PrimFloat.ltb 0 entropy_O
    then PrimFloat.mul
           (PrimFloat.div (PrimFloat.sub entropy_O entropy_C) entropy_O) 100
    else 0%float in
  degradation <-
    DegradationIndexCalculator.calculate text_origin text_control ;;
  let vs_space := SemanticVectorSpace.default in
  '(vs_space, _) <-
     SemanticVectorSpace.fit_transform vs_space text_origin text_control ;;
  cosine_dist <- SemanticVectorSpace.cosine_distance vs_space ;;
  kl_div <- SemanticVectorSpace.kl_divergence log vs_space ;;
  '(truth_invariant, gradient_mag, stability) <-
     match perturbed_responses with
     | Some ((_ :: _) as responses) =>
         invariance_result <-
           TruthInvarianceValidator.validate_invariance text_origin
             responses ;;
         Ok (is_invariant invariance_result,
             gradient_magnitude invariance_result,
             stability_score invariance_result)
     | _ => Ok (true, 0%float, 1%float)
     end ;;
  let integrity_data :=
    "H_O:" ++ format_6f entropy_O ++ "|H_C:" ++ format_6f entropy_C
    ++ "|I_D:" ++ format_6f (I_D degradation)
    ++ "|Inv:" ++ str_bool truth_invariant
    ++ "|Cos:" ++ format_6f cosine_dist ++ "|KL:" ++ format_6f kl_div
    ++ "|Grad:" ++ format_6f gradient_mag
    ++ "|Stab:" ++ format_6f stability in
  let integrity_hash := compute_integrity_hash integrity_data in
  Ok (mkIntegrityMatrix ROOT_HASH CID (utcnow ++ "Z")
        entropy_O entropy_C entropy_loss
        (I_D degradation) (status degradation)
        (interference_detected degradation)
        truth_invariant gradient_mag stability
        cosine_dist kl_div
        (dim_V_O degradation) (dim_V_C degradation)
        (dim_intersection degradation)
        integrity_hash).

End WithEnvironment.

End InvarianceEngine.

(* ================================================================== *)
(** ** Definitions used in the statements and in the proofs *)

(** [p i && p (i + 1) && ...], [fuel] values in all. *)
Fixpoint forall_upto (fuel : nat) (i : Z) (p : Z -> bool) : bool :=
  match fuel with
  | O => true
  | S fuel' => p i && forall_upto fuel' (Z.succ i) p
  end.

(** The index [calculate] computes from the two counts. *)
Definition I_D_of (dim_intersection dim_O : Z) : float :=
  if (dim_O =? 0)%Z then 0%float
  else PrimFloat.sub 1 (truediv dim_intersection dim_O).

(** What the proofs need of [I_D_of k n]: its range, when it is zero,
    and its position against the two thresholds, the latter in exact
    integer arithmetic ([1 - k/n >= 2/5] and [1 - k/n >= 1/4]). *)
Definition I_D_ok (k n : Z) : bool :=
  let i := I_D_of k n in
  PrimFloat.leb 0 i && PrimFloat.leb i 1
  && Bool.eqb (PrimFloat.eqb i 0) (k =? n)%Z
  && Bool.eqb (PrimFloat.leb DegradationIndexCalculator.CRITICAL_THRESHOLD i)
       (negb (n =? 0)%Z && (2 * n <=? 5 * (n - k))%Z)
  && Bool.eqb (PrimFloat.leb DegradationIndexCalculator.HIGH_THRESHOLD i)
       (negb (n =? 0)%Z && (n <=? 4 * (n - k))%Z)
  && Bool.eqb (PrimFloat.ltb i DegradationIndexCalculator.CRITICAL_THRESHOLD)
       (negb (PrimFloat.leb DegradationIndexCalculator.CRITICAL_THRESHOLD i))
  && Bool.eqb (PrimFloat.ltb i DegradationIndexCalculator.HIGH_THRESHOLD)
       (negb (PrimFloat.leb DegradationIndexCalculator.HIGH_THRESHOLD i)).

Definition I_D_ok_upto (bound : nat) : bool :=
  forall_upto (S bound) 0
    (fun n => forall_upto (S bound) 0 (fun k => (n <? k)%Z || I_D_ok k n)).

(** The status and the flag [calculate] derives from the index. *)
Definition status_of (I_D : float) : string * bool :=
  if PrimFloat.leb DegradationIndexCalculator.CRITICAL_THRESHOLD I_D
  then ("INTERFERENCIA_CRITICA"%string, true)
  else if PrimFloat.leb DegradationIndexCalculator.HIGH_THRESHOLD I_D
  then ("INTERFERENCIA_ALTA"%string, true)
  else ("ESTABLE"%string, false).

(** A text with no token: no run of two word characters or more. *)
Definition tokenless (text : string) : Prop :=
  Tfidf.tokenize (lower text) = [].

(** The result of [calculate] on the texts ["hello world hello"] and
    ["world peace"]: four terms in the origin, one of them shared. *)
Definition example_result : DegradationResult :=
  mkDegradationResult 0.75 4 3 1 "INTERFERENCIA_CRITICA" true 75 25.

(** Two links made from the same data at different moments: they
    differ in the timestamp and the metadata only. *)
Definition link_at (utcnow : string) : IntegrityLink :=
  IntegrityChain.create_link utcnow (PyStr "evidence") None.

Definition link_a : IntegrityLink := link_at "2024-01-01T00:00:00".
Definition link_b : IntegrityLink := link_at "2024-01-02T00:00:00".

(** A link made from other data. *)
Definition link_c : IntegrityLink :=
  IntegrityChain.create_link "2024-01-03T00:00:00" (PyStr "other") None.

(** A finding after the program's own test data, and the same dict
    filled in another order. *)
Definition finding : Dict :=
  [("session_id"%string, JStr "test_001"); ("I_D"%string, JFloat "0.45");
   ("status"%string, JStr "CRITICAL")].

Definition finding_reordered : Dict :=
  [("status"%string, JStr "CRITICAL"); ("session_id"%string, JStr "test_001");
   ("I_D"%string, JFloat "0.45")].

(** The items of a dict with their values rendered, as [dumps] sorts
    them. *)
Definition rendered_items (d : Dict) : list (string * string) :=
  map (fun kv => (fst kv, Json.dumps (snd kv))) d.

(** One comparison of [calculate_gradient] on a vector space of its
    own: the distance, or the exception the [try] block would catch. *)
Definition comparison (original_response perturbed : string) : result float :=
  '(vs_space, _) <-
     SemanticVectorSpace.fit_transform SemanticVectorSpace.default
       original_response perturbed ;;
  SemanticVectorSpace.cosine_distance vs_space.

(** What one comparison adds to [distances]. *)
Definition kept (original_response perturbed : string) : list float :=
  match comparison original_response perturbed with
  | Ok dist => [dist]
  | Raise _ => []
  end.

(** The three risk factors of the temporal analysis, in the order
    baseline, trend, interventions, and the number of those that hold. *)
Definition risk_factors (mean_I_D trend_slope interventions_rate : float)
  : list bool :=
  [PrimFloat.leb 0.35 mean_I_D; PrimFloat.ltb 0.15 trend_slope;
   PrimFloat.ltb 0.5 interventions_rate].

Definition risk_points (mean_I_D trend_slope interventions_rate : float) : Z :=
  TemporalAnalyzer.count_true
    (risk_factors mean_I_D trend_slope interventions_rate).

(** The rating the specification gives to a number of points. *)
Definition rating_of_points (points : Z) : string :=
  if (points =? 3)%Z then "CRITICAL"%string
  else if (points =? 2)%Z then "HIGH"%string
  else if (points =? 1)%Z then "MEDIUM"%string
  else "LOW"%string.

(** The intervention rate of a period, from the two counts of its
    [TemporalMetrics]. *)
Definition interventions_rate_of (m : TemporalMetrics) : float :=
  truediv (interventions_count m) (total_interactions m).

(** A log whose two responses have no token: [calculate] raises on it. *)
Definition tokenless_log (log : InteractionLog) : Prop :=
  tokenless (response_origin log) /\ tokenless (response_control log).

(** The measurement sequence of a period: the index [calculate] gives
    on the two responses of each log, in the order of the logs. *)
Definition measured_I_D (logs : list InteractionLog) : list float :=
  flat_map
    (fun log =>
       match DegradationIndexCalculator.calculate (response_origin log)
               (response_control log) with
       | Ok r => [I_D r]
       | Raise _ => []
       end)
    logs.

(** The [n] clock readings a monitor takes from its state on. *)
Definition clock_readings (rt : Runtime) (monitor : DegradationMonitor.t)
    (n : nat) : list Timestamp :=
  map (fun i => Instant (utcnow rt (DegradationMonitor.clock monitor + i)))
    (seq 0 n).

(** Exactly two, and exactly one, of three factors hold. *)
Definition exactly_two (a b c : bool) : bool :=
  (a && b && negb c) || (a && negb b && c) || (negb a && b && c).

Definition exactly_one (a b c : bool) : bool :=
  (a && negb b && negb c) || (negb a && b && negb c)
  || (negb a && negb b && c).

(** A run-time environment for the examples: one clock reading per
    day, plain left-to-right sums and means. *)
Definition example_runtime : Runtime :=
  mkRuntime (fun n => (Z.of_nat n * 86400000000)%Z) (fun _ => 1%float)
    (fun l => PrimFloat.div (fsum l) (float_of_Z (len l)))
    (fun _ => 0%float) fsum.

Definition example_log (origin control : string) : InteractionLog :=
  mkInteractionLog "session" NA "prompt" origin control [] EmptyString
    EmptyString.

Definition example_logs : list InteractionLog :=
  [example_log "hello world" "hello world";
   example_log "hello world" "peace";
   example_log "hello world" "be"].

(** The link objects [batch_loop] is expected to build: one per pair,
    in order, each stamped with the next clock reading. *)
Fixpoint batch_objects (clock : nat -> string) (t : nat)
    (pairs : list (PyData * nat)) : list IntegrityChain.LinkObject :=
  match pairs with
  | [] => []
  | (data, a) :: pairs' =>
      IntegrityChain.mkLinkObject (IntegrityChain.compute_data_hash data)
        (IntegrityChain.compute_chain_hash data) IntegrityChain.ROOT_HASH
        IntegrityChain.CID (String.append (clock t) "Z") a
      :: batch_objects clock (S t) pairs'
  end.

(** A clock for the examples: the [t]-th reading is a second later
    than the one before. *)
Definition example_clock (t : nat) : string :=
  String.append "2024-01-01T00:00:0"
    (String (ascii_of_nat (48 + Nat.min t 9)) EmptyString).

(** The log store is consistent: the index counts the sessions it
    lists, one per stored log, and every stored log verifies. *)
Definition log_store_ok (isoformat : Z -> string) (st : LogCapture.t) : Prop :=
  LogCapture.total_logs (LogCapture.index st)
  = len (LogCapture.sessions (LogCapture.index st))
  /\ List.length (LogCapture.sessions (LogCapture.index st))
     = List.length (LogCapture.log_file st)
  /\ forallb (LogCapture.verify_integrity isoformat) (LogCapture.log_file st)
     = true.

(** A stand-in for [isoformat] in the examples: the decimal text of
    the instant. *)
Definition example_isoformat (t : Z) : string := Json.int_repr t.

(** [p k n] for all [0 <= k <= n <= bound]. *)
Definition pairs_upto (p : Z -> Z -> bool) (bound : nat) : bool :=
  forall_upto (S bound) 0
    (fun n => forall_upto (S bound) 0 (fun k => (n <? k)%Z || p k n)).

(** An index that reaches the monitor's HIGH threshold reaches its
    MEDIUM threshold. *)
Definition I_D_alert_ok (k n : Z) : bool :=
  implb (PrimFloat.leb DegradationMonitor.HIGH_THRESHOLD (I_D_of k n))
    (PrimFloat.leb DegradationMonitor.MEDIUM_THRESHOLD (I_D_of k n)).

(** The monitor's counters add up: every interaction monitored is in
    exactly one severity class, and the interventions are the critical
    ones. *)
Definition stats_ok (s : DegradationMonitor.Stats) : Prop :=
  (DegradationMonitor.total_monitored s
   = DegradationMonitor.critical_alerts s + DegradationMonitor.high_alerts s
     + DegradationMonitor.medium_alerts s + DegradationMonitor.low_alerts s
   /\ DegradationMonitor.interventions_detected s
      = DegradationMonitor.critical_alerts s
   /\ 0 <= DegradationMonitor.critical_alerts s
   /\ 0 <= DegradationMonitor.high_alerts s
   /\ 0 <= DegradationMonitor.medium_alerts s
   /\ 0 <= DegradationMonitor.low_alerts s)%Z.

(** The two responses of a log: all that the index reads of it. *)
Definition responses (log : InteractionLog) : string * string :=
  (response_origin log, response_control log).

(** Two monitoring results that differ at most by their session id. *)
Definition same_measure (r r' : MonitoringResult) : Prop :=
  r_timestamp r = r_timestamp r' /\ degradation r = degradation r'
  /\ intervention_detected r = intervention_detected r'
  /\ severity_level r = severity_level r'
  /\ alert_triggered r = alert_triggered r' /\ metrics r = metrics r'.

(** With nothing shared the index is 1, for a non-zero origin. *)
Definition I_D_disjoint_ok (n : Z) : bool :=
  (n =? 0)%Z || PrimFloat.eqb (I_D_of 0 n) 1.

(** An entry of [get_top_features]: a feature name with its weight in
    [vector], the weight being above zero. *)
Definition top_feature_of (names : list string) (vector : list float)
    (p : string * float) : Prop :=
  PrimFloat.ltb 0 (snd p) = true
  /\ exists idx : nat,
       (idx < List.length vector)%nat
       /\ p = (nth idx names EmptyString, nth idx vector 0%float).

(** A prompt that ends with exactly one full stop: stripping the full
    stops and adding one gives the prompt back. *)
Definition ends_with_one_stop (prompt : string) : bool :=
  String.eqb prompt
    (String.append (TruthInvarianceValidator.rstrip "."%char prompt)
       "."%string).

(** The number of distinct prompts among the eight templates. *)
Definition distinct_templates (prompt : string) : Z :=
  if ends_with_one_stop prompt then 7%Z else 8%Z.

(** Every character of a text passes the test [p]. *)
Definition all_chars (p : ascii -> bool) (s : string) : bool :=
  forallb p (list_ascii_of_string s).

(** A token as both tokenizers produce them: two characters or more,
    word characters only, in lower case. *)
Definition clean_token (token : string) : Prop :=
  (2 <= String.length token)%nat
  /\ all_chars is_word_char token = true /\ lower token = token.

(** A JSON value whose strings and keys stay within the code points
    below 127: the two renderings of [json.dumps] coincide on it. *)
Fixpoint json_ascii (j : json) : bool :=
  match j with
  | JStr s => forallb (fun c => (Z.of_N (code c) <? 127)%Z)
                (list_ascii_of_string s)
  | JList items => forallb json_ascii items
  | JDict items =>
      forallb
        (fun kv =>
           forallb (fun c => (Z.of_N (code c) <? 127)%Z)
             (list_ascii_of_string (fst kv))
           && json_ascii (snd kv))
        items
  | _ => true
  end.

(** A chain entry whose expected hash is the hash of its data. *)
Definition entry_ok (entry : HashData * string) : bool :=
  String.eqb (HashValidator.compute_hash (fst entry)) (snd entry).

(** A data item that is an object is an object of heap [h]. *)
Definition object_in (h : IntegrityChain.Heap)
    (data : IntegrityChain.DataObject) : bool :=
  match data with
  | IntegrityChain.Value _ => true
  | IntegrityChain.Object a => (a <? List.length h)%nat
  end.

(** No data item is the metadata dict of a later pair. *)
Fixpoint no_later_alias (pairs : list (IntegrityChain.DataObject * nat))
  : bool :=
  match pairs with
  | [] => true
  | (data, _) :: pairs' =>
      match data with
      | IntegrityChain.Value _ => true
      | IntegrityChain.Object a =>
          negb (existsb (Nat.eqb a) (map snd pairs'))
      end
      && no_later_alias pairs'
  end.

(** The zipped pairs name objects of heap [h], and no data item is the
    metadata dict of a later pair. *)
Definition pairs_separate (h : IntegrityChain.Heap)
    (pairs : list (IntegrityChain.DataObject * nat)) : bool :=
  forallb (fun p => (snd p <? List.length h)%nat && object_in h (fst p)) pairs
  && no_later_alias pairs.

(** The arguments of a batch under which no link's data changes after
    the link has been made. *)
Definition batch_separate (h : IntegrityChain.Heap)
    (data_list : list IntegrityChain.DataObject)
    (metadata_list : option (list nat)) : bool :=
  match metadata_list with
  | None => forallb (object_in h) data_list
  | Some l => pairs_separate h (combine data_list l)
  end.

(* ================================================================== *)
(** * Properties

    The statements below are about the definitions above.  Of the
    vectorizer they use three facts only: it fails exactly when neither
    text has a token, its two rows have the length of the feature list,
    which is at most [max_features], and the row of a text without
    tokens is zero.  The numeric facts on the degradation index are
    checked on binary64 numbers for every pair of counts the 1000
    features allow. *)

(** ** Lists, counts and sorting *)

Lemma forall_upto_spec (fuel : nat) (p : Z -> bool) :
  forall i : Z, forall_upto fuel i p = true ->
  forall j : Z, (i <= j < i + Z.of_nat fuel)%Z -> p j = true.
Proof.
  induction fuel as [|fuel IH]; intros i H j Hj.
  - simpl in Hj. lia.
  - simpl in H. apply andb_true_iff in H. destruct H as [Hi Hrest].
    destruct (Z.eq_dec i j) as [->|Hne]; [exact Hi|].
    apply (IH (Z.succ i) Hrest). lia.
Qed.

Lemma insert_by_length {A : Type} (le : A -> A -> bool) (x : A) (l : list A) :
  List.length (insert_by le x l) = S (List.length l).
Proof.
  induction l as [|y l IH]; simpl; [reflexivity|].
  destruct (le x y); simpl; [reflexivity|now rewrite IH].
Qed.

Lemma sort_by_length {A : Type} (le : A -> A -> bool) (l : list A) :
  List.length (sort_by le l) = List.length l.
Proof.
  unfold sort_by. induction l as [|x l IH]; simpl; [reflexivity|].
  now rewrite insert_by_length, IH.
Qed.

Lemma insert_by_perm {A : Type} (le : A -> A -> bool) (x : A) (l : list A) :
  Permutation (x :: l) (insert_by le x l).
Proof.
  induction l as [|y l IH]; simpl; [reflexivity|].
  destruct (le x y); [reflexivity|].
  rewrite perm_swap. now apply perm_skip.
Qed.

Lemma sort_by_perm {A : Type} (le : A -> A -> bool) (l : list A) :
  Permutation l (sort_by le l).
Proof.
  unfold sort_by. induction l as [|x l IH]; simpl; [constructor|].
  rewrite <- insert_by_perm. now apply perm_skip.
Qed.

Lemma sort_by_nil {A : Type} (le : A -> A -> bool) (l : list A) :
  sort_by le l = [] -> l = [].
Proof.
  intros H. apply Permutation_nil. rewrite <- H. symmetry. apply sort_by_perm.
Qed.

Lemma np_sum_nonneg (mask : list bool) :
  (0 <= SemanticVectorSpace.np_sum mask)%Z.
Proof. unfold SemanticVectorSpace.np_sum, len. lia. Qed.

Lemma np_sum_le_len (mask : list bool) :
  (SemanticVectorSpace.np_sum mask <= len mask)%Z.
Proof.
  unfold SemanticVectorSpace.np_sum, len.
  apply inj_le, filter_length_le.
Qed.

Lemma np_sum_cons (b : bool) (mask : list bool) :
  SemanticVectorSpace.np_sum (b :: mask)
  = ((if b then 1 else 0) + SemanticVectorSpace.np_sum mask)%Z.
Proof.
  unfold SemanticVectorSpace.np_sum, len. destruct b; simpl List.length; lia.
Qed.

(** The intersection mask never counts more than the origin's mask. *)
Lemma np_sum_and_le (mask_a mask_b : list bool) :
  (SemanticVectorSpace.np_sum (SemanticVectorSpace.np_and mask_a mask_b)
   <= SemanticVectorSpace.np_sum mask_a)%Z.
Proof.
  revert mask_b. induction mask_a as [|a mask_a IH]; intros [|b mask_b].
  - cbn. lia.
  - cbn. lia.
  - cbn. apply np_sum_nonneg.
  - unfold SemanticVectorSpace.np_and in *. cbn [combine map fst snd].
    rewrite !np_sum_cons. specialize (IH mask_b).
    destruct a, b; cbn [andb]; lia.
Qed.

Lemma active_length (v : list float) :
  List.length (SemanticVectorSpace.active v) = List.length v.
Proof. apply length_map. Qed.

(** ** The vectorizer: shape of the result *)

Lemma limit_features_length (limit : nat) (vocab : list string)
    (tfs : list nat) :
  (List.length (Tfidf.limit_features limit vocab tfs) <= limit)%nat.
Proof.
  unfold Tfidf.limit_features.
  destruct (Nat.leb_spec (List.length vocab) limit) as [Hle|Hgt];
    [exact Hle|].
  rewrite length_map, sort_by_length. apply firstn_le_length.
Qed.

Lemma normalize_length (row : list float) :
  List.length (Tfidf.normalize row) = List.length row.
Proof.
  unfold Tfidf.normalize.
  destruct (PrimFloat.eqb _ _); [reflexivity|apply length_map].
Qed.

Lemma row_length (features terms_a terms_b terms : list string) :
  List.length (Tfidf.row features terms_a terms_b terms)
  = List.length features.
Proof. unfold Tfidf.row. now rewrite normalize_length, length_map. Qed.

Lemma Tfidf_fit_transform_shape (max_features : nat) (a b : string)
    (v_o v_c : list float) (names : list string) :
  Tfidf.fit_transform max_features a b = Ok (v_o, v_c, names) ->
  List.length v_o = List.length names /\ List.length v_c = List.length names
  /\ (List.length names <= max_features)%nat.
Proof.
  unfold Tfidf.fit_transform.
  destruct (Tfidf.vocabulary _ _) as [|t vocab] eqn:Hv; [discriminate|].
  intros H. injection H as <- <- <-.
  rewrite !row_length. repeat split. apply limit_features_length.
Qed.

(** ** The degradation index in binary64 *)

Lemma I_D_ok_1000 : I_D_ok_upto 1000 = true.
Proof. vm_compute. reflexivity. Qed.

Lemma I_D_ok_upto_spec (bound : nat) :
  I_D_ok_upto bound = true ->
  forall k n : Z, (0 <= k <= n)%Z -> (n <= Z.of_nat bound)%Z ->
  I_D_ok k n = true.
Proof.
  unfold I_D_ok_upto. intros H k n Hk Hn.
  pose proof (forall_upto_spec _ _ 0%Z H n ltac:(lia)) as Hrow.
  cbv beta in Hrow.
  pose proof (forall_upto_spec _ _ 0%Z Hrow k ltac:(lia)) as Hcell.
  cbv beta in Hcell. apply orb_true_iff in Hcell.
  destruct Hcell as [Hlt|Hok]; [|exact Hok].
  apply Z.ltb_lt in Hlt. lia.
Qed.

(** For counts within the vectorizer's 1000 features, the binary64
    index agrees with exact arithmetic on every comparison made. *)
Lemma I_D_ok_small (k n : Z) :
  (0 <= k <= n)%Z -> (n <= 1000)%Z -> I_D_ok k n = true.
Proof.
  intros Hk Hn. apply (I_D_ok_upto_spec 1000 I_D_ok_1000); [exact Hk|].
  change (Z.of_nat 1000) with 1000%Z. exact Hn.
Qed.

(** What a returned [DegradationResult] is made of. *)
Lemma calculate_Ok (text_origin text_control : string) (r : DegradationResult) :
  DegradationIndexCalculator.calculate text_origin text_control = Ok r ->
  (0 <= dim_intersection r <= dim_V_O r)%Z /\ (dim_V_O r <= 1000)%Z
  /\ I_D r = I_D_of (dim_intersection r) (dim_V_O r)
  /\ (status r, interference_detected r) = status_of (I_D r).
Proof.
  unfold DegradationIndexCalculator.calculate,
    SemanticVectorSpace.fit_transform, SemanticVectorSpace.default,
    SemanticVectorSpace.init, bind.
  cbn [SemanticVectorSpace.max_features].
  destruct (Tfidf.fit_transform 1000 text_origin text_control)
    as [[[v_o v_c] names]|e] eqn:Hfit; [|discriminate].
  apply Tfidf_fit_transform_shape in Hfit. destruct Hfit as (Ho & Hc & Hn).
  cbn [SemanticVectorSpace.dimensionality_intersection
         SemanticVectorSpace.V_O SemanticVectorSpace.V_C
         SemanticVectorSpace.dim_V_O SemanticVectorSpace.dim_V_C
         SemanticVectorSpace.dim_intersection].
  set (dim_O := SemanticVectorSpace.np_sum (SemanticVectorSpace.active v_o)).
  set (dim_I := SemanticVectorSpace.np_sum
                  (SemanticVectorSpace.np_and (SemanticVectorSpace.active v_o)
                     (SemanticVectorSpace.active v_c))).
  assert (HI : (0 <= dim_I <= dim_O)%Z)
    by (split; [apply np_sum_nonneg|apply np_sum_and_le]).
  assert (HO : (dim_O <= 1000)%Z).
  { pose proof (np_sum_le_len (SemanticVectorSpace.active v_o)) as H.
    unfold len in H. rewrite active_length in H. fold dim_O in H. lia. }
  assert (Hid : forall p : float * float,
             p = (if (dim_O =? 0)%Z then (0%float, 0%float)
                  else (PrimFloat.sub 1 (truediv dim_I dim_O),
                        truediv dim_I dim_O)) ->
             fst p = I_D_of dim_I dim_O).
  { intros p ->. unfold I_D_of. now destruct (dim_O =? 0)%Z. }
  specialize (Hid _ eq_refl).
  destruct (if (dim_O =? 0)%Z then _ else _) as [i o]. cbn [fst] in Hid.
  subst i.
  fold (status_of (I_D_of dim_I dim_O)).
  destruct (status_of (I_D_of dim_I dim_O)) as [s f] eqn:Hs.
  intros H. injection H as <-. cbn. rewrite Hs. auto.
Qed.

Lemma I_D_facts (k n : Z) :
  (0 <= k <= n)%Z -> (n <= 1000)%Z ->
  let i := I_D_of k n in
  PrimFloat.leb 0 i = true /\ PrimFloat.leb i 1 = true
  /\ PrimFloat.eqb i 0 = (k =? n)%Z
  /\ PrimFloat.leb DegradationIndexCalculator.CRITICAL_THRESHOLD i
     = (negb (n =? 0)%Z && (2 * n <=? 5 * (n - k))%Z)
  /\ PrimFloat.leb DegradationIndexCalculator.HIGH_THRESHOLD i
     = (negb (n =? 0)%Z && (n <=? 4 * (n - k))%Z)
  /\ PrimFloat.ltb i DegradationIndexCalculator.CRITICAL_THRESHOLD
     = negb (PrimFloat.leb DegradationIndexCalculator.CRITICAL_THRESHOLD i)
  /\ PrimFloat.ltb i DegradationIndexCalculator.HIGH_THRESHOLD
     = negb (PrimFloat.leb DegradationIndexCalculator.HIGH_THRESHOLD i).
Proof.
  intros Hk Hn i. pose proof (I_D_ok_small k n Hk Hn) as H.
  unfold I_D_ok in H. fold i in H.
  repeat (apply andb_true_iff in H; destruct H as [H ?]).
  repeat match goal with
         | E : Bool.eqb _ _ = true |- _ => apply Bool.eqb_prop in E
         end.
  repeat split; assumption.
Qed.

(** Critical implies high: the two thresholds are nested. *)
Lemma critical_implies_high (k n : Z) :
  (0 <= k <= n)%Z -> (n <= 1000)%Z ->
  PrimFloat.leb DegradationIndexCalculator.CRITICAL_THRESHOLD (I_D_of k n)
  = true ->
  PrimFloat.leb DegradationIndexCalculator.HIGH_THRESHOLD (I_D_of k n) = true.
Proof.
  intros Hk Hn. destruct (I_D_facts k n Hk Hn) as (_ & _ & _ & Hc & Hh & _).
  rewrite Hc, Hh. intros H. apply andb_true_iff in H. destruct H as [H0 H].
  apply andb_true_iff. split; [exact H0|].
  apply Z.leb_le in H. apply Z.leb_le. lia.
Qed.

(** ** C2, C3, C10: the result of [calculate] *)

(** C2.  For every pair of texts on which [calculate] returns, the
    index lies in [0, 1], it compares equal to zero exactly when the
    intersection count equals the origin's dimension, and the
    intersection count never exceeds the origin's dimension.  The
    comparisons are Python's, on binary64 numbers. *)
Theorem degradation_index_range
    (text_origin text_control : string) (r : DegradationResult) :
  DegradationIndexCalculator.calculate text_origin text_control = Ok r ->
  PrimFloat.leb 0 (I_D r) = true /\ PrimFloat.leb (I_D r) 1 = true
  /\ (PrimFloat.eqb (I_D r) 0 = true <-> dim_intersection r = dim_V_O r)
  /\ (dim_intersection r <= dim_V_O r)%Z.
Proof.
  intros H. apply calculate_Ok in H. destruct H as (Hk & Hn & Hid & _).
  destruct (I_D_facts _ _ Hk Hn) as (H0 & H1 & Hz & _).
  rewrite Hid. repeat split; try assumption; try lia.
  - rewrite Hz. apply Z.eqb_eq.
  - rewrite Hz. apply Z.eqb_eq.
Qed.

Lemma degradation_index_range_witness :
  DegradationIndexCalculator.calculate "hello world hello" "world peace"
  = Ok example_result
  /\ PrimFloat.leb 0 (I_D example_result) = true
  /\ PrimFloat.leb (I_D example_result) 1 = true
  /\ (PrimFloat.eqb (I_D example_result) 0 = true <->
      dim_intersection example_result = dim_V_O example_result)
  /\ (dim_intersection example_result <= dim_V_O example_result)%Z.
Proof.
  split; [vm_compute; reflexivity|].
  apply (degradation_index_range "hello world hello" "world peace").
  vm_compute. reflexivity.
Defined.

(** C3.  The status of a returned result is a function of the index
    alone, fixed by the two thresholds: critical from 0.40 upwards,
    high from 0.25 up to 0.40, stable below 0.25.  One of the three
    cases always applies, so no other status occurs. *)
Theorem status_by_thresholds
    (text_origin text_control : string) (r : DegradationResult) :
  DegradationIndexCalculator.calculate text_origin text_control = Ok r ->
  status r = fst (status_of (I_D r))
  /\ (PrimFloat.leb 0.4 (I_D r) = true ->
      status r = "INTERFERENCIA_CRITICA"%string)
  /\ (PrimFloat.leb 0.25 (I_D r) = true -> PrimFloat.ltb (I_D r) 0.4 = true ->
      status r = "INTERFERENCIA_ALTA"%string)
  /\ (PrimFloat.ltb (I_D r) 0.25 = true -> status r = "ESTABLE"%string)
  /\ (PrimFloat.leb 0.4 (I_D r) = true
      \/ (PrimFloat.leb 0.25 (I_D r) = true
          /\ PrimFloat.ltb (I_D r) 0.4 = true)
      \/ PrimFloat.ltb (I_D r) 0.25 = true).
Proof.
  intros H. apply calculate_Ok in H. destruct H as (Hk & Hn & Hid & Hs).
  destruct (I_D_facts _ _ Hk Hn) as (_ & _ & _ & _ & _ & Hlc & Hlh).
  rewrite <- Hid in Hlc, Hlh.
  change DegradationIndexCalculator.CRITICAL_THRESHOLD with 0.4%float in Hlc.
  change DegradationIndexCalculator.HIGH_THRESHOLD with 0.25%float in Hlh.
  assert (Hst : status r = fst (status_of (I_D r))) by now rewrite <- Hs.
  split; [exact Hst|]. rewrite Hst. unfold status_of.
  change DegradationIndexCalculator.CRITICAL_THRESHOLD with 0.4%float.
  change DegradationIndexCalculator.HIGH_THRESHOLD with 0.25%float.
  rewrite Hlc, Hlh.
  pose proof (critical_implies_high _ _ Hk Hn) as Hch. rewrite <- Hid in Hch.
  change DegradationIndexCalculator.CRITICAL_THRESHOLD with 0.4%float in Hch.
  change DegradationIndexCalculator.HIGH_THRESHOLD with 0.25%float in Hch.
  destruct (PrimFloat.leb 0.4 (I_D r)) eqn:Hc.
  - rewrite (Hch eq_refl). cbn.
    repeat split; intros; try discriminate; try reflexivity; auto.
  - destruct (PrimFloat.leb 0.25 (I_D r)); cbn;
      repeat split; intros; try discriminate; try reflexivity; auto.
Qed.

Lemma status_by_thresholds_witness :
  DegradationIndexCalculator.calculate "hello world hello" "world peace"
  = Ok example_result
  /\ status example_result = fst (status_of (I_D example_result))
  /\ (PrimFloat.leb 0.4 (I_D example_result) = true ->
      status example_result = "INTERFERENCIA_CRITICA"%string)
  /\ (PrimFloat.leb 0.25 (I_D example_result) = true ->
      PrimFloat.ltb (I_D example_result) 0.4 = true ->
      status example_result = "INTERFERENCIA_ALTA"%string)
  /\ (PrimFloat.ltb (I_D example_result) 0.25 = true ->
      status example_result = "ESTABLE"%string)
  /\ (PrimFloat.leb 0.4 (I_D example_result) = true
      \/ (PrimFloat.leb 0.25 (I_D example_result) = true
          /\ PrimFloat.ltb (I_D example_result) 0.4 = true)
      \/ PrimFloat.ltb (I_D example_result) 0.25 = true).
Proof.
  split; [vm_compute; reflexivity|].
  apply (status_by_thresholds "hello world hello" "world peace").
  vm_compute. reflexivity.
Defined.

(** C10.  In a returned result the flag [interference_detected] is set
    exactly when the index is at least 0.25, which is exactly when the
    status is not the stable one. *)
Theorem interference_flag_consistent
    (text_origin text_control : string) (r : DegradationResult) :
  DegradationIndexCalculator.calculate text_origin text_control = Ok r ->
  (interference_detected r = true <-> PrimFloat.leb 0.25 (I_D r) = true)
  /\ (interference_detected r = true <-> status r <> "ESTABLE"%string).
Proof.
  intros H. apply calculate_Ok in H. destruct H as (Hk & Hn & Hid & Hs).
  pose proof (critical_implies_high _ _ Hk Hn) as Hch. rewrite <- Hid in Hch.
  change DegradationIndexCalculator.CRITICAL_THRESHOLD with 0.4%float in Hch.
  change DegradationIndexCalculator.HIGH_THRESHOLD with 0.25%float in Hch.
  assert (Hst : status r = fst (status_of (I_D r))) by now rewrite <- Hs.
  assert (Hfl : interference_detected r = snd (status_of (I_D r)))
    by now rewrite <- Hs.
  rewrite Hst, Hfl. unfold status_of.
  change DegradationIndexCalculator.CRITICAL_THRESHOLD with 0.4%float.
  change DegradationIndexCalculator.HIGH_THRESHOLD with 0.25%float.
  destruct (PrimFloat.leb 0.4 (I_D r)) eqn:Hc.
  - rewrite (Hch eq_refl). cbn. repeat split; intros; congruence.
  - destruct (PrimFloat.leb 0.25 (I_D r)); cbn;
      repeat split; intros; congruence.
Qed.

Lemma interference_flag_consistent_witness :
  DegradationIndexCalculator.calculate "hello world hello" "world peace"
  = Ok example_result
  /\ (interference_detected example_result = true <->
      PrimFloat.leb 0.25 (I_D example_result) = true)
  /\ (interference_detected example_result = true <->
      status example_result <> "ESTABLE"%string).
Proof.
  split; [vm_compute; reflexivity|].
  apply (interference_flag_consistent "hello world hello" "world peace").
  vm_compute. reflexivity.
Defined.

(** The same thresholds in exact arithmetic on the two counts: the
    status is critical when the origin loses at least two fifths of its
    dimensions, and stable when it loses less than a quarter (or has
    none).  Rounding in binary64 never moves a result across a
    threshold. *)
Lemma status_exact
    (text_origin text_control : string) (r : DegradationResult) :
  DegradationIndexCalculator.calculate text_origin text_control = Ok r ->
  (status r = "INTERFERENCIA_CRITICA"%string
   <-> (dim_V_O r <> 0
        /\ 2 * dim_V_O r <= 5 * (dim_V_O r - dim_intersection r))%Z)
  /\ (status r = "ESTABLE"%string
      <-> (dim_V_O r = 0
           \/ 4 * (dim_V_O r - dim_intersection r) < dim_V_O r)%Z).
Proof.
  intros H. apply calculate_Ok in H. destruct H as (Hk & Hn & Hid & Hs).
  destruct (I_D_facts _ _ Hk Hn) as (_ & _ & _ & Hc & Hh & _).
  rewrite <- Hid in Hc, Hh.
  assert (Hst : status r = fst (status_of (I_D r))) by now rewrite <- Hs.
  rewrite Hst. unfold status_of. rewrite Hc, Hh.
  destruct (Z.eqb_spec (dim_V_O r) 0) as [H0|H0]; cbn [negb andb].
  - cbn [fst]. split; split; intros; try discriminate; try tauto; try lia.
  - destruct (Z.leb_spec (2 * dim_V_O r)
                (5 * (dim_V_O r - dim_intersection r))) as [Hc'|Hc'];
      destruct (Z.leb_spec (dim_V_O r)
                  (4 * (dim_V_O r - dim_intersection r))) as [Hh'|Hh'];
      cbn [fst]; split; split; intros; try discriminate; try reflexivity;
      try lia; try tauto.
Qed.

(** ** C1: texts without tokens *)

Lemma tokenless_analyze (text : string) :
  tokenless text -> Tfidf.analyze text = [].
Proof. unfold tokenless, Tfidf.analyze. now intros ->. Qed.

Lemma analyze_nil_tokenless (text : string) :
  Tfidf.analyze text = [] -> tokenless text.
Proof.
  unfold tokenless, Tfidf.analyze, Tfidf.word_ngrams. intros H.
  now apply app_eq_nil in H.
Qed.

Lemma vocabulary_nil (terms_a terms_b : list string) :
  Tfidf.vocabulary terms_a terms_b = [] -> terms_a = [] /\ terms_b = [].
Proof.
  unfold Tfidf.vocabulary. intros H. apply sort_by_nil in H.
  apply app_eq_nil.
  destruct (terms_a ++ terms_b) as [|t l]; [reflexivity|].
  assert (Hin : In t (nodup string_dec (t :: l)))
    by (apply nodup_In; now left).
  rewrite H in Hin. destruct Hin.
Qed.

(** The vectorizer fails exactly on a pair of texts without tokens. *)
Lemma Tfidf_fit_transform_raises (max_features : nat) (a b : string) :
  (exists e, Tfidf.fit_transform max_features a b = Raise e)
  <-> tokenless a /\ tokenless b.
Proof.
  unfold Tfidf.fit_transform. split.
  - intros [e H].
    destruct (Tfidf.vocabulary _ _) eqn:Hv; [|discriminate].
    apply vocabulary_nil in Hv. destruct Hv as [Ha Hb].
    split; now apply analyze_nil_tokenless.
  - intros [Ha Hb]. rewrite (tokenless_analyze a Ha), (tokenless_analyze b Hb).
    eexists. reflexivity.
Qed.

(** C1.  On two texts without a token of two characters or more,
    [calculate] raises the vectorizer's [ValueError]: the branch for
    [dim_O == 0] is not reached and no result is returned. *)
Theorem calculate_raises_without_tokens (text_origin text_control : string) :
  tokenless text_origin -> tokenless text_control ->
  DegradationIndexCalculator.calculate text_origin text_control
  = Raise (ValueError
      "empty vocabulary; perhaps the documents only contain stop words").
Proof.
  intros Ha Hb.
  unfold DegradationIndexCalculator.calculate,
    SemanticVectorSpace.fit_transform, Tfidf.fit_transform.
  rewrite (tokenless_analyze _ Ha), (tokenless_analyze _ Hb). reflexivity.
Qed.

Lemma calculate_raises_without_tokens_witness :
  tokenless "" /\ tokenless ""
  /\ DegradationIndexCalculator.calculate "" ""
     = Raise (ValueError
         "empty vocabulary; perhaps the documents only contain stop words").
Proof.
  split; [reflexivity|]. split; [reflexivity|].
  apply (calculate_raises_without_tokens "" ""); reflexivity.
Defined.

(** The same holds for texts that are not empty: single letters and
    punctuation give no token. *)
Example calculate_raises_on_single_letters :
  DegradationIndexCalculator.calculate "a b c" "?!"
  = Raise (ValueError
      "empty vocabulary; perhaps the documents only contain stop words").
Proof. reflexivity. Qed.

Lemma zero_weight (df : nat) :
  PrimFloat.mul (float_of_Z (Z.of_nat 0)) (Tfidf.idf df) = 0%float.
Proof. unfold Tfidf.idf. destruct (2 <=? df)%nat; reflexivity. Qed.

Lemma squares_of_zeros {A : Type} (l : list A) :
  fold_left (fun acc w => PrimFloat.add acc (PrimFloat.mul w w))
    (map (fun _ : A => 0%float) l) 0%float = 0%float.
Proof. induction l as [|x l IH]; [reflexivity|exact IH]. Qed.

(** The row of a text without tokens is zero in every component. *)
Lemma row_of_tokenless (features terms_b : list string) :
  Tfidf.row features [] terms_b [] = map (fun _ => 0%float) features.
Proof.
  unfold Tfidf.row.
  replace (map _ features) with (map (fun _ : string => 0%float) features).
  - unfold Tfidf.normalize. now rewrite squares_of_zeros.
  - apply map_ext. intros t. cbn [Tfidf.tf count_occ]. now rewrite zero_weight.
Qed.

Lemma np_sum_active_zeros {A : Type} (l : list A) :
  SemanticVectorSpace.np_sum
    (SemanticVectorSpace.active (map (fun _ : A => 0%float) l)) = 0%Z.
Proof.
  induction l as [|x l IH]; [reflexivity|].
  cbn [map SemanticVectorSpace.active]. rewrite np_sum_cons.
  unfold SemanticVectorSpace.active in IH. rewrite IH. reflexivity.
Qed.

(** [calculate] returns whenever the vectorizer does, and passes its
    exception on otherwise. *)
Lemma calculate_follows_vectorizer (text_origin text_control : string) :
  match Tfidf.fit_transform 1000 text_origin text_control with
  | Ok _ =>
      exists r,
        DegradationIndexCalculator.calculate text_origin text_control = Ok r
  | Raise e =>
      DegradationIndexCalculator.calculate text_origin text_control = Raise e
  end.
Proof.
  unfold DegradationIndexCalculator.calculate,
    SemanticVectorSpace.fit_transform, bind.
  cbn [SemanticVectorSpace.default SemanticVectorSpace.init
         SemanticVectorSpace.max_features].
  destruct (Tfidf.fit_transform 1000 text_origin text_control)
    as [[[v_o v_c] names]|e]; [|reflexivity].
  cbn [SemanticVectorSpace.dimensionality_intersection
         SemanticVectorSpace.V_O SemanticVectorSpace.V_C
         SemanticVectorSpace.dim_V_O SemanticVectorSpace.dim_V_C
         SemanticVectorSpace.dim_intersection].
  destruct (_ =? 0)%Z; cbv beta iota zeta;
    repeat match goal with
           | |- context [if ?c then _ else _] => destruct c
           end;
    eexists; reflexivity.
Qed.

(** [calculate] returns exactly on the pairs with a token somewhere. *)
Lemma calculate_returns_iff (text_origin text_control : string) :
  (exists r,
     DegradationIndexCalculator.calculate text_origin text_control = Ok r)
  <-> ~ (tokenless text_origin /\ tokenless text_control).
Proof.
  rewrite <- (Tfidf_fit_transform_raises 1000).
  pose proof (calculate_follows_vectorizer text_origin text_control) as H.
  destruct (Tfidf.fit_transform 1000 text_origin text_control) as [x|e].
  - split; [intros _ [e He]; discriminate|intros _; exact H].
  - split; [intros [r Hr]; congruence|intros Hn; exfalso; apply Hn; eauto].
Qed.

(** When only the origin has no token, the vocabulary is the control's
    and the branch [dim_O == 0] yields the neutral result. *)
Lemma calculate_tokenless_origin (text_origin text_control : string) :
  tokenless text_origin -> ~ tokenless text_control ->
  exists r,
    DegradationIndexCalculator.calculate text_origin text_control = Ok r
    /\ I_D r = 0%float /\ dim_V_O r = 0%Z /\ dim_intersection r = 0%Z
    /\ status r = "ESTABLE"%string /\ interference_detected r = false.
Proof.
  intros Ha Hb.
  destruct (DegradationIndexCalculator.calculate text_origin text_control)
    as [r|e] eqn:Hcalc.
  - exists r. split; [reflexivity|].
    pose proof (calculate_Ok _ _ _ Hcalc) as (Hk & _ & Hid & Hs).
    assert (HO : dim_V_O r = 0%Z).
    { revert Hcalc.
      unfold DegradationIndexCalculator.calculate,
        SemanticVectorSpace.fit_transform, Tfidf.fit_transform, bind.
      rewrite (tokenless_analyze _ Ha).
      destruct (Tfidf.vocabulary _ _) as [|t vocab]; [discriminate|].
      rewrite row_of_tokenless.
      cbn [SemanticVectorSpace.dimensionality_intersection
             SemanticVectorSpace.V_O SemanticVectorSpace.V_C
             SemanticVectorSpace.dim_V_O].
      rewrite np_sum_active_zeros. cbn. intros [= <-]. reflexivity. }
    assert (HI : dim_intersection r = 0%Z) by lia.
    rewrite HO, HI in Hid. cbn in Hid. rewrite Hid in Hs. cbn in Hs.
    injection Hs as Hs Hf. auto.
  - exfalso. apply Hb.
    apply (Tfidf_fit_transform_raises 1000 text_origin text_control).
    pose proof (calculate_follows_vectorizer text_origin text_control) as H.
    destruct (Tfidf.fit_transform 1000 text_origin text_control) as [x|e'].
    + destruct H as [r H]. congruence.
    + eauto.
Qed.

(** ** C6: metrics before [fit_transform] *)

(** C6.  On a freshly constructed [SemanticVectorSpace], whatever its
    [max_features], each of the five metric operations raises the
    [ValueError] that reports uninitialised vectors, and returns no
    value. *)
Theorem metrics_raise_before_fit_transform
    (max_features : nat) (log : float -> float) :
  SemanticVectorSpace.cosine_distance (SemanticVectorSpace.init max_features)
  = Raise (ValueError
      "Vectores no inicializados. Ejecutar fit_transform primero.")
  /\ SemanticVectorSpace.cosine_similarity_score
       (SemanticVectorSpace.init max_features)
     = Raise (ValueError "Vectores no inicializados.")
  /\ SemanticVectorSpace.kl_divergence log
       (SemanticVectorSpace.init max_features)
     = Raise (ValueError "Vectores no inicializados.")
  /\ SemanticVectorSpace.dimensionality_intersection
       (SemanticVectorSpace.init max_features)
     = Raise (ValueError "Vectores no inicializados.")
  /\ SemanticVectorSpace.analyze_semantic_overlap log
       (SemanticVectorSpace.init max_features)
     = Raise (ValueError "Vectores no inicializados.").
Proof. repeat split. Qed.

(** Conversely, once [fit_transform] has returned, the guard of every
    metric passes. *)
Lemma metrics_return_after_fit_transform
    (self self' : SemanticVectorSpace.t) (a b : string)
    (vectors : list float * list float) (log : float -> float) :
  SemanticVectorSpace.fit_transform self a b = Ok (self', vectors) ->
  (exists d, SemanticVectorSpace.cosine_distance self' = Ok d)
  /\ (exists c, SemanticVectorSpace.cosine_similarity_score self' = Ok c)
  /\ (exists k, SemanticVectorSpace.kl_divergence log self' = Ok k)
  /\ (exists dims,
        SemanticVectorSpace.dimensionality_intersection self' = Ok dims)
  /\ (exists o, SemanticVectorSpace.analyze_semantic_overlap log self' = Ok o).
Proof.
  unfold SemanticVectorSpace.fit_transform, bind.
  destruct (Tfidf.fit_transform _ a b) as [[[v_o v_c] names]|e];
    [|discriminate].
  intros [= <- <-]. repeat split; eexists; reflexivity.
Qed.

(** ** C9: verification; C5: the aggregate root under a swap *)

(** C9.  [verify_link] reads the link's two hashes and two anchors
    only: two links that agree on them get the same verdict on the
    same data, whatever their timestamps and metadata; in particular
    replacing the timestamp and the metadata of a link never changes
    the verdict. *)
Theorem verify_link_ignores_timestamp_and_metadata
    (data : PyData) (l1 l2 : IntegrityLink) :
  data_hash l1 = data_hash l2 -> chain_hash l1 = chain_hash l2 ->
  root_hash l1 = root_hash l2 -> cid l1 = cid l2 ->
  IntegrityChain.verify_link data l1 = IntegrityChain.verify_link data l2
  /\ forall (timestamp' : string) (metadata' : Dict),
       IntegrityChain.verify_link data
         (mkIntegrityLink (data_hash l1) (chain_hash l1) (root_hash l1)
            (cid l1) timestamp' metadata')
       = IntegrityChain.verify_link data l2.
Proof.
  intros Hd Hc Hr Hi. unfold IntegrityChain.verify_link.
  cbn [data_hash chain_hash root_hash cid]. rewrite Hd, Hc, Hr, Hi.
  split; reflexivity.
Qed.

Lemma verify_link_ignores_timestamp_and_metadata_witness :
  data_hash link_a = data_hash link_b /\ chain_hash link_a = chain_hash link_b
  /\ root_hash link_a = root_hash link_b /\ cid link_a = cid link_b
  /\ timestamp link_a <> timestamp link_b
  /\ metadata link_a <> metadata link_b
  /\ IntegrityChain.verify_link (PyStr "evidence") link_a
     = IntegrityChain.verify_link (PyStr "evidence") link_b
  /\ forall (timestamp' : string) (metadata' : Dict),
       IntegrityChain.verify_link (PyStr "evidence")
         (mkIntegrityLink (data_hash link_a) (chain_hash link_a)
            (root_hash link_a) (cid link_a) timestamp' metadata')
       = IntegrityChain.verify_link (PyStr "evidence") link_b.
Proof.
  split; [vm_compute; reflexivity|]. split; [vm_compute; reflexivity|].
  split; [vm_compute; reflexivity|]. split; [vm_compute; reflexivity|].
  split; [vm_compute; discriminate|]. split; [vm_compute; discriminate|].
  apply verify_link_ignores_timestamp_and_metadata; vm_compute; reflexivity.
Defined.

(** C5 fails as stated: two links made from the same data at different
    moments are different links with the same [chain_hash], and
    exchanging them leaves the root unchanged. *)
Lemma merkle_root_unchanged_by_swap :
  Permutation [link_a; link_b] [link_b; link_a]
  /\ [link_a; link_b] <> [link_b; link_a]
  /\ IntegrityChain.create_merkle_root [link_a; link_b]
     = IntegrityChain.create_merkle_root [link_b; link_a].
Proof.
  split; [apply perm_swap|]. split; [vm_compute; discriminate|].
  vm_compute. reflexivity.
Qed.

Lemma round_length (s : list Z) (kw : Z * Z) :
  List.length s = 8%nat -> List.length (SHA256.round s kw) = 8%nat.
Proof.
  intros H. do 9 (destruct s as [|? s]; try discriminate). reflexivity.
Qed.

Lemma rounds_length (kws : list (Z * Z)) :
  forall s, List.length s = 8%nat ->
  List.length (fold_left SHA256.round kws s) = 8%nat.
Proof.
  induction kws as [|kw kws IH]; intros s H; [exact H|].
  apply IH, round_length, H.
Qed.

Lemma compress_length (h block : list Z) :
  List.length h = 8%nat -> List.length (SHA256.compress h block) = 8%nat.
Proof.
  intros H. unfold SHA256.compress.
  rewrite length_map, length_combine, rounds_length, H by exact H.
  reflexivity.
Qed.

Lemma digest_length (msg : list Z) : List.length (SHA256.digest msg) = 8%nat.
Proof.
  unfold SHA256.digest.
  generalize (SHA256.blocks (List.length (SHA256.words (SHA256.pad msg)))
                (SHA256.words (SHA256.pad msg))).
  assert (H0 : List.length SHA256.H0 = 8%nat) by reflexivity.
  revert H0. generalize SHA256.H0.
  intros h Hh bs. revert h Hh.
  induction bs as [|b bs IH]; intros h Hh; [exact Hh|].
  apply IH, compress_length, Hh.
Qed.

Lemma append_length (s1 s2 : string) :
  String.length (String.append s1 s2)
  = (String.length s1 + String.length s2)%nat.
Proof. induction s1 as [|c s1 IH]; cbn; [reflexivity|now rewrite IH]. Qed.

Lemma append_empty_r (s : string) : String.append s EmptyString = s.
Proof. induction s as [|c s IH]; cbn; [reflexivity|now rewrite IH]. Qed.

Lemma concat_cons (x : string) (l : list string) :
  String.concat EmptyString (x :: l)
  = String.append x (String.concat EmptyString l).
Proof.
  destruct l as [|y l]; cbn [String.concat].
  - now rewrite append_empty_r.
  - reflexivity.
Qed.

(** Two strings of one length that start equal concatenations are
    equal, and so are the remainders. *)
Lemma append_inj (a b x y : string) :
  String.length a = String.length b ->
  String.append a x = String.append b y -> a = b /\ x = y.
Proof.
  revert b. induction a as [|c a IH]; intros [|d b] Hlen H;
    try discriminate.
  - now split.
  - cbn in H. injection H as -> H. injection Hlen as Hlen.
    destruct (IH b Hlen H) as [-> ->]. now split.
Qed.

(** Blocks of one positive width can be read back from their
    concatenation. *)
Lemma concat_blocks_inj (width : nat) (l1 l2 : list string) :
  (0 < width)%nat ->
  Forall (fun s => String.length s = width) l1 ->
  Forall (fun s => String.length s = width) l2 ->
  String.concat EmptyString l1 = String.concat EmptyString l2 -> l1 = l2.
Proof.
  intros Hw H1. revert l2.
  induction H1 as [|x l1 Hx H1 IH]; intros l2 H2 H.
  - destruct H2 as [|y l2 Hy H2]; [reflexivity|].
    rewrite concat_cons in H. cbn in H.
    apply (f_equal String.length) in H. rewrite append_length in H.
    cbn in H. lia.
  - destruct H2 as [|y l2 Hy H2].
    + rewrite concat_cons in H. cbn in H.
      apply (f_equal String.length) in H. rewrite append_length in H.
      cbn in H. lia.
    + rewrite !concat_cons in H.
      apply append_inj in H; [|congruence].
      destruct H as [-> H]. now rewrite (IH l2 H2 H).
Qed.

Lemma concat_hex_length (ws : list Z) :
  String.length (String.concat EmptyString (map SHA256.hex_word ws))
  = (8 * List.length ws)%nat.
Proof.
  induction ws as [|w ws IH]; [reflexivity|].
  cbn [map]. rewrite concat_cons, append_length, IH.
  cbn [List.length]. cbn. lia.
Qed.

(** A digest is printed on 64 characters. *)
Lemma sha256_hex_length (s : string) : String.length (sha256_hex s) = 64%nat.
Proof.
  unfold sha256_hex, SHA256.hexdigest.
  now rewrite concat_hex_length, digest_length.
Qed.

(** ** Sorting by key *)

Section InsertionSort.

Variable A : Type.
Variable le : A -> A -> bool.
Hypothesis le_total : forall x y, le x y = true \/ le y x = true.
Hypothesis le_trans :
  forall x y z, le x y = true -> le y z = true -> le x z = true.

Let R (x y : A) : Prop := le x y = true.

Lemma insert_by_sorted (x : A) (l : list A) :
  StronglySorted R l -> StronglySorted R (insert_by le x l).
Proof.
  induction 1 as [|y l Hl IH Hy]; cbn.
  - repeat constructor.
  - destruct (le x y) eqn:Hxy.
    + constructor; [now constructor|]. constructor; [exact Hxy|].
      eapply Forall_impl; [|exact Hy]. intros z Hz. exact (le_trans _ _ _ Hxy Hz).
    + constructor; [exact IH|].
      assert (Hyx : R y x) by (destruct (le_total x y); [congruence|assumption]).
      eapply Permutation_Forall; [apply insert_by_perm|].
      now constructor.
Qed.

Lemma sort_by_sorted (l : list A) : StronglySorted R (sort_by le l).
Proof.
  unfold sort_by. induction l as [|x l IH]; cbn; [constructor|].
  now apply insert_by_sorted.
Qed.

(** A sorted list is determined by its elements, when no two of them
    are equivalent for the order. *)
Lemma sorted_perm_unique (l1 : list A) :
  forall l2 : list A,
  StronglySorted R l1 -> StronglySorted R l2 -> Permutation l1 l2 ->
  (forall x y, In x l1 -> In y l1 -> R x y -> R y x -> x = y) ->
  l1 = l2.
Proof.
  induction l1 as [|a l1 IH]; intros l2 H1 H2 Hp Hanti.
  - now apply Permutation_nil in Hp.
  - destruct l2 as [|b l2];
      [apply Permutation_sym, Permutation_nil in Hp; discriminate|].
    apply StronglySorted_inv in H1, H2.
    destruct H1 as [H1 Ha], H2 as [H2 Hb].
    assert (Hab : a = b).
    { assert (Hina : In a (b :: l2))
        by (eapply Permutation_in; [exact Hp|now left]).
      assert (Hinb : In b (a :: l1))
        by (eapply Permutation_in; [symmetry; exact Hp|now left]).
      destruct Hina as [->|Hina]; [reflexivity|].
      destruct Hinb as [->|Hinb]; [reflexivity|].
      apply Hanti; [now left|now right| |].
      - rewrite Forall_forall in Ha. now apply Ha.
      - rewrite Forall_forall in Hb. now apply Hb. }
    subst b. f_equal. apply IH; try assumption.
    + now apply Permutation_cons_inv in Hp.
    + intros x y Hx Hy. apply Hanti; now right.
Qed.

End InsertionSort.

Lemma ascii_compare_refl (a : ascii) : Ascii.compare a a = Eq.
Proof. apply N.compare_refl. Qed.

Lemma string_compare_lt_trans (s1 : string) :
  forall s2 s3 : string,
  String.compare s1 s2 = Lt -> String.compare s2 s3 = Lt ->
  String.compare s1 s3 = Lt.
Proof.
  induction s1 as [|a s1 IH]; intros [|b s2] [|c s3]; cbn;
    try discriminate; try reflexivity.
  destruct (Ascii.compare a b) eqn:Hab, (Ascii.compare b c) eqn:Hbc;
    try discriminate.
  - apply Ascii.compare_eq_iff in Hab, Hbc. subst.
    rewrite ascii_compare_refl. apply IH.
  - apply Ascii.compare_eq_iff in Hab. subst. now rewrite Hbc.
  - apply Ascii.compare_eq_iff in Hbc. subst. now rewrite Hab.
  - unfold Ascii.compare in *. intros _ _.
    rewrite N.compare_lt_iff in Hab, Hbc.
    assert (H : (N_of_ascii a < N_of_ascii c)%N) by lia.
    apply N.compare_lt_iff in H. now rewrite H.
Qed.

Lemma string_leb_trans (s1 s2 s3 : string) :
  String.leb s1 s2 = true -> String.leb s2 s3 = true ->
  String.leb s1 s3 = true.
Proof.
  unfold String.leb.
  destruct (String.compare s1 s2) eqn:H12; try discriminate;
    destruct (String.compare s2 s3) eqn:H23; try discriminate; intros _ _.
  - apply String.compare_eq_iff in H12. subst. now rewrite H23.
  - apply String.compare_eq_iff in H12. subst. now rewrite H23.
  - apply String.compare_eq_iff in H23. subst. now rewrite H12.
  - now rewrite (string_compare_lt_trans _ _ _ H12 H23).
Qed.

Lemma unique_key {B : Type} (l : list (string * B)) (x y : string * B) :
  NoDup (map fst l) -> In x l -> In y l -> fst x = fst y -> x = y.
Proof.
  induction l as [|z l IH]; intros Hnd Hx Hy Hk; [destruct Hx|].
  cbn in Hnd. apply NoDup_cons_iff in Hnd. destruct Hnd as [Hz Hnd].
  destruct Hx as [->|Hx], Hy as [->|Hy].
  - reflexivity.
  - exfalso. apply Hz. rewrite Hk. now apply in_map.
  - exfalso. apply Hz. rewrite <- Hk. now apply in_map.
  - now apply IH.
Qed.

(** With distinct keys, sorting by key forgets the insertion order. *)
Lemma sort_by_key_unique {B : Type} (l1 l2 : list (string * B)) :
  NoDup (map fst l1) -> Permutation l1 l2 ->
  sort_by Json.by_key l1 = sort_by Json.by_key l2.
Proof.
  intros Hnd Hp.
  assert (Htot : forall x y : string * B,
             Json.by_key x y = true \/ Json.by_key y x = true)
    by (intros; apply String.leb_total).
  assert (Htr : forall x y z : string * B,
             Json.by_key x y = true -> Json.by_key y z = true ->
             Json.by_key x z = true)
    by (intros x y z; apply string_leb_trans).
  apply (sorted_perm_unique _ Json.by_key).
  - now apply sort_by_sorted.
  - now apply sort_by_sorted.
  - rewrite <- (sort_by_perm Json.by_key l1), <- (sort_by_perm Json.by_key l2).
    exact Hp.
  - intros x y Hx Hy Hxy Hyx.
    apply (unique_key l1); try assumption.
    + eapply Permutation_in; [symmetry; apply sort_by_perm|exact Hx].
    + eapply Permutation_in; [symmetry; apply sort_by_perm|exact Hy].
    + now apply String.leb_antisym.
Qed.

(** ** C4 and C5: links and the aggregate root *)

Lemma dumps_dict (d : Dict) :
  Json.dumps (JDict d)
  = String.append "{"
      (String.append
         (String.concat ", "
            (map Json.item (sort_by Json.by_key (rendered_items d))))
         "}").
Proof.
  cbn [Json.dumps]. do 5 f_equal. unfold rendered_items.
  induction d as [|[k v] d IH]; [reflexivity|].
  cbn [map fst snd]. f_equal. exact IH.
Qed.

Lemma rendered_items_keys (d : Dict) :
  map fst (rendered_items d) = map fst d.
Proof. unfold rendered_items. rewrite map_map. reflexivity. Qed.

(** C4.  Whatever the clock reading, the data and the metadata, the
    link made by [create_link] carries the SHA-256 of the serialised
    data, the SHA-256 of the serialised data followed by the two
    anchors with ["||"] between them, and the two anchors themselves,
    which are the constants [ROOT_HASH] and [CID].  A string
    serialises as itself; a dict serialises as JSON with its items in
    key order, so two dicts with the same items (the keys being
    distinct) serialise to the same text whatever the insertion
    order. *)
Theorem create_link_hashes
    (utcnow : string) (data : PyData) (metadata : option Dict)
    (s : string) (d d' : Dict) :
  NoDup (map fst d) -> Permutation d d' ->
  let link := IntegrityChain.create_link utcnow data metadata in
  data_hash link = sha256_hex (IntegrityChain._serialize_data data)
  /\ chain_hash link
     = sha256_hex
         (String.append (IntegrityChain._serialize_data data)
            (String.append "||"
               (String.append IntegrityChain.ROOT_HASH
                  (String.append "||" IntegrityChain.CID))))
  /\ root_hash link = IntegrityChain.ROOT_HASH
  /\ cid link = IntegrityChain.CID
  /\ IntegrityChain._serialize_data (PyStr s) = s
  /\ IntegrityChain._serialize_data (PyDict d)
     = String.append "{"
         (String.append
            (String.concat ", "
               (map Json.item (sort_by Json.by_key (rendered_items d))))
            "}")
  /\ StronglySorted (fun x y => String.leb (fst x) (fst y) = true)
       (sort_by Json.by_key (rendered_items d))
  /\ IntegrityChain._serialize_data (PyDict d)
     = IntegrityChain._serialize_data (PyDict d').
Proof.
  intros Hnd Hp link. repeat split.
  - apply dumps_dict.
  - apply (sort_by_sorted _ Json.by_key).
    + intros; apply String.leb_total.
    + intros x y z; apply string_leb_trans.
  - cbn [IntegrityChain._serialize_data]. rewrite !dumps_dict.
    do 4 f_equal. apply sort_by_key_unique.
    + now rewrite rendered_items_keys.
    + unfold rendered_items. now apply Permutation_map.
Qed.

Lemma create_link_hashes_witness :
  NoDup (map fst finding) /\ Permutation finding finding_reordered
  /\ finding <> finding_reordered
  /\ IntegrityChain._serialize_data (PyDict finding)
     = IntegrityChain._serialize_data (PyDict finding_reordered)
  /\ data_hash (IntegrityChain.create_link "2024-01-01T00:00:00"
                  (PyDict finding) None)
     = sha256_hex (IntegrityChain._serialize_data (PyDict finding)).
Proof.
  assert (Hnd : NoDup (map fst finding)).
  { repeat constructor; cbn; intuition discriminate. }
  assert (Hp : Permutation finding finding_reordered).
  { unfold finding, finding_reordered.
    eapply perm_trans; [apply perm_skip, perm_swap|apply perm_swap]. }
  split; [exact Hnd|]. split; [exact Hp|]. split; [discriminate|].
  pose proof (create_link_hashes "2024-01-01T00:00:00" (PyDict finding) None
                EmptyString finding finding_reordered Hnd Hp) as H.
  cbv zeta in H. split; [apply H|apply H].
Defined.

(** C5, as the code has it.  The root of the empty list is the empty
    string; otherwise it is the SHA-256 of the concatenation of the
    [chain_hash] values in input order.  Hence a rearrangement that
    leaves the sequence of [chain_hash] values unchanged leaves the
    root unchanged; and when every [chain_hash] has 64 characters, as
    [create_link] makes them, a rearrangement that changes that
    sequence changes the text that is hashed. *)
Theorem merkle_root_of_permutation (links links' : list IntegrityLink) :
  Permutation links links' ->
  Forall (fun l => String.length (chain_hash l) = 64%nat) links ->
  IntegrityChain.create_merkle_root []%list = EmptyString
  /\ (links <> [] ->
      IntegrityChain.create_merkle_root links
      = sha256_hex (String.concat EmptyString (map chain_hash links)))
  /\ (map chain_hash links = map chain_hash links' ->
      IntegrityChain.create_merkle_root links
      = IntegrityChain.create_merkle_root links')
  /\ (map chain_hash links <> map chain_hash links' ->
      String.concat EmptyString (map chain_hash links)
      <> String.concat EmptyString (map chain_hash links')).
Proof.
  intros Hp Hlen. split; [reflexivity|]. split; [|split].
  - destruct links; [congruence|reflexivity].
  - intros Heq. unfold IntegrityChain.create_merkle_root.
    destruct links as [|l links], links' as [|l' links'];
      try discriminate; [reflexivity|]. now rewrite Heq.
  - intros Hne Hcat. apply Hne.
    apply (concat_blocks_inj 64); [lia| | |exact Hcat].
    + rewrite Forall_map. exact Hlen.
    + rewrite Forall_map. eapply Permutation_Forall; [exact Hp|exact Hlen].
Qed.

Lemma merkle_root_of_permutation_witness :
  Permutation [link_a; link_c] [link_c; link_a]
  /\ Forall (fun l => String.length (chain_hash l) = 64%nat) [link_a; link_c]
  /\ map chain_hash [link_a; link_c] <> map chain_hash [link_c; link_a]
  /\ String.concat EmptyString (map chain_hash [link_a; link_c])
     <> String.concat EmptyString (map chain_hash [link_c; link_a]).
Proof.
  assert (Hp : Permutation [link_a; link_c] [link_c; link_a])
    by apply perm_swap.
  assert (Hlen : Forall (fun l => String.length (chain_hash l) = 64%nat)
                   [link_a; link_c])
    by (repeat constructor; apply sha256_hex_length).
  assert (Hne : map chain_hash [link_a; link_c]
                <> map chain_hash [link_c; link_a])
    by (vm_compute; discriminate).
  split; [exact Hp|]. split; [exact Hlen|]. split; [exact Hne|].
  apply (merkle_root_of_permutation _ _ Hp Hlen). exact Hne.
Defined.

(** Links made by [create_link] have hashes of 64 characters. *)
Lemma create_link_hash_lengths
    (utcnow : string) (data : PyData) (metadata : option Dict) :
  String.length (data_hash (IntegrityChain.create_link utcnow data metadata))
  = 64%nat
  /\ String.length
       (chain_hash (IntegrityChain.create_link utcnow data metadata))
     = 64%nat.
Proof. split; apply sha256_hex_length. Qed.

(** ** C8: comparisons that raise are skipped *)

Lemma fit_transform_max_features
    (self self' : SemanticVectorSpace.t) (a b : string)
    (vectors : list float * list float) :
  SemanticVectorSpace.fit_transform self a b = Ok (self', vectors) ->
  SemanticVectorSpace.max_features self' = SemanticVectorSpace.max_features self.
Proof.
  unfold SemanticVectorSpace.fit_transform, bind.
  destruct (Tfidf.fit_transform _ a b) as [[[v_o v_c] names]|e];
    [|discriminate].
  now intros [= <- _].
Qed.

(** A turn of the loop appends what the comparison on a fresh space
    gives: the vectors left by earlier turns play no part. *)
Lemma step_kept (original_response perturbed : string)
    (vs_space : SemanticVectorSpace.t) (distances : list float) :
  SemanticVectorSpace.max_features vs_space = 1000%nat ->
  exists vs_space',
    TruthInvarianceValidator.step original_response (vs_space, distances)
      perturbed
    = (vs_space', distances ++ kept original_response perturbed)
    /\ SemanticVectorSpace.max_features vs_space' = 1000%nat.
Proof.
  intros Hmax.
  unfold TruthInvarianceValidator.step, kept, comparison,
    SemanticVectorSpace.fit_transform, bind.
  rewrite Hmax.
  cbn [SemanticVectorSpace.default SemanticVectorSpace.init
         SemanticVectorSpace.max_features].
  destruct (Tfidf.fit_transform 1000 original_response perturbed)
    as [[[v_o v_c] names]|e].
  - eexists. split; reflexivity.
  - exists vs_space. now rewrite app_nil_r.
Qed.

Lemma fold_step_kept (original_response : string)
    (perturbed_responses : list string) :
  forall (vs_space : SemanticVectorSpace.t) (distances : list float),
  SemanticVectorSpace.max_features vs_space = 1000%nat ->
  snd (fold_left (TruthInvarianceValidator.step original_response)
         perturbed_responses (vs_space, distances))
  = distances ++ flat_map (kept original_response) perturbed_responses.
Proof.
  induction perturbed_responses as [|p ps IH]; intros vs_space distances Hmax.
  - cbn. now rewrite app_nil_r.
  - cbn [fold_left flat_map].
    destruct (step_kept original_response p vs_space distances Hmax)
      as (vs_space' & -> & Hmax').
    rewrite (IH _ _ Hmax'). now rewrite app_assoc.
Qed.

Lemma collect_distances_kept (original_response : string)
    (perturbed_responses : list string) :
  TruthInvarianceValidator.collect_distances original_response
    perturbed_responses
  = flat_map (kept original_response) perturbed_responses.
Proof.
  unfold TruthInvarianceValidator.collect_distances.
  now rewrite fold_step_kept.
Qed.

(** A comparison raises exactly when neither text has a token. *)
Lemma comparison_raises (original_response perturbed : string) :
  (exists e, comparison original_response perturbed = Raise e)
  <-> tokenless original_response /\ tokenless perturbed.
Proof.
  rewrite <- (Tfidf_fit_transform_raises 1000).
  unfold comparison, SemanticVectorSpace.fit_transform, bind.
  cbn [SemanticVectorSpace.default SemanticVectorSpace.init
         SemanticVectorSpace.max_features].
  destruct (Tfidf.fit_transform 1000 original_response perturbed)
    as [[[v_o v_c] names]|e].
  - split; intros [e H]; discriminate.
  - split; intros _; eauto.
Qed.

Lemma calculate_gradient_Ok (original_response : string)
    (perturbed_responses : list string) :
  exists g,
    TruthInvarianceValidator.calculate_gradient original_response
      perturbed_responses = Ok g.
Proof.
  unfold TruthInvarianceValidator.calculate_gradient.
  destruct perturbed_responses; [eauto|].
  destruct (TruthInvarianceValidator.collect_distances _ _); eauto.
Qed.

(** C8.  In [validate_invariance] the distances kept are those of the
    comparisons that return, in order, each comparison that raises
    being left out; the call itself always returns; and when every
    comparison raises, or there is none, it returns the neutral
    result: gradient, mean and deviation zero, invariant, stability
    one, no bias. *)
Theorem validate_invariance_skips_failures
    (original_response : string) (perturbed_responses : list string) :
  TruthInvarianceValidator.collect_distances original_response
    perturbed_responses
  = flat_map (kept original_response) perturbed_responses
  /\ (exists r,
        TruthInvarianceValidator.validate_invariance original_response
          perturbed_responses = Ok r)
  /\ ((forall p, In p perturbed_responses ->
         exists e, comparison original_response p = Raise e) ->
      TruthInvarianceValidator.validate_invariance original_response
        perturbed_responses
      = Ok (mkInvarianceResult 0 true perturbed_responses 1 false 0 0)).
Proof.
  split; [apply collect_distances_kept|]. split.
  - unfold TruthInvarianceValidator.validate_invariance.
    destruct (calculate_gradient_Ok original_response perturbed_responses)
      as [g ->].
    cbn [bind]. eauto.
  - intros Hall.
    assert (Hnone : TruthInvarianceValidator.collect_distances
                      original_response perturbed_responses = []).
    { rewrite collect_distances_kept.
      induction perturbed_responses as [|p ps IH]; [reflexivity|].
      cbn [flat_map]. rewrite IH by (intros q Hq; apply Hall; now right).
      destruct (Hall p (or_introl eq_refl)) as [e He].
      unfold kept. now rewrite He. }
    unfold TruthInvarianceValidator.validate_invariance,
      TruthInvarianceValidator.calculate_gradient.
    rewrite Hnone. destruct perturbed_responses; reflexivity.
Qed.

(** Three responses, the second and third without a token: against an
    original with tokens nothing is skipped; against one without, all
    comparisons raise and the result is neutral. *)
Example validate_invariance_all_skipped :
  TruthInvarianceValidator.validate_invariance "a"
    ["b"%string; "?"%string; ""%string]
  = Ok (mkInvarianceResult 0 true ["b"%string; "?"%string; ""%string]
          1 false 0 0).
Proof. vm_compute. reflexivity. Qed.

Example collect_distances_skips_one :
  List.length
    (TruthInvarianceValidator.collect_distances "a"
       ["b"%string; "hello world"%string; ""%string])
  = 1%nat.
Proof. vm_compute. reflexivity. Qed.

(** ** C7: the risk rating of a period *)

(** The rating is the one the number of points gives. *)
Lemma assess_thermal_death_risk_points
    (mean_I_D trend_slope interventions_rate : float) :
  TemporalAnalyzer._assess_thermal_death_risk mean_I_D trend_slope
    interventions_rate
  = rating_of_points (risk_points mean_I_D trend_slope interventions_rate)
  /\ (0 <= risk_points mean_I_D trend_slope interventions_rate <= 3)%Z.
Proof.
  unfold TemporalAnalyzer._assess_thermal_death_risk, risk_points,
    risk_factors, rating_of_points.
  change TemporalAnalyzer.MODERATE_THRESHOLD with 0.15%float.
  destruct (PrimFloat.leb 0.35 mean_I_D), (PrimFloat.ltb 0.15 trend_slope),
    (PrimFloat.ltb 0.5 interventions_rate); cbn; split; (reflexivity || lia).
Qed.

Lemma rating_of_points_cases (points : Z) :
  (0 <= points <= 3)%Z ->
  (rating_of_points points = "CRITICAL"%string <-> points = 3%Z)
  /\ (rating_of_points points = "HIGH"%string <-> points = 2%Z)
  /\ (rating_of_points points = "MEDIUM"%string <-> points = 1%Z)
  /\ (rating_of_points points = "LOW"%string <-> points = 0%Z).
Proof.
  intros H.
  assert (Hc : (points = 0 \/ points = 1 \/ points = 2 \/ points = 3)%Z)
    by lia.
  destruct Hc as [-> | [-> | [-> | ->]]]; cbn;
    repeat split; intros; try discriminate; try reflexivity.
Qed.

(** Three points mean that all three factors hold, none that none
    holds. *)
Lemma risk_points_extremes
    (mean_I_D trend_slope interventions_rate : float) :
  (risk_points mean_I_D trend_slope interventions_rate = 3%Z
   <-> PrimFloat.leb 0.35 mean_I_D = true
       /\ PrimFloat.ltb 0.15 trend_slope = true
       /\ PrimFloat.ltb 0.5 interventions_rate = true)
  /\ (risk_points mean_I_D trend_slope interventions_rate = 0%Z
      <-> PrimFloat.leb 0.35 mean_I_D = false
          /\ PrimFloat.ltb 0.15 trend_slope = false
          /\ PrimFloat.ltb 0.5 interventions_rate = false).
Proof.
  unfold risk_points, risk_factors.
  destruct (PrimFloat.leb 0.35 mean_I_D), (PrimFloat.ltb 0.15 trend_slope),
    (PrimFloat.ltb 0.5 interventions_rate); cbn;
    repeat split; intros; try discriminate; try lia; try reflexivity;
    repeat match goal with H : _ /\ _ |- _ => destruct H end;
    try discriminate.
Qed.

Lemma monitor_log_raises (rt : Runtime) (self : DegradationMonitor.t)
    (log : InteractionLog) (e : exn) :
  DegradationMonitor.monitor_log rt self log = Raise e -> tokenless_log log.
Proof.
  unfold DegradationMonitor.monitor_log, DegradationMonitor.monitor_interaction,
    bind.
  pose proof (calculate_follows_vectorizer (response_origin log)
                (response_control log)) as H.
  destruct (Tfidf.fit_transform 1000 (response_origin log)
              (response_control log)) as [x|e'] eqn:Hfit.
  - destruct H as [r ->]. discriminate.
  - intros _. apply (Tfidf_fit_transform_raises 1000). eauto.
Qed.

Lemma batch_monitor_raises (rt : Runtime) (logs : list InteractionLog) :
  forall (self : DegradationMonitor.t) (e : exn),
  DegradationMonitor.batch_monitor rt self logs = Raise e ->
  Exists tokenless_log logs.
Proof.
  induction logs as [|log logs IH]; intros self e; cbn; [discriminate|].
  destruct (DegradationMonitor.monitor_log rt self log)
    as [[result self']|e'] eqn:Hlog; cbn [bind].
  - destruct (DegradationMonitor.batch_monitor rt self' logs)
      as [[results self'']|e''] eqn:Hrest; cbn [bind]; [discriminate|].
    intros _. right. eapply IH. exact Hrest.
  - intros _. left. eapply monitor_log_raises. exact Hlog.
Qed.

Lemma batch_monitor_length (rt : Runtime) (logs : list InteractionLog) :
  forall (self self' : DegradationMonitor.t) (results : list MonitoringResult),
  DegradationMonitor.batch_monitor rt self logs = Ok (results, self') ->
  List.length results = List.length logs.
Proof.
  induction logs as [|log logs IH]; intros self self' results; cbn.
  - now intros [= <- _].
  - destruct (DegradationMonitor.monitor_log rt self log)
      as [[result self1]|e]; cbn [bind]; [|discriminate].
    destruct (DegradationMonitor.batch_monitor rt self1 logs)
      as [[results' self2]|e] eqn:Hrest; cbn [bind]; [|discriminate].
    intros [= <- _]. cbn. f_equal. eapply IH. exact Hrest.
Qed.

(** What [analyze_period] returns on a period that is not empty. *)
Lemma analyze_period_Ok (rt : Runtime) (monitor monitor' : DegradationMonitor.t)
    (logs : list InteractionLog) (m : TemporalMetrics) :
  logs <> [] ->
  TemporalAnalyzer.analyze_period rt monitor logs = Ok (m, monitor') ->
  thermal_death_risk m
  = TemporalAnalyzer._assess_thermal_death_risk (mean_I_D m) (trend_slope m)
      (interventions_rate_of m).
Proof.
  intros Hne. unfold TemporalAnalyzer.analyze_period.
  destruct logs as [|log logs]; [congruence|].
  destruct (DegradationMonitor.batch_monitor rt monitor (log :: logs))
    as [[results monitor1]|e] eqn:Hbatch; cbn [bind]; [|discriminate].
  pose proof (batch_monitor_length _ _ _ _ _ Hbatch) as Hlen.
  intros [= <- _]. unfold interventions_rate_of.
  cbn [thermal_death_risk mean_I_D trend_slope interventions_count
         total_interactions].
  destruct results as [|r results]; [discriminate|].
  unfold len. now rewrite Hlen.
Qed.

(** What a returning batch measured: the indices of the logs in order,
    one clock reading per log, and as many interventions as there are
    indices of at least 0.4. *)
Lemma batch_monitor_measured (rt : Runtime) (logs : list InteractionLog) :
  forall (self self' : DegradationMonitor.t) (results : list MonitoringResult),
  DegradationMonitor.batch_monitor rt self logs = Ok (results, self') ->
  map (fun r => I_D (degradation r)) results = measured_I_D logs
  /\ map r_timestamp results = clock_readings rt self (List.length logs)
  /\ len (filter intervention_detected results)
     = len (filter (fun i => PrimFloat.leb 0.4 i) (measured_I_D logs))
  /\ List.length (measured_I_D logs) = List.length logs.
Proof.
  unfold clock_readings.
  induction logs as [|log logs IH]; intros self self' results.
  - cbn. intros [= <- <-]. repeat split.
  - cbn [DegradationMonitor.batch_monitor].
    unfold DegradationMonitor.monitor_log,
      DegradationMonitor.monitor_interaction.
    unfold measured_I_D. cbn [flat_map]. fold (measured_I_D logs).
    destruct (DegradationIndexCalculator.calculate (response_origin log)
                (response_control log)) as [d|e]; cbn [bind]; [|discriminate].
    match goal with
    | |- context [DegradationMonitor.batch_monitor rt ?s logs] =>
        destruct (DegradationMonitor.batch_monitor rt s logs)
          as [[rs s2]|e] eqn:Hrest; cbn [bind]; [|discriminate]
    end.
    intros [= <- <-].
    destruct (IH _ _ _ Hrest) as (Hv & Hts & Hi & Hl).
    cbn [DegradationMonitor.clock] in Hts.
    cbn [map app degradation r_timestamp List.length seq filter
           intervention_detected].
    rewrite Hv, Hts, Hl, <- seq_shift, map_map, Nat.add_0_r.
    change DegradationMonitor.CRITICAL_THRESHOLD with 0.4%float.
    split; [reflexivity|]. split; [|split; [|reflexivity]].
    + f_equal. apply map_ext. intros i. do 2 f_equal. lia.
    + unfold len in *.
      destruct (PrimFloat.leb 0.4 (I_D d)); cbn [List.length]; lia.
Qed.

(** The rating by the three comparisons. *)
Lemma assess_thermal_death_risk_cases
    (mean_I_D trend_slope interventions_rate : float) :
  let baseline := PrimFloat.leb 0.35 mean_I_D in
  let trend := PrimFloat.ltb 0.15 trend_slope in
  let interventions := PrimFloat.ltb 0.5 interventions_rate in
  let risk :=
    TemporalAnalyzer._assess_thermal_death_risk mean_I_D trend_slope
      interventions_rate in
  (risk = "CRITICAL"%string
   <-> (baseline && trend && interventions)%bool = true)
  /\ (risk = "HIGH"%string <-> exactly_two baseline trend interventions = true)
  /\ (risk = "MEDIUM"%string
      <-> exactly_one baseline trend interventions = true)
  /\ (risk = "LOW"%string
      <-> (negb baseline && negb trend && negb interventions)%bool = true).
Proof.
  cbv zeta. unfold TemporalAnalyzer._assess_thermal_death_risk.
  change TemporalAnalyzer.MODERATE_THRESHOLD with 0.15%float.
  destruct (PrimFloat.leb 0.35 mean_I_D), (PrimFloat.ltb 0.15 trend_slope),
    (PrimFloat.ltb 0.5 interventions_rate); cbn;
    repeat split; intros; try discriminate; reflexivity.
Qed.

(** C7.  On a period that is not empty, when [analyze_period] returns,
    it has measured every log: the mean is the mean of the indices
    [calculate] gives on the logs' responses, in order, the slope is
    the slope of these indices over the clock readings taken while
    monitoring, the interventions are the indices of at least 0.4 and
    the total is the number of logs.  Its rating is the one of the
    three-factor score on these: one point each for a mean index of at
    least 0.35, a slope above 0.15 and an intervention rate above 0.5;
    CRITICAL exactly when all three factors hold, HIGH exactly when two
    hold, MEDIUM exactly when one holds and LOW exactly when none
    holds.  It returns unless some log has no token in either
    response, in which case [calculate] has raised. *)
Theorem analyze_period_risk_rating
    (rt : Runtime) (monitor : DegradationMonitor.t)
    (logs : list InteractionLog) :
  logs <> [] ->
  match TemporalAnalyzer.analyze_period rt monitor logs with
  | Ok (m, _) =>
      let values := measured_I_D logs in
      let readings := clock_readings rt monitor (List.length logs) in
      let baseline := PrimFloat.leb 0.35 (mean_I_D m) in
      let trend := PrimFloat.ltb 0.15 (trend_slope m) in
      let interventions :=
        PrimFloat.ltb 0.5
          (truediv (interventions_count m) (total_interactions m)) in
      let points :=
        risk_points (mean_I_D m) (trend_slope m) (interventions_rate_of m) in
      List.length values = List.length logs
      /\ mean_I_D m = statistics_mean rt values
      /\ trend_slope m
         = TemporalAnalyzer._calculate_trend_slope rt values readings
      /\ interventions_count m
         = len (filter (fun i => PrimFloat.leb 0.4 i) values)
      /\ total_interactions m = len logs
      /\ (thermal_death_risk m = "CRITICAL"%string
          <-> (baseline && trend && interventions)%bool = true)
      /\ (thermal_death_risk m = "HIGH"%string
          <-> exactly_two baseline trend interventions = true)
      /\ (thermal_death_risk m = "MEDIUM"%string
          <-> exactly_one baseline trend interventions = true)
      /\ (thermal_death_risk m = "LOW"%string
          <-> (negb baseline && negb trend && negb interventions)%bool
              = true)
      /\ thermal_death_risk m = rating_of_points points
      /\ (thermal_death_risk m = "CRITICAL"%string <-> points = 3%Z)
      /\ (thermal_death_risk m = "HIGH"%string <-> points = 2%Z)
      /\ (thermal_death_risk m = "MEDIUM"%string <-> points = 1%Z)
      /\ (thermal_death_risk m = "LOW"%string <-> points = 0%Z)
      /\ (points = 3%Z
          <-> PrimFloat.leb 0.35 (mean_I_D m) = true
              /\ PrimFloat.ltb 0.15 (trend_slope m) = true
              /\ PrimFloat.ltb 0.5 (interventions_rate_of m) = true)
      /\ (points = 0%Z
          <-> PrimFloat.leb 0.35 (mean_I_D m) = false
              /\ PrimFloat.ltb 0.15 (trend_slope m) = false
              /\ PrimFloat.ltb 0.5 (interventions_rate_of m) = false)
  | Raise _ => Exists tokenless_log logs
  end.
Proof.
  intros Hne.
  destruct (TemporalAnalyzer.analyze_period rt monitor logs)
    as [[m monitor']|e] eqn:Hrun.
  - pose proof (analyze_period_Ok _ _ _ _ _ Hne Hrun) as Hrisk.
    assert (Hfields :
      List.length (measured_I_D logs) = List.length logs
      /\ mean_I_D m = statistics_mean rt (measured_I_D logs)
      /\ trend_slope m
         = TemporalAnalyzer._calculate_trend_slope rt (measured_I_D logs)
             (clock_readings rt monitor (List.length logs))
      /\ interventions_count m
         = len (filter (fun i => PrimFloat.leb 0.4 i) (measured_I_D logs))
      /\ total_interactions m = len logs).
    { revert Hrun. unfold TemporalAnalyzer.analyze_period.
      destruct logs as [|log logs]; [congruence|].
      destruct (DegradationMonitor.batch_monitor rt monitor (log :: logs))
        as [[results monitor1]|e] eqn:Hbatch; cbn [bind]; [|discriminate].
      destruct (batch_monitor_measured _ _ _ _ _ Hbatch)
        as (Hv & Hts & Hi & Hl).
      intros [= <- _].
      cbn [mean_I_D trend_slope interventions_count total_interactions].
      rewrite Hv, Hts, Hi. repeat split. exact Hl. }
    destruct Hfields as (Hl & Hmean & Hslope & Hcount & Htotal).
    destruct (assess_thermal_death_risk_points (mean_I_D m) (trend_slope m)
                (interventions_rate_of m)) as [Hrate Hrange].
    pose proof (assess_thermal_death_risk_cases (mean_I_D m) (trend_slope m)
                  (interventions_rate_of m)) as Hcases.
    cbv zeta in Hcases. rewrite <- Hrisk in Hcases.
    unfold interventions_rate_of in Hcases at 1 2 3 4.
    destruct Hcases as (C3 & C2 & C1 & C0).
    rewrite Hrate in Hrisk. cbv zeta.
    split; [exact Hl|]. split; [exact Hmean|]. split; [exact Hslope|].
    split; [exact Hcount|]. split; [exact Htotal|].
    split; [exact C3|]. split; [exact C2|]. split; [exact C1|].
    split; [exact C0|].
    rewrite Hrisk. split; [reflexivity|].
    pose proof (rating_of_points_cases _ Hrange) as (H3 & H2 & H1 & H0).
    pose proof (risk_points_extremes (mean_I_D m) (trend_slope m)
                  (interventions_rate_of m)) as (Hall & Hnone).
    split; [exact H3|]. split; [exact H2|]. split; [exact H1|].
    split; [exact H0|]. split; [exact Hall|exact Hnone].
  - revert Hrun. unfold TemporalAnalyzer.analyze_period.
    destruct logs as [|log logs]; [congruence|].
    destruct (DegradationMonitor.batch_monitor rt monitor (log :: logs))
      as [[results monitor1]|e'] eqn:Hbatch; cbn [bind]; [discriminate|].
    intros _. eapply batch_monitor_raises. exact Hbatch.
Qed.

Lemma analyze_period_risk_rating_witness :
  example_logs <> []
  /\ measured_I_D example_logs = [0%float; 1%float; 1%float]
  /\ match TemporalAnalyzer.analyze_period example_runtime
             DegradationMonitor.init example_logs with
     | Ok (m, _) =>
         thermal_death_risk m = "CRITICAL"%string
         /\ mean_I_D m
            = statistics_mean example_runtime [0%float; 1%float; 1%float]
         /\ trend_slope m = 0.5%float
         /\ interventions_count m = 2%Z
         /\ total_interactions m = 3%Z
         /\ thermal_death_risk m
            = rating_of_points
                (risk_points (mean_I_D m) (trend_slope m)
                   (interventions_rate_of m))
     | Raise _ => Exists tokenless_log example_logs
     end.
Proof.
  assert (Hne : example_logs <> []) by discriminate.
  assert (Hvalues : measured_I_D example_logs = [0%float; 1%float; 1%float])
    by (vm_compute; reflexivity).
  split; [exact Hne|]. split; [exact Hvalues|].
  pose proof (analyze_period_risk_rating example_runtime
                DegradationMonitor.init example_logs Hne) as H.
  destruct (TemporalAnalyzer.analyze_period example_runtime
              DegradationMonitor.init example_logs) as [[m monitor]|e];
    [|exact H].
  cbv zeta in H. rewrite Hvalues in H.
  destruct H as (_ & Hmean & Hslope & Hcount & Htotal & C3 & _ & _ & _
                 & Hrate & _).
  assert (Hs : trend_slope m = 0.5%float)
    by (rewrite Hslope; vm_compute; reflexivity).
  assert (Hc : interventions_count m = 2%Z)
    by (rewrite Hcount; vm_compute; reflexivity).
  assert (Ht : total_interactions m = 3%Z)
    by (rewrite Htotal; vm_compute; reflexivity).
  split; [|split; [exact Hmean|split; [exact Hs|split; [exact Hc|
          split; [exact Ht|exact Hrate]]]]].
  apply C3. rewrite Hmean, Hs, Hc, Ht. vm_compute. reflexivity.
Defined.

(** Three logs monitored one day apart: indices 0, 1 and 1, a mean of
    2/3, a slope of 0.5 a day, two interventions out of three. *)
Example analyze_period_three_logs :
  exists m monitor,
    TemporalAnalyzer.analyze_period example_runtime DegradationMonitor.init
      example_logs = Ok (m, monitor)
    /\ thermal_death_risk m = "CRITICAL"%string
    /\ risk_points (mean_I_D m) (trend_slope m) (interventions_rate_of m) = 3%Z
    /\ trend_slope m = 0.5%float /\ interventions_count m = 2%Z
    /\ total_interactions m = 3%Z.
Proof. do 2 eexists. vm_compute. repeat split. Qed.

(** A period with a log whose responses have no token raises. *)
Example analyze_period_raises :
  TemporalAnalyzer.analyze_period example_runtime DegradationMonitor.init
    [example_log "hello world" "hello world"; example_log "" "?"]
  = Raise (ValueError
      "empty vocabulary; perhaps the documents only contain stop words").
Proof. vm_compute. reflexivity. Qed.

(** ** The SHA-256 model on the standard test vectors *)

Example sha256_empty :
  sha256_hex ""
  = "e3b0c44298fc1c149afbf4c8996fb92427ae41e4649b934ca495991b7852b855"%string.
Proof. vm_compute. reflexivity. Qed.

Example sha256_abc :
  sha256_hex "abc"
  = "ba7816bf8f01cfea414140de5dae2223b00361a396177a9cb410ff61f20015ad"%string.
Proof. vm_compute. reflexivity. Qed.

(** The text and the hashes of the finding, as Python computes them. *)
Example serialize_finding :
  IntegrityChain._serialize_data (PyDict finding)
  = String.append "{"
      (String.append (Json.quote "I_D")
        (String.append ": 0.45, "
          (String.append (Json.quote "session_id")
            (String.append ": "
              (String.append (Json.quote "test_001")
                (String.append ", "
                  (String.append (Json.quote "status")
                    (String.append ": "
                      (String.append (Json.quote "CRITICAL") "}"))))))))).
Proof. vm_compute. reflexivity. Qed.

Example data_hash_of_finding :
  data_hash (IntegrityChain.create_link "2024-01-01T00:00:00"
               (PyDict finding) None)
  = "25c8388c830220c7180b376e44ab1b4d6a14c42acdfa613a32092dfd01fee1de"%string.
Proof. vm_compute. reflexivity. Qed.

(* ================================================================== *)
(** * Further properties of the modelled code *)

(** ** Sovereignty/integrity_chain.py: links, proofs and batches *)

(** X1.  A link verifies against the data it was created from,
    whatever the clock reading and the metadata. *)
Theorem verify_link_of_created_link
    (utcnow : string) (data : PyData) (metadata : option Dict) :
  IntegrityChain.verify_link data
    (IntegrityChain.create_link utcnow data metadata) = true.
Proof.
  unfold IntegrityChain.verify_link, IntegrityChain.create_link.
  cbn [root_hash cid data_hash chain_hash].
  now rewrite !String.eqb_refl.
Qed.

(** [verify_link] fails closed: it answers [True] exactly when
    the link's two anchors are the constants and its two hashes are
    the ones recomputed from the data; any single mismatch gives
    [False]. *)
Lemma verify_link_true_iff (data : PyData) (link : IntegrityLink) :
  IntegrityChain.verify_link data link = true
  <-> root_hash link = IntegrityChain.ROOT_HASH
      /\ cid link = IntegrityChain.CID
      /\ data_hash link = IntegrityChain.compute_data_hash data
      /\ chain_hash link = IntegrityChain.compute_chain_hash data.
Proof.
  unfold IntegrityChain.verify_link.
  destruct (String.eqb_spec (root_hash link) IntegrityChain.ROOT_HASH)
    as [Hr|Hr]; cbn [negb].
  - destruct (String.eqb_spec (cid link) IntegrityChain.CID) as [Hc|Hc];
      cbn [negb].
    + rewrite andb_true_iff, !String.eqb_eq. intuition congruence.
    + split; [discriminate|]. intros (_ & H & _). contradiction.
  - split; [discriminate|]. intros (H & _). contradiction.
Qed.

(** X2.  The aggregate root is the empty string for the empty list
    only: the root of a list with a link in it has 64 characters.
    In a certificate the root is empty exactly when [total_links] is
    zero. *)
Theorem merkle_root_empty_iff (utcnow : string) (links : list IntegrityLink) :
  (IntegrityChain.create_merkle_root links = EmptyString <-> links = [])
  /\ (links <> [] ->
      String.length (IntegrityChain.create_merkle_root links) = 64%nat)
  /\ (IntegrityChain.merkle_root
        (IntegrityChain.export_chain_certificate utcnow links) = EmptyString
      <-> IntegrityChain.total_links
            (IntegrityChain.export_chain_certificate utcnow links) = 0%Z).
Proof.
  assert (Hlen : links <> [] ->
            String.length (IntegrityChain.create_merkle_root links) = 64%nat).
  { destruct links as [|l links]; [congruence|]. intros _.
    apply sha256_hex_length. }
  assert (Hiff : IntegrityChain.create_merkle_root links = EmptyString
                 <-> links = []).
  { split; [|now intros ->].
    intros H. destruct links as [|l links]; [reflexivity|].
    specialize (Hlen ltac:(discriminate)). rewrite H in Hlen. discriminate. }
  split; [exact Hiff|]. split; [exact Hlen|].
  cbn [IntegrityChain.export_chain_certificate IntegrityChain.merkle_root
         IntegrityChain.total_links].
  rewrite Hiff. unfold len. destruct links; cbn; split; (congruence || lia).
Qed.

Lemma substring_prefix_length (n : nat) (s : string) :
  (String.length (substring 0 n s) <= n)%nat.
Proof.
  revert s. induction n as [|n IH]; intros [|c s]; cbn; try lia.
  specialize (IH s). lia.
Qed.

(** X3.  In a proof of integrity, [is_valid] is the conjunction of the
    four flags under [verification]; the preview of the hashed text
    has at most 203 characters; and the proof made for a link and the
    data it was created from is valid. *)
Theorem proof_of_integrity_flags
    (utcnow utcnow' : string) (data : PyData) (link : IntegrityLink)
    (metadata : option Dict) :
  let proof := IntegrityChain.create_proof_of_integrity utcnow data link in
  let flags := IntegrityChain.verification proof in
  IntegrityChain.is_valid proof
  = (IntegrityChain.data_hash_matches flags
     && IntegrityChain.chain_hash_matches flags
     && IntegrityChain.root_hash_matches flags
     && IntegrityChain.cid_matches flags)%bool
  /\ (String.length
        (IntegrityChain.chain_data_preview
           (IntegrityChain.reconstruction proof)) <= 203)%nat
  /\ IntegrityChain.is_valid
       (IntegrityChain.create_proof_of_integrity utcnow data
          (IntegrityChain.create_link utcnow' data metadata)) = true.
Proof.
  cbv zeta. split; [|split].
  - cbn [IntegrityChain.create_proof_of_integrity IntegrityChain.is_valid
           IntegrityChain.verification IntegrityChain.data_hash_matches
           IntegrityChain.chain_hash_matches IntegrityChain.root_hash_matches
           IntegrityChain.cid_matches].
    unfold IntegrityChain.verify_link.
    destruct (String.eqb (root_hash link) IntegrityChain.ROOT_HASH),
      (String.eqb (cid link) IntegrityChain.CID),
      (String.eqb (IntegrityChain.compute_data_hash data) (data_hash link)),
      (String.eqb (IntegrityChain.compute_chain_hash data) (chain_hash link));
      reflexivity.
  - cbn [IntegrityChain.create_proof_of_integrity IntegrityChain.reconstruction
           IntegrityChain.chain_data_preview].
    rewrite append_length.
    pose proof (substring_prefix_length 200
                  (String.append (IntegrityChain._serialize_data data)
                     (String.append "||"
                        (String.append IntegrityChain.ROOT_HASH
                           (String.append "||" IntegrityChain.CID))))) as H.
    cbn [String.length]. lia.
  - cbn [IntegrityChain.create_proof_of_integrity IntegrityChain.is_valid].
    unfold IntegrityChain.verify_link, IntegrityChain.create_link.
    cbn [root_hash cid data_hash chain_hash].
    now rewrite !String.eqb_refl.
Qed.

Lemma heap_set_length (h : IntegrityChain.Heap) (a : nat) (d : Dict) :
  (a < List.length h)%nat ->
  List.length (IntegrityChain.heap_set h a d) = List.length h.
Proof.
  intros Ha. unfold IntegrityChain.heap_set.
  rewrite length_app, length_firstn. cbn [List.length].
  rewrite length_skipn. lia.
Qed.

Lemma heap_get_set_same (h : IntegrityChain.Heap) (a : nat) (d : Dict) :
  (a < List.length h)%nat ->
  IntegrityChain.heap_get (IntegrityChain.heap_set h a d) a = d.
Proof.
  intros Ha. unfold IntegrityChain.heap_get, IntegrityChain.heap_set.
  rewrite app_nth2; rewrite length_firstn; [|lia].
  replace (a - Nat.min a (List.length h))%nat with 0%nat by lia. reflexivity.
Qed.

Lemma heap_get_set_other (h : IntegrityChain.Heap) (a b : nat) (d : Dict) :
  (a < List.length h)%nat -> a <> b ->
  IntegrityChain.heap_get (IntegrityChain.heap_set h a d) b
  = IntegrityChain.heap_get h b.
Proof.
  intros Ha Hab. unfold IntegrityChain.heap_get, IntegrityChain.heap_set.
  destruct (Nat.lt_ge_cases b a) as [Hlt|Hge].
  - rewrite app_nth1 by (rewrite length_firstn; lia).
    now rewrite nth_firstn, (proj2 (Nat.ltb_lt b a) Hlt).
  - rewrite app_nth2 by (rewrite length_firstn; lia).
    rewrite length_firstn.
    replace (Nat.min a (List.length h)) with a by lia.
    destruct (b - a)%nat as [|k] eqn:Hk; [lia|]. cbn [nth].
    rewrite nth_skipn. f_equal. lia.
Qed.

(** The heap version of [create_link] builds the link [create_link]
    builds from the dict found at the address, and touches no other
    dict. *)
Lemma create_link_on_spec
    (h : IntegrityChain.Heap) (utcnow : string) (data : PyData) (a : nat) :
  (a < List.length h)%nat ->
  let '(o, h') := IntegrityChain.create_link_on h utcnow data (Some a) in
  IntegrityChain.link_of h' o
  = IntegrityChain.create_link utcnow data
      (Some (IntegrityChain.heap_get h a))
  /\ IntegrityChain.o_metadata o = a
  /\ List.length h' = List.length h
  /\ forall b, b <> a ->
       IntegrityChain.heap_get h' b = IntegrityChain.heap_get h b.
Proof.
  intros Ha. unfold IntegrityChain.create_link_on, IntegrityChain.link_of.
  cbn [IntegrityChain.o_data_hash IntegrityChain.o_chain_hash
         IntegrityChain.o_root_hash IntegrityChain.o_cid
         IntegrityChain.o_timestamp IntegrityChain.o_metadata].
  rewrite heap_get_set_same by exact Ha.
  repeat split.
  - now apply heap_set_length.
  - intros b Hb. apply heap_get_set_other; [exact Ha|congruence].
Qed.

Lemma create_link_on_fresh
    (h : IntegrityChain.Heap) (utcnow : string) (data : PyData) :
  let '(o, h') := IntegrityChain.create_link_on h utcnow data None in
  IntegrityChain.link_of h' o = IntegrityChain.create_link utcnow data None
  /\ IntegrityChain.o_metadata o = List.length h
  /\ forall b, (b < List.length h)%nat ->
       IntegrityChain.heap_get h' b = IntegrityChain.heap_get h b.
Proof.
  unfold IntegrityChain.create_link_on, IntegrityChain.link_of.
  cbn [IntegrityChain.o_data_hash IntegrityChain.o_chain_hash
         IntegrityChain.o_root_hash IntegrityChain.o_cid
         IntegrityChain.o_timestamp IntegrityChain.o_metadata].
  assert (Hlen : (List.length h < List.length (h ++ [[]]))%nat)
    by (rewrite length_app; cbn; lia).
  rewrite heap_get_set_same by exact Hlen.
  assert (Hnew : IntegrityChain.heap_get (h ++ [[]]) (List.length h) = [])
    by (unfold IntegrityChain.heap_get; rewrite app_nth2, Nat.sub_diag;
        [reflexivity|lia]).
  rewrite Hnew. repeat split.
  intros b Hb. rewrite heap_get_set_other by lia.
  unfold IntegrityChain.heap_get. now rewrite app_nth1.
Qed.

Lemma json_set_set (d : Dict) (key : string) (v1 v2 : json) :
  Json.set (Json.set d key v1) key v2 = Json.set d key v2.
Proof.
  induction d as [|[k v] d IH]; cbn.
  - now rewrite String.eqb_refl.
  - destruct (String.eqb k key) eqn:Hk; cbn; rewrite Hk; [reflexivity|].
    now rewrite IH.
Qed.

Lemma batch_loop_objects (clock : nat -> string)
    (pairs : list (PyData * nat)) :
  forall (t : nat) (h : IntegrityChain.Heap),
  fst (IntegrityChain.batch_loop clock t h pairs)
  = batch_objects clock t pairs.
Proof.
  induction pairs as [|[data a] pairs IH]; intros t h; [reflexivity|].
  cbn [IntegrityChain.batch_loop batch_objects].
  unfold IntegrityChain.create_link_on.
  match goal with
  | |- context [IntegrityChain.batch_loop clock (S t) ?h' pairs] =>
      specialize (IH (S t) h');
      destruct (IntegrityChain.batch_loop clock (S t) h' pairs)
        as [links h'']
  end.
  cbn [fst] in *. now rewrite IH.
Qed.

(** After a batch whose pairs all name one dict, that dict holds the
    timestamp of the last link. *)
Lemma batch_loop_shared_dict (clock : nat -> string) (a : nat)
    (pairs : list (PyData * nat)) :
  Forall (fun p => snd p = a) pairs -> pairs <> [] ->
  forall (t : nat) (h : IntegrityChain.Heap),
  (a < List.length h)%nat ->
  IntegrityChain.heap_get (snd (IntegrityChain.batch_loop clock t h pairs)) a
  = Json.set (IntegrityChain.heap_get h a) "created_at"
      (JStr (String.append (clock (t + List.length pairs - 1)%nat) "Z")).
Proof.
  induction pairs as [|[data a'] pairs IH]; intros Hall Hne t h Ha;
    [congruence|].
  apply Forall_cons_iff in Hall. destruct Hall as [Ha' Hall].
  cbn [snd] in Ha'. subst a'.
  cbn [IntegrityChain.batch_loop]. unfold IntegrityChain.create_link_on.
  set (h1 := IntegrityChain.heap_set h a _).
  assert (Hlen1 : (a < List.length h1)%nat)
    by (unfold h1; rewrite heap_set_length; assumption).
  assert (Hget1 : IntegrityChain.heap_get h1 a
                  = Json.set (IntegrityChain.heap_get h a) "created_at"
                      (JStr (String.append (clock t) "Z")))
    by (unfold h1; now rewrite heap_get_set_same).
  destruct pairs as [|p pairs].
  - cbn [IntegrityChain.batch_loop snd List.length].
    replace (t + 1 - 1)%nat with t by lia. exact Hget1.
  - specialize (IH Hall ltac:(discriminate) (S t) h1 Hlen1).
    destruct (IntegrityChain.batch_loop clock (S t) h1 (p :: pairs))
      as [links h2].
    cbn [snd] in *. rewrite IH, Hget1, json_set_set.
    do 3 f_equal. cbn [List.length]. f_equal. lia.
Qed.

Lemma batch_objects_length (clock : nat -> string)
    (pairs : list (PyData * nat)) :
  forall t, List.length (batch_objects clock t pairs) = List.length pairs.
Proof.
  induction pairs as [|[data a] pairs IH]; intros t; cbn;
    [reflexivity|now rewrite IH].
Qed.

Lemma map_fst_combine {A B : Type} (l : list A) (l' : list B) :
  map fst (combine l l')
  = firstn (Nat.min (List.length l) (List.length l')) l.
Proof.
  revert l'. induction l as [|x l IH]; intros [|y l']; cbn;
    try reflexivity.
  now rewrite IH.
Qed.

Lemma shared_batch_loop_length (clock : nat -> string)
    (pairs : list (IntegrityChain.DataObject * nat)) :
  forall (t : nat) (h : IntegrityChain.Heap),
  List.length (fst (IntegrityChain.Shared.batch_loop clock t h pairs))
  = List.length pairs.
Proof.
  induction pairs as [|[data a] pairs IH]; intros t h; [reflexivity|].
  cbn [IntegrityChain.Shared.batch_loop].
  unfold IntegrityChain.Shared.create_link.
  match goal with
  | |- context [IntegrityChain.Shared.batch_loop clock (S t) ?h' pairs] =>
      specialize (IH (S t) h');
      destruct (IntegrityChain.Shared.batch_loop clock (S t) h' pairs)
        as [links h'']
  end.
  cbn [fst List.length] in *. now rewrite IH.
Qed.

(** On data that are values the two models of the batch agree. *)
Lemma shared_batch_loop_of_values (clock : nat -> string)
    (pairs : list (PyData * nat)) :
  forall (t : nat) (h : IntegrityChain.Heap),
  IntegrityChain.Shared.batch_loop clock t h
    (map (fun p => (IntegrityChain.Value (fst p), snd p)) pairs)
  = IntegrityChain.batch_loop clock t h pairs.
Proof.
  induction pairs as [|[data a] pairs IH]; intros t h; [reflexivity|].
  cbn [map fst snd IntegrityChain.Shared.batch_loop IntegrityChain.batch_loop].
  unfold IntegrityChain.Shared.create_link, IntegrityChain.create_link_on.
  cbn [IntegrityChain.data_of]. now rewrite IH.
Qed.

Lemma verify_link_of_hashes (h : IntegrityChain.Heap) (data : PyData)
    (timestamp : string) (a : nat) :
  IntegrityChain.verify_link data
    (IntegrityChain.link_of h
       (IntegrityChain.mkLinkObject (IntegrityChain.compute_data_hash data)
          (IntegrityChain.compute_chain_hash data) IntegrityChain.ROOT_HASH
          IntegrityChain.CID timestamp a)) = true.
Proof.
  unfold IntegrityChain.verify_link, IntegrityChain.link_of.
  cbn [root_hash cid data_hash chain_hash IntegrityChain.o_data_hash
         IntegrityChain.o_chain_hash IntegrityChain.o_root_hash
         IntegrityChain.o_cid].
  now rewrite !String.eqb_refl.
Qed.

Lemma forallb_pointwise {A : Type} (f g : A -> bool) (l : list A) :
  (forall x, f x = g x) -> forallb f l = forallb g l.
Proof.
  intros H. induction l as [|x l IH]; [reflexivity|].
  cbn. now rewrite H, IH.
Qed.

(** The loop keeps the heap's size, touches the metadata dicts only,
    and every link whose data is not the metadata dict of a later pair
    verifies against its data as the heap holds it at the end. *)
Lemma shared_batch_loop_verifies (clock : nat -> string)
    (pairs : list (IntegrityChain.DataObject * nat)) :
  forall (t : nat) (h : IntegrityChain.Heap),
  pairs_separate h pairs = true ->
  let '(links, h') := IntegrityChain.Shared.batch_loop clock t h pairs in
  List.length h' = List.length h
  /\ (forall b, ~ In b (map snd pairs) ->
      IntegrityChain.heap_get h' b = IntegrityChain.heap_get h b)
  /\ Forall2
       (fun p o =>
          IntegrityChain.verify_link (IntegrityChain.data_of h' (fst p))
            (IntegrityChain.link_of h' o) = true)
       pairs links.
Proof.
  unfold pairs_separate.
  induction pairs as [|[data a] pairs IH]; intros t h Hsep.
  - cbn. repeat split. constructor.
  - apply andb_true_iff in Hsep. destruct Hsep as [Hobj Hna].
    cbn [forallb fst snd] in Hobj.
    apply andb_true_iff in Hobj. destruct Hobj as [Hhead Hobj].
    apply andb_true_iff in Hhead. destruct Hhead as [Ha Hdata].
    apply Nat.ltb_lt in Ha.
    cbn [no_later_alias] in Hna.
    apply andb_true_iff in Hna. destruct Hna as [Hlater Hna].
    cbn [IntegrityChain.Shared.batch_loop].
    unfold IntegrityChain.Shared.create_link.
    set (h1 := IntegrityChain.heap_set h a _).
    assert (Hlen1 : List.length h1 = List.length h)
      by (apply heap_set_length; exact Ha).
    assert (Hsep1 :
      (forallb
         (fun p => (snd p <? List.length h1)%nat
                   && object_in h1 (fst p))%bool pairs
       && no_later_alias pairs)%bool = true).
    { rewrite Hna, andb_true_r. rewrite <- Hobj.
      apply forallb_pointwise. intros [d b]. cbn [fst snd].
      rewrite Hlen1. f_equal. destruct d; cbn [object_in];
        [reflexivity|now rewrite Hlen1]. }
    specialize (IH (S t) h1 Hsep1).
    destruct (IntegrityChain.Shared.batch_loop clock (S t) h1 pairs)
      as [links h'].
    destruct IH as (Hlen & Hframe & Hall).
    split; [congruence|]. split.
    + intros b Hb. cbn [map snd In] in Hb.
      rewrite Hframe by tauto.
      apply heap_get_set_other; [exact Ha|tauto].
    + constructor; [|exact Hall]. cbn [fst].
      assert (Hsame : IntegrityChain.data_of h' data
                      = IntegrityChain.data_of h1 data).
      { destruct data as [v|b]; cbn [IntegrityChain.data_of]; [reflexivity|].
        f_equal. apply Hframe. intros Hin.
        apply negb_true_iff in Hlater.
        assert (Hex : existsb (Nat.eqb b) (map snd pairs) = true)
          by (apply existsb_exists; exists b; split;
              [exact Hin|apply Nat.eqb_refl]).
        congruence. }
      rewrite Hsame. apply verify_link_of_hashes.
Qed.

Lemma Forall2_map_fst {A B C : Type} (P : A -> C -> Prop)
    (pairs : list (A * B)) (l : list C) :
  Forall2 (fun p o => P (fst p) o) pairs l -> Forall2 P (map fst pairs) l.
Proof.
  intros H. induction H as [|p o pairs l Hp _ IH]; cbn; constructor;
    assumption.
Qed.

Lemma forallb_combine_repeat (h : IntegrityChain.Heap)
    (data_list : list IntegrityChain.DataObject) (n : nat) :
  forallb (object_in h) data_list = true ->
  pairs_separate (h ++ [[]])
    (combine data_list (repeat (List.length h) n)) = true.
Proof.
  unfold pairs_separate. revert n.
  induction data_list as [|d data_list IH]; intros [|n] Hall;
    try reflexivity.
  cbn [forallb] in Hall. apply andb_true_iff in Hall.
  destruct Hall as [Hd Hall]. specialize (IH n Hall).
  apply andb_true_iff in IH. destruct IH as [IH1 IH2].
  cbn [repeat combine forallb fst snd no_later_alias].
  assert (Hlen : List.length (h ++ [[]]) = S (List.length h))
    by (rewrite length_app; cbn [List.length]; lia).
  apply andb_true_iff. split.
  - apply andb_true_iff. split; [|exact IH1].
    apply andb_true_iff. split.
    + apply Nat.ltb_lt. lia.
    + destruct d as [v|a]; cbn [object_in] in *; [reflexivity|].
      apply Nat.ltb_lt in Hd. apply Nat.ltb_lt. lia.
  - apply andb_true_iff. split; [|exact IH2].
    destruct d as [v|a]; [reflexivity|].
    cbn [object_in] in Hd. apply Nat.ltb_lt in Hd.
    apply negb_true_iff.
    destruct (existsb (Nat.eqb a)
                (map snd (combine data_list (repeat (List.length h) n))))
      eqn:E; [|reflexivity].
    apply existsb_exists in E. destruct E as (b & Hin & Hb).
    apply Nat.eqb_eq in Hb. subst b.
    apply in_map_iff in Hin. destruct Hin as ([d' b] & Hsnd & Hin).
    cbn [snd] in Hsnd. subst b.
    apply in_combine_r, repeat_spec in Hin. lia.
Qed.

(** X4.  [batch_create_links] makes one link per zipped pair: as many
    as there are data items when no metadata list is given, and as
    many as the shorter of the two lists otherwise, the data items
    beyond it being dropped without an error.  A data item is a value
    or a dict object whose entries are values, and may be a dict that
    is also passed as metadata; as long as no data item is the
    metadata dict of a later pair, each link made verifies against its
    data item as it is when the batch returns, in order. *)
Theorem batch_create_links_zip
    (clock : nat -> string) (t : nat) (h : IntegrityChain.Heap)
    (data_list : list IntegrityChain.DataObject)
    (metadata_list : option (list nat)) :
  let '(links, h') :=
    IntegrityChain.Shared.batch_create_links clock t h data_list
      metadata_list in
  List.length links
  = match metadata_list with
    | None => List.length data_list
    | Some l => Nat.min (List.length data_list) (List.length l)
    end
  /\ (batch_separate h data_list metadata_list = true ->
      Forall2
        (fun data o =>
           IntegrityChain.verify_link (IntegrityChain.data_of h' data)
             (IntegrityChain.link_of h' o) = true)
        (firstn (List.length links) data_list) links).
Proof.
  unfold IntegrityChain.Shared.batch_create_links, batch_separate.
  set (start := match metadata_list with
                | None =>
                    (repeat (List.length h) (List.length data_list),
                     (h ++ [[]])%list)
                | Some l => (l, h)
                end).
  assert (Hmin : Nat.min (List.length data_list) (List.length (fst start))
                 = match metadata_list with
                   | None => List.length data_list
                   | Some l => Nat.min (List.length data_list) (List.length l)
                   end).
  { unfold start. destruct metadata_list as [l|]; cbn [fst]; [reflexivity|].
    rewrite repeat_length. lia. }
  assert (Hsep : match metadata_list with
                 | None => forallb (object_in h) data_list
                 | Some l => pairs_separate h (combine data_list l)
                 end = true ->
                 pairs_separate (snd start) (combine data_list (fst start))
                 = true).
  { unfold start. destruct metadata_list as [l|]; cbn [fst snd]; [tauto|].
    apply forallb_combine_repeat. }
  destruct start as [mds h0]. cbn [fst snd] in Hmin, Hsep.
  pose proof (shared_batch_loop_length clock (combine data_list mds) t h0)
    as Hlen.
  pose proof (shared_batch_loop_verifies clock (combine data_list mds) t h0)
    as Hver.
  destruct (IntegrityChain.Shared.batch_loop clock t h0
              (combine data_list mds)) as [links h'].
  cbn [fst] in Hlen. rewrite Hlen, length_combine, Hmin.
  split; [reflexivity|].
  intros Hs. destruct (Hver (Hsep Hs)) as (_ & _ & Hall).
  rewrite <- Hmin, <- map_fst_combine. now apply Forall2_map_fst.
Qed.

Lemma batch_create_links_zip_witness :
  batch_separate [[("x"%string, JInt 1)]; []]
    [IntegrityChain.Object 0; IntegrityChain.Value (PyStr "b")]
    (Some [0%nat; 1%nat; 1%nat]) = true
  /\ let '(links, h') :=
       IntegrityChain.Shared.batch_create_links example_clock 0
         [[("x"%string, JInt 1)]; []]
         [IntegrityChain.Object 0; IntegrityChain.Value (PyStr "b")]
         (Some [0%nat; 1%nat; 1%nat]) in
     List.length links = 2%nat
     /\ Forall2
          (fun data o =>
             IntegrityChain.verify_link (IntegrityChain.data_of h' data)
               (IntegrityChain.link_of h' o) = true)
          [IntegrityChain.Object 0; IntegrityChain.Value (PyStr "b")] links.
Proof.
  split; [reflexivity|].
  pose proof (batch_create_links_zip example_clock 0
                [[("x"%string, JInt 1)]; []]
                [IntegrityChain.Object 0; IntegrityChain.Value (PyStr "b")]
                (Some [0%nat; 1%nat; 1%nat])) as H.
  destruct (IntegrityChain.Shared.batch_create_links example_clock 0
              [[("x"%string, JInt 1)]; []]
              [IntegrityChain.Object 0; IntegrityChain.Value (PyStr "b")]
              (Some [0%nat; 1%nat; 1%nat])) as [links h'].
  destruct H as [Hlen Hall]. split; [exact Hlen|].
  specialize (Hall eq_refl). rewrite Hlen in Hall. exact Hall.
Defined.

(** A data item that is the metadata dict of a later pair is changed
    after its link was made: with [d1 = {'x': 1}], the first link of
    [batch_create_links([d1, 'b'], [{}, d1])] does not verify against
    [d1] when the batch returns. *)
Example batch_create_links_aliased_data :
  batch_separate [[]; [("x"%string, JInt 1)]]
    [IntegrityChain.Object 1; IntegrityChain.Value (PyStr "b")]
    (Some [0%nat; 1%nat]) = false
  /\ let '(links, h') :=
       IntegrityChain.Shared.batch_create_links example_clock 0
         [[]; [("x"%string, JInt 1)]]
         [IntegrityChain.Object 1; IntegrityChain.Value (PyStr "b")]
         (Some [0%nat; 1%nat]) in
     map (fun o =>
            IntegrityChain.verify_link
              (IntegrityChain.data_of h' (IntegrityChain.Object 1))
              (IntegrityChain.link_of h' o))
       (firstn 1 links)
     = [false].
Proof. split; [reflexivity|]. vm_compute. reflexivity. Qed.

(** On data that are values, nothing of which is shared, the batch is
    the one of the model with immutable data. *)
Lemma batch_create_links_of_values
    (clock : nat -> string) (t : nat) (h : IntegrityChain.Heap)
    (data_list : list PyData) (metadata_list : option (list nat)) :
  IntegrityChain.Shared.batch_create_links clock t h
    (map IntegrityChain.Value data_list) metadata_list
  = IntegrityChain.batch_create_links clock t h data_list metadata_list.
Proof.
  unfold IntegrityChain.Shared.batch_create_links,
    IntegrityChain.batch_create_links.
  rewrite length_map.
  destruct (match metadata_list with
            | None =>
                (repeat (List.length h) (List.length data_list),
                 (h ++ [[]])%list)
            | Some l => (l, h)
            end) as [mds h0].
  rewrite <- shared_batch_loop_of_values. f_equal.
  revert mds. induction data_list as [|d data_list IH]; intros [|a mds];
    cbn; try reflexivity.
  now rewrite IH.
Qed.

Lemma combine_repeat_snd {A B : Type} (l : list A) (b : B) (n : nat) :
  Forall (fun p => snd p = b) (combine l (repeat b n)).
Proof.
  revert n. induction l as [|x l IH]; intros [|n]; cbn; constructor;
    [reflexivity|apply IH].
Qed.

Lemma batch_objects_timestamps (clock : nat -> string)
    (pairs : list (PyData * nat)) :
  forall t,
  map IntegrityChain.o_timestamp (batch_objects clock t pairs)
  = map (fun i => String.append (clock (t + i)%nat) "Z")
      (seq 0 (List.length pairs)).
Proof.
  induction pairs as [|[data a] pairs IH]; intros t; [reflexivity|].
  cbn [batch_objects map List.length seq IntegrityChain.o_timestamp].
  rewrite Nat.add_0_r. f_equal. rewrite IH, <- seq_shift, map_map.
  apply map_ext. intros i. do 2 f_equal. lia.
Qed.

Lemma batch_objects_addresses (clock : nat -> string) (a : nat)
    (pairs : list (PyData * nat)) :
  Forall (fun p => snd p = a) pairs ->
  forall t,
  Forall (fun o => IntegrityChain.o_metadata o = a)
    (batch_objects clock t pairs).
Proof.
  induction 1 as [|[data a'] pairs Ha Hall IH]; intros t; cbn;
    constructor; [exact Ha|apply IH].
Qed.

(** X5.  Without a metadata list, all links of a batch share one
    metadata dict.  The links are stamped with successive clock
    readings, but the [created_at] entry every one of them shows is
    the timestamp of the last link made. *)
Theorem batch_create_links_shared_metadata
    (clock : nat -> string) (t : nat) (h : IntegrityChain.Heap)
    (data_list : list PyData) :
  data_list <> [] ->
  let '(links, h') :=
    IntegrityChain.batch_create_links clock t h data_list None in
  map timestamp (map (IntegrityChain.link_of h') links)
  = map (fun i => String.append (clock (t + i)%nat) "Z")
      (seq 0 (List.length data_list))
  /\ Forall
       (fun o =>
          IntegrityChain.o_metadata o = List.length h
          /\ metadata (IntegrityChain.link_of h' o)
             = [("created_at"%string,
                 JStr (String.append
                         (clock (t + List.length data_list - 1)%nat) "Z"))])
       links.
Proof.
  intros Hne. unfold IntegrityChain.batch_create_links.
  set (a := List.length h).
  set (pairs := combine data_list (repeat a (List.length data_list))).
  assert (Hall : Forall (fun p => snd p = a) pairs)
    by apply combine_repeat_snd.
  assert (Hlen : List.length pairs = List.length data_list)
    by (unfold pairs; rewrite length_combine, repeat_length; lia).
  assert (Hpairs : pairs <> [])
    by (intros E; rewrite E in Hlen; destruct data_list;
        [congruence|discriminate]).
  assert (Ha : (a < List.length (h ++ [[]]))%nat)
    by (rewrite length_app; cbn; lia).
  pose proof (batch_loop_objects clock pairs t (h ++ [[]])) as Hobj.
  pose proof (batch_loop_shared_dict clock a pairs Hall Hpairs t
                (h ++ [[]]) Ha) as Hdict.
  destruct (IntegrityChain.batch_loop clock t (h ++ [[]]) pairs)
    as [links h'].
  cbn [fst snd] in Hobj, Hdict. subst links. split.
  - rewrite map_map. cbn [IntegrityChain.link_of timestamp].
    change (map (fun o => IntegrityChain.o_timestamp o)
              (batch_objects clock t pairs))
      with (map IntegrityChain.o_timestamp (batch_objects clock t pairs)).
    now rewrite batch_objects_timestamps, Hlen.
  - eapply Forall_impl; [|apply (batch_objects_addresses clock a pairs Hall)].
    intros o Ho. split; [exact Ho|].
    cbn [IntegrityChain.link_of metadata]. rewrite Ho, Hdict, Hlen.
    unfold IntegrityChain.heap_get, a.
    rewrite app_nth2, Nat.sub_diag by lia. reflexivity.
Qed.

Lemma batch_create_links_shared_metadata_witness :
  [PyStr "first"; PyStr "second"] <> []
  /\ let '(links, h') :=
       IntegrityChain.batch_create_links example_clock 0 []
         [PyStr "first"; PyStr "second"] None in
     map timestamp (map (IntegrityChain.link_of h') links)
     = ["2024-01-01T00:00:00Z"%string; "2024-01-01T00:00:01Z"%string]
     /\ map metadata (map (IntegrityChain.link_of h') links)
        = [[("created_at"%string, JStr "2024-01-01T00:00:01Z")];
           [("created_at"%string, JStr "2024-01-01T00:00:01Z")]].
Proof.
  assert (Hne : [PyStr "first"; PyStr "second"] <> []) by discriminate.
  split; [exact Hne|].
  pose proof (batch_create_links_shared_metadata example_clock 0 []
                [PyStr "first"; PyStr "second"] Hne) as H.
  destruct (IntegrityChain.batch_create_links example_clock 0 []
              [PyStr "first"; PyStr "second"] None) as [links h'] eqn:Hrun.
  destruct H as [Hts Hmd]. split; [exact Hts|].
  vm_compute in Hrun. injection Hrun as <- <-. vm_compute. reflexivity.
Defined.

(** ** Audit/log_capture.py: the session hash and the log store *)

Lemma append_assoc (a b c : string) :
  String.append (String.append a b) c = String.append a (String.append b c).
Proof. induction a as [|x a IH]; cbn; [reflexivity|now rewrite IH]. Qed.

Lemma find_app {A : Type} (f : A -> bool) (l1 l2 : list A) :
  find f (l1 ++ l2)
  = match find f l1 with
    | Some x => Some x
    | None => find f l2
    end.
Proof.
  induction l1 as [|x l1 IH]; cbn; [reflexivity|].
  destruct (f x); [reflexivity|exact IH].
Qed.

(** X6.  [capture] keeps the log store consistent: the log it returns
    verifies, it is appended after the stored logs, the index still
    counts one session per stored log, and the statistics report one
    log more with [integrity_verified] true. *)
Theorem capture_keeps_log_store
    (isoformat : Z -> string) (st : LogCapture.t) (uuid4 : string) (now : Z)
    (prompt origin control : string)
    (metadata : option Dict) :
  log_store_ok isoformat st ->
  let '(log, st') :=
    LogCapture.capture isoformat st uuid4 now prompt origin control metadata in
  LogCapture.verify_integrity isoformat log = true
  /\ LogCapture.load_all_logs st' = LogCapture.load_all_logs st ++ [log]
  /\ log_store_ok isoformat st'
  /\ LogCapture.st_total_logs (LogCapture.get_statistics isoformat st')
     = (LogCapture.st_total_logs (LogCapture.get_statistics isoformat st) + 1)%Z
  /\ LogCapture.integrity_verified (LogCapture.get_statistics isoformat st')
     = true.
Proof.
  intros (Htotal & Hlen & Hall).
  unfold LogCapture.capture, LogCapture._update_index,
    LogCapture._append_to_jsonl.
  set (log := mkInteractionLog _ _ _ _ _ _ _ _).
  assert (Hlog : LogCapture.verify_integrity isoformat log = true)
    by (unfold LogCapture.verify_integrity, log;
        cbn [log_session_id log_timestamp log_prompt response_origin
               response_control session_hash];
        apply String.eqb_refl).
  assert (Hall' : forallb (LogCapture.verify_integrity isoformat)
                    (LogCapture.log_file st ++ [log]) = true)
    by (rewrite forallb_app, Hall; cbn [forallb andb]; now rewrite Hlog).
  split; [exact Hlog|]. split; [reflexivity|]. split; [|split].
  - unfold log_store_ok.
    cbn [LogCapture.index LogCapture.log_file LogCapture.total_logs
           LogCapture.sessions].
    unfold len in *. rewrite !length_app. cbn [List.length].
    repeat split; [lia|lia|exact Hall'].
  - reflexivity.
  - exact Hall'.
Qed.

Lemma capture_keeps_log_store_witness :
  log_store_ok example_isoformat (LogCapture.init 0)
  /\ let '(log, st') :=
       LogCapture.capture example_isoformat (LogCapture.init 0) "id-1" 5
         "prompt" "hello world" "peace" None in
     LogCapture.verify_integrity example_isoformat log = true
     /\ LogCapture.load_all_logs st' = [log]
     /\ log_store_ok example_isoformat st'.
Proof.
  assert (H0 : log_store_ok example_isoformat (LogCapture.init 0))
    by (repeat split).
  split; [exact H0|].
  pose proof (capture_keeps_log_store example_isoformat (LogCapture.init 0)
                "id-1" 5 "prompt" "hello world" "peace" None H0) as H.
  destruct (LogCapture.capture example_isoformat (LogCapture.init 0) "id-1" 5
              "prompt" "hello world" "peace" None) as [log st'].
  destruct H as (Hv & Hl & Hok & _). repeat split; try assumption.
  apply Hok. apply Hok. apply Hok.
Defined.

(** X7.  Looking a session up after a capture: a log stored before
    under that identifier is still the one found; otherwise the new
    log is found exactly under its own identifier. *)
Theorem load_by_session_id_after_capture
    (isoformat : Z -> string) (st : LogCapture.t) (uuid4 : string) (now : Z)
    (prompt origin control : string)
    (metadata : option Dict) (session_id : string) :
  let '(log, st') :=
    LogCapture.capture isoformat st uuid4 now prompt origin control metadata in
  LogCapture.load_by_session_id st' session_id
  = match LogCapture.load_by_session_id st session_id with
    | Some stored => Some stored
    | None => if String.eqb uuid4 session_id then Some log else None
    end.
Proof.
  unfold LogCapture.capture, LogCapture.load_by_session_id,
    LogCapture.load_all_logs, LogCapture._update_index,
    LogCapture._append_to_jsonl.
  cbn [LogCapture.log_file]. rewrite find_app.
  destruct (find _ (LogCapture.log_file st)); [reflexivity|].
  cbn [find log_session_id]. now destruct (String.eqb uuid4 session_id).
Qed.

(** X8.  What the session hash does not tell apart.  The five fields
    are joined with ["|"] and not escaped, so text moved from the end
    of the prompt to the start of the origin response, across one
    ["|"], gives the same hash; and [verify_integrity] reads neither
    the metadata nor the [root_hash] field.  Two logs that differ in
    these ways get the same verdict. *)
Theorem session_hash_blind_spots
    (isoformat : Z -> string) (session_id : string) (timestamp : Timestamp)
    (p q origin control : string)
    (metadata metadata' : Dict) (root_hash' root_hash'' hash : string) :
  LogCapture._compute_session_hash session_id
    (LogCapture.timestamp_text isoformat timestamp)
    (String.append p (String.append "|" q)) origin control
  = LogCapture._compute_session_hash session_id
      (LogCapture.timestamp_text isoformat timestamp)
      p (String.append q (String.append "|" origin)) control
  /\ LogCapture.verify_integrity isoformat
       (mkInteractionLog session_id timestamp
          (String.append p (String.append "|" q)) origin
          control metadata root_hash' hash)
     = LogCapture.verify_integrity isoformat
         (mkInteractionLog session_id timestamp p
            (String.append q (String.append "|" origin))
            control metadata' root_hash'' hash).
Proof.
  assert (H : forall ts,
             LogCapture._compute_session_hash session_id ts
               (String.append p (String.append "|" q)) origin control
             = LogCapture._compute_session_hash session_id ts p
                 (String.append q (String.append "|" origin)) control).
  { intros ts. unfold LogCapture._compute_session_hash.
    now rewrite !append_assoc. }
  split; [apply H|].
  unfold LogCapture.verify_integrity.
  cbn [log_session_id log_timestamp log_prompt response_origin
         response_control session_hash].
  now rewrite H.
Qed.

(** ** Audit/degradation_monitor.py: results and counters *)

Lemma pairs_upto_spec (p : Z -> Z -> bool) (bound : nat) :
  pairs_upto p bound = true ->
  forall k n : Z, (0 <= k <= n)%Z -> (n <= Z.of_nat bound)%Z -> p k n = true.
Proof.
  unfold pairs_upto. intros H k n Hk Hn.
  pose proof (forall_upto_spec _ _ 0%Z H n ltac:(lia)) as Hrow.
  cbv beta in Hrow.
  pose proof (forall_upto_spec _ _ 0%Z Hrow k ltac:(lia)) as Hcell.
  cbv beta in Hcell. apply orb_true_iff in Hcell.
  destruct Hcell as [Hlt|Hok]; [|exact Hok].
  apply Z.ltb_lt in Hlt. lia.
Qed.

Lemma I_D_alert_ok_1000 : pairs_upto I_D_alert_ok 1000 = true.
Proof. vm_compute. reflexivity. Qed.

Lemma high_implies_medium (k n : Z) :
  (0 <= k <= n)%Z -> (n <= 1000)%Z ->
  PrimFloat.leb 0.25 (I_D_of k n) = true ->
  PrimFloat.leb 0.15 (I_D_of k n) = true.
Proof.
  intros Hk Hn H.
  pose proof (pairs_upto_spec _ 1000 I_D_alert_ok_1000 k n Hk
                ltac:(change (Z.of_nat 1000) with 1000%Z; exact Hn)) as Hok.
  unfold I_D_alert_ok in Hok.
  change DegradationMonitor.HIGH_THRESHOLD with 0.25%float in Hok.
  change DegradationMonitor.MEDIUM_THRESHOLD with 0.15%float in Hok.
  rewrite H in Hok. exact Hok.
Qed.

(** What [monitor_interaction] returns, field by field. *)
Lemma monitor_interaction_Ok (rt : Runtime) (self self' : DegradationMonitor.t)
    (id prompt origin control : string) (r : MonitoringResult) :
  DegradationMonitor.monitor_interaction rt self id prompt origin control
  = Ok (r, self') ->
  DegradationIndexCalculator.calculate origin control = Ok (degradation r)
  /\ session_id r = id
  /\ r_timestamp r = Instant (utcnow rt (DegradationMonitor.clock self))
  /\ severity_level r
     = DegradationMonitor._determine_severity (I_D (degradation r))
  /\ intervention_detected r = PrimFloat.leb 0.4 (I_D (degradation r))
  /\ alert_triggered r = PrimFloat.leb 0.15 (I_D (degradation r))
  /\ m_I_D (metrics r) = I_D (degradation r)
  /\ m_dim_V_O (metrics r) = dim_V_O (degradation r)
  /\ m_dim_V_C (metrics r) = dim_V_C (degradation r)
  /\ m_dim_intersection (metrics r) = dim_intersection (degradation r)
  /\ DegradationMonitor.clock self' = S (DegradationMonitor.clock self)
  /\ DegradationMonitor.stats self'
     = DegradationMonitor._update_stats (DegradationMonitor.stats self) r.
Proof.
  unfold DegradationMonitor.monitor_interaction, bind.
  destruct (DegradationIndexCalculator.calculate origin control) as [d|e];
    [|discriminate].
  intros [= <- <-]. repeat split.
Qed.

(** X9.  In every result of [monitor_interaction] the severity, the
    two flags and the degradation status agree: an intervention is
    flagged exactly when the severity is CRITICAL, which is exactly
    when the status is the critical one; the severity is HIGH exactly
    when the status is the high one; an alert is triggered exactly
    when the severity is not LOW; and interference detected by the
    calculator always triggers an alert. *)
Theorem monitoring_result_consistent
    (rt : Runtime) (self self' : DegradationMonitor.t)
    (id prompt origin control : string) (r : MonitoringResult) :
  DegradationMonitor.monitor_interaction rt self id prompt origin control
  = Ok (r, self') ->
  (intervention_detected r = true <-> severity_level r = "CRITICAL"%string)
  /\ (severity_level r = "CRITICAL"%string
      <-> status (degradation r) = "INTERFERENCIA_CRITICA"%string)
  /\ (severity_level r = "HIGH"%string
      <-> status (degradation r) = "INTERFERENCIA_ALTA"%string)
  /\ (alert_triggered r = true <-> severity_level r <> "LOW"%string)
  /\ (interference_detected (degradation r) = true ->
      alert_triggered r = true).
Proof.
  intros H. apply monitor_interaction_Ok in H.
  destruct H as (Hcalc & _ & _ & Hsev & Hint & Halert & _).
  apply calculate_Ok in Hcalc. destruct Hcalc as (Hk & Hn & Hid & Hs).
  pose proof (critical_implies_high _ _ Hk Hn) as Hch.
  pose proof (high_implies_medium _ _ Hk Hn) as Hhm.
  rewrite <- Hid in Hch, Hhm.
  change DegradationIndexCalculator.CRITICAL_THRESHOLD with 0.4%float in Hch.
  change DegradationIndexCalculator.HIGH_THRESHOLD with 0.25%float in Hch.
  assert (Hst : status (degradation r) = fst (status_of (I_D (degradation r))))
    by now rewrite <- Hs.
  assert (Hfl : interference_detected (degradation r)
                = snd (status_of (I_D (degradation r))))
    by now rewrite <- Hs.
  rewrite Hsev, Hint, Halert, Hst, Hfl.
  unfold DegradationMonitor._determine_severity, status_of.
  change DegradationMonitor.CRITICAL_THRESHOLD with 0.4%float.
  change DegradationMonitor.HIGH_THRESHOLD with 0.25%float.
  change DegradationMonitor.MEDIUM_THRESHOLD with 0.15%float.
  change DegradationIndexCalculator.CRITICAL_THRESHOLD with 0.4%float.
  change DegradationIndexCalculator.HIGH_THRESHOLD with 0.25%float.
  destruct (PrimFloat.leb 0.4 (I_D (degradation r))) eqn:Hc.
  - rewrite (Hhm (Hch eq_refl)). cbn [fst snd].
    repeat split; intros; congruence.
  - destruct (PrimFloat.leb 0.25 (I_D (degradation r))) eqn:Hh.
    + rewrite (Hhm eq_refl). cbn [fst snd].
      repeat split; intros; congruence.
    + destruct (PrimFloat.leb 0.15 (I_D (degradation r))); cbn [fst snd];
        repeat split; intros; congruence.
Qed.

Lemma monitoring_result_consistent_witness :
  (exists r self',
     DegradationMonitor.monitor_interaction example_runtime
       DegradationMonitor.init "s1" "prompt" "hello world hello" "world peace"
     = Ok (r, self')
     /\ intervention_detected r = true
     /\ severity_level r = "CRITICAL"%string
     /\ status (degradation r) = "INTERFERENCIA_CRITICA"%string).
Proof.
  destruct (DegradationMonitor.monitor_interaction example_runtime
              DegradationMonitor.init "s1" "prompt" "hello world hello"
              "world peace") as [[r self']|e] eqn:Hrun;
    [|vm_compute in Hrun; discriminate].
  exists r, self'. split; [reflexivity|].
  pose proof (monitoring_result_consistent _ _ _ _ _ _ _ _ Hrun)
    as (H1 & H2 & _).
  assert (Hi : intervention_detected r = true)
    by (vm_compute in Hrun; injection Hrun as <- _; reflexivity).
  split; [exact Hi|]. split; [now apply H1|]. apply H2. now apply H1.
Defined.

Lemma determine_severity_critical (i : float) :
  PrimFloat.leb 0.4 i = true
  <-> DegradationMonitor._determine_severity i = "CRITICAL"%string.
Proof.
  unfold DegradationMonitor._determine_severity.
  change DegradationMonitor.CRITICAL_THRESHOLD with 0.4%float.
  destruct (PrimFloat.leb 0.4 i); [tauto|].
  repeat match goal with
         | |- context [if ?c then _ else _] => destruct c
         end; split; intros; congruence.
Qed.

Lemma update_stats_ok (s : DegradationMonitor.Stats) (r : MonitoringResult) :
  (intervention_detected r = true <-> severity_level r = "CRITICAL"%string) ->
  stats_ok s ->
  stats_ok (DegradationMonitor._update_stats s r)
  /\ DegradationMonitor.total_monitored (DegradationMonitor._update_stats s r)
     = (DegradationMonitor.total_monitored s + 1)%Z
  /\ DegradationMonitor.interventions_detected
       (DegradationMonitor._update_stats s r)
     = (DegradationMonitor.interventions_detected s
        + len (filter intervention_detected [r]))%Z.
Proof.
  intros Hflag Hs. unfold stats_ok in *.
  unfold DegradationMonitor._update_stats, len. cbn [filter].
  destruct (intervention_detected r) eqn:Hi.
  - rewrite (proj1 Hflag eq_refl). cbn. lia.
  - assert (Hne : severity_level r <> "CRITICAL"%string)
      by (intros Heq; apply Hflag in Heq; discriminate).
    apply String.eqb_neq in Hne. rewrite Hne.
    repeat match goal with
           | |- context [if ?c then _ else _] => destruct c
           end; cbn; lia.
Qed.

Lemma filter_length_cons {A : Type} (f : A -> bool) (x : A) (l : list A) :
  len (filter f (x :: l)) = (len (filter f [x]) + len (filter f l))%Z.
Proof. unfold len. cbn. destruct (f x); cbn [List.length]; lia. Qed.

(** X10.  The monitor's counters stay consistent over a batch: started
    from counters that add up, [batch_monitor] leaves counters that add
    up, the total has grown by the number of logs, and
    [interventions_detected] has grown by the number of results flagged
    as interventions (the ones [get_interventions] returns); the two
    rates of [get_statistics] are then the same number. *)
Theorem batch_monitor_counters (rt : Runtime) (logs : list InteractionLog) :
  forall (self self' : DegradationMonitor.t) (results : list MonitoringResult),
  stats_ok (DegradationMonitor.stats self) ->
  DegradationMonitor.batch_monitor rt self logs = Ok (results, self') ->
  stats_ok (DegradationMonitor.stats self')
  /\ DegradationMonitor.total_monitored (DegradationMonitor.stats self')
     = (DegradationMonitor.total_monitored (DegradationMonitor.stats self)
        + len logs)%Z
  /\ DegradationMonitor.interventions_detected (DegradationMonitor.stats self')
     = (DegradationMonitor.interventions_detected (DegradationMonitor.stats self)
        + len (filter intervention_detected results))%Z
  /\ DegradationMonitor.get_interventions rt self logs
     = Ok (filter intervention_detected results, self')
  /\ DegradationMonitor.intervention_rate_percentage
       (DegradationMonitor.get_statistics self')
     = DegradationMonitor.critical_rate_percentage
         (DegradationMonitor.get_statistics self').
Proof.
  assert (Hmain : forall self self' results,
    stats_ok (DegradationMonitor.stats self) ->
    DegradationMonitor.batch_monitor rt self logs = Ok (results, self') ->
    stats_ok (DegradationMonitor.stats self')
    /\ DegradationMonitor.total_monitored (DegradationMonitor.stats self')
       = (DegradationMonitor.total_monitored (DegradationMonitor.stats self)
          + len logs)%Z
    /\ DegradationMonitor.interventions_detected
         (DegradationMonitor.stats self')
       = (DegradationMonitor.interventions_detected
            (DegradationMonitor.stats self)
          + len (filter intervention_detected results))%Z).
  { induction logs as [|log logs IH]; intros self self' results Hs.
    - cbn. intros [= <- <-]. unfold len. cbn. split; [exact Hs|]. split; lia.
    - cbn [DegradationMonitor.batch_monitor].
      destruct (DegradationMonitor.monitor_log rt self log)
        as [[r self1]|e] eqn:Hlog; cbn [bind]; [|discriminate].
      destruct (DegradationMonitor.batch_monitor rt self1 logs)
        as [[rs self2]|e] eqn:Hrest; cbn [bind]; [|discriminate].
      intros [= <- <-].
      unfold DegradationMonitor.monitor_log in Hlog.
      apply monitor_interaction_Ok in Hlog.
      destruct Hlog as (_ & _ & _ & Hsev & Hint & _ & _ & _ & _ & _ & _ & Hst).
      assert (Hflag : intervention_detected r = true
                      <-> severity_level r = "CRITICAL"%string)
        by (rewrite Hsev, Hint; apply determine_severity_critical).
      destruct (update_stats_ok _ r Hflag Hs) as (Hs1 & Ht1 & Hi1).
      rewrite <- Hst in Hs1, Ht1, Hi1.
      destruct (IH _ _ _ Hs1 Hrest) as (Hs2 & Ht2 & Hi2).
      split; [exact Hs2|].
      rewrite Ht2, Hi2, Ht1, Hi1, (filter_length_cons _ r rs).
      unfold len. cbn [List.length]. lia. }
  intros self self' results Hs Hrun.
  destruct (Hmain _ _ _ Hs Hrun) as (Hs' & Ht & Hi).
  split; [exact Hs'|]. split; [exact Ht|]. split; [exact Hi|]. split.
  - unfold DegradationMonitor.get_interventions. now rewrite Hrun.
  - unfold DegradationMonitor.get_statistics.
    destruct Hs' as (_ & -> & _).
    now destruct (0 <? _)%Z.
Qed.

Lemma batch_monitor_counters_witness :
  stats_ok (DegradationMonitor.stats DegradationMonitor.init)
  /\ exists results self',
       DegradationMonitor.batch_monitor example_runtime
         DegradationMonitor.init example_logs = Ok (results, self')
       /\ DegradationMonitor.total_monitored (DegradationMonitor.stats self')
          = 3%Z
       /\ stats_ok (DegradationMonitor.stats self').
Proof.
  assert (Hinit : stats_ok (DegradationMonitor.stats DegradationMonitor.init))
    by (unfold stats_ok; cbn; lia).
  split; [exact Hinit|].
  destruct (DegradationMonitor.batch_monitor example_runtime
              DegradationMonitor.init example_logs)
    as [[results self']|e] eqn:Hrun; [|vm_compute in Hrun; discriminate].
  exists results, self'. split; [reflexivity|].
  destruct (batch_monitor_counters _ _ _ _ _ Hinit Hrun) as (Hs & Ht & _).
  split; [|exact Hs]. rewrite Ht. reflexivity.
Defined.

Lemma batch_monitor_in_order_aux (rt : Runtime) (logs : list InteractionLog) :
  forall (self self' : DegradationMonitor.t) (results : list MonitoringResult),
  DegradationMonitor.batch_monitor rt self logs = Ok (results, self') ->
  map r_timestamp results
  = map (fun i => Instant (utcnow rt (DegradationMonitor.clock self + i)))
      (seq 0 (List.length logs))
  /\ DegradationMonitor.clock self'
     = (DegradationMonitor.clock self + List.length logs)%nat.
Proof.
  induction logs as [|log logs IH]; intros self self' results.
  - cbn. intros [= <- <-]. cbn. split; [reflexivity|lia].
  - cbn [DegradationMonitor.batch_monitor].
    destruct (DegradationMonitor.monitor_log rt self log)
      as [[r self1]|e] eqn:Hlog; cbn [bind]; [|discriminate].
    destruct (DegradationMonitor.batch_monitor rt self1 logs)
      as [[rs self2]|e] eqn:Hrest; cbn [bind]; [|discriminate].
    intros [= <- <-].
    unfold DegradationMonitor.monitor_log in Hlog.
    apply monitor_interaction_Ok in Hlog.
    destruct Hlog as (_ & _ & Hts & _ & _ & _ & _ & _ & _ & _ & Hck & _).
    destruct (IH _ _ _ Hrest) as (Htss & Hcks).
    cbn [map List.length seq]. rewrite Hts, Htss, Hcks, Hck.
    rewrite <- seq_shift, map_map, Nat.add_0_r.
    split; [|lia].
    f_equal. apply map_ext. intros i. do 2 f_equal. lia.
Qed.

(** X11.  [batch_monitor] returns one result per log, in the order of
    the logs: the session ids are the logs', each degradation is what
    [calculate] gives on that log's two responses, and the timestamps
    are the successive clock readings taken while monitoring, whatever
    timestamps the logs carry. *)
Theorem batch_monitor_in_order (rt : Runtime) (logs : list InteractionLog) :
  forall (self self' : DegradationMonitor.t) (results : list MonitoringResult),
  DegradationMonitor.batch_monitor rt self logs = Ok (results, self') ->
  map session_id results = map log_session_id logs
  /\ map (fun r => Ok (degradation r)) results
     = map (fun log => DegradationIndexCalculator.calculate
                         (response_origin log) (response_control log)) logs
  /\ map r_timestamp results
     = map (fun i => Instant (utcnow rt (DegradationMonitor.clock self + i)))
         (seq 0 (List.length logs))
  /\ DegradationMonitor.clock self'
     = (DegradationMonitor.clock self + List.length logs)%nat.
Proof.
  induction logs as [|log logs IH]; intros self self' results.
  - cbn. intros [= <- <-]. cbn. repeat split. lia.
  - cbn [DegradationMonitor.batch_monitor].
    destruct (DegradationMonitor.monitor_log rt self log)
      as [[r self1]|e] eqn:Hlog; cbn [bind]; [|discriminate].
    destruct (DegradationMonitor.batch_monitor rt self1 logs)
      as [[rs self2]|e] eqn:Hrest; cbn [bind]; [|discriminate].
    intros [= <- <-].
    unfold DegradationMonitor.monitor_log in Hlog.
    apply monitor_interaction_Ok in Hlog.
    destruct Hlog as (Hcalc & Hid & Hts & _ & _ & _ & _ & _ & _ & _ & Hck & _).
    destruct (IH _ _ _ Hrest) as (Hids & Hds & Htss & Hcks).
    cbn [map List.length seq]. rewrite Hid, Hids, Hcalc, Hds, Hts, Htss, Hcks, Hck.
    rewrite <- seq_shift, map_map, Nat.add_0_r.
    repeat split; try lia.
    f_equal. apply map_ext. intros i. do 2 f_equal. lia.
Qed.

Lemma batch_monitor_in_order_witness :
  exists results self',
    DegradationMonitor.batch_monitor example_runtime DegradationMonitor.init
      example_logs = Ok (results, self')
    /\ map session_id results
       = ["session"%string; "session"%string; "session"%string]
    /\ map r_timestamp results
       = [Instant 0; Instant 86400000000; Instant 172800000000]
    /\ DegradationMonitor.clock self' = 3%nat.
Proof.
  destruct (DegradationMonitor.batch_monitor example_runtime
              DegradationMonitor.init example_logs)
    as [[results self']|e] eqn:Hrun; [|vm_compute in Hrun; discriminate].
  exists results, self'. split; [reflexivity|].
  destruct (batch_monitor_in_order example_runtime example_logs
              DegradationMonitor.init self' results Hrun)
    as (Hids & _ & Hts & Hck).
  rewrite Hids, Hts, Hck. repeat split.
Defined.

(** X12.  A batch is all or nothing: [batch_monitor] returns (and so
    does [get_interventions]) exactly when no log of the batch has two
    token-less responses, whatever the monitor's state; one such log
    anywhere in the batch makes the whole call raise. *)
Theorem batch_monitor_returns_iff (rt : Runtime) (logs : list InteractionLog) :
  forall self : DegradationMonitor.t,
  ((exists results self',
      DegradationMonitor.batch_monitor rt self logs = Ok (results, self'))
   <-> Forall (fun log => ~ tokenless_log log) logs)
  /\ ((exists e, DegradationMonitor.batch_monitor rt self logs = Raise e)
      <-> Exists tokenless_log logs)
  /\ ((exists results self',
         DegradationMonitor.get_interventions rt self logs
         = Ok (results, self'))
      <-> Forall (fun log => ~ tokenless_log log) logs).
Proof.
  assert (Hok : forall self,
    (exists results self',
       DegradationMonitor.batch_monitor rt self logs = Ok (results, self'))
    <-> Forall (fun log => ~ tokenless_log log) logs).
  { induction logs as [|log logs IH]; intros self.
    - cbn. split; [constructor|eauto].
    - cbn [DegradationMonitor.batch_monitor]. split.
      + intros (results & self' & Hrun).
        destruct (DegradationMonitor.monitor_log rt self log)
          as [[r self1]|e] eqn:Hlog; cbn [bind] in Hrun; [|discriminate].
        destruct (DegradationMonitor.batch_monitor rt self1 logs)
          as [[rs self2]|e] eqn:Hrest; cbn [bind] in Hrun; [|discriminate].
        constructor; [|apply (IH self1); eauto].
        unfold DegradationMonitor.monitor_log in Hlog.
        apply monitor_interaction_Ok in Hlog. destruct Hlog as (Hcalc & _).
        apply (calculate_returns_iff (response_origin log)
                 (response_control log)). eauto.
      + intros Hall. inversion Hall as [|? ? Hlog Hrest]; subst.
        apply (calculate_returns_iff (response_origin log)
                 (response_control log)) in Hlog.
        destruct Hlog as [d Hd].
        unfold DegradationMonitor.monitor_log,
          DegradationMonitor.monitor_interaction.
        rewrite Hd. cbn [bind].
        match goal with
        | |- context [DegradationMonitor.batch_monitor rt ?s logs] =>
            destruct (proj2 (IH s) Hrest) as (rs & self2 & ->)
        end.
        cbn [bind]. eauto. }
  intros self. split; [apply Hok|]. split.
  - split.
    + intros [e He]. eapply batch_monitor_raises. exact He.
    + intros Hex.
      destruct (DegradationMonitor.batch_monitor rt self logs)
        as [[rs self']|e] eqn:Hrun; [|eauto].
      exfalso. assert (Hall : Forall (fun log => ~ tokenless_log log) logs)
        by (apply (Hok self); eauto).
      apply Exists_exists in Hex. destruct Hex as (log & Hin & Ht).
      rewrite Forall_forall in Hall. exact (Hall log Hin Ht).
  - rewrite <- (Hok self). unfold DegradationMonitor.get_interventions.
    destruct (DegradationMonitor.batch_monitor rt self logs)
      as [[rs self']|e]; cbn [bind].
    + split; eauto.
    + split; intros (? & ? & ?); discriminate.
Qed.

(** ** Audit/temporal_analysis.py: what a period's metrics depend on *)

Lemma batch_monitor_responses (rt : Runtime) (logs : list InteractionLog) :
  forall (logs' : list InteractionLog) (self : DegradationMonitor.t),
  map responses logs = map responses logs' ->
  match DegradationMonitor.batch_monitor rt self logs with
  | Ok (rs, s) =>
      exists rs', DegradationMonitor.batch_monitor rt self logs' = Ok (rs', s)
                  /\ Forall2 same_measure rs rs'
  | Raise e => DegradationMonitor.batch_monitor rt self logs' = Raise e
  end.
Proof.
  induction logs as [|log logs IH]; intros [|log' logs'] self Hmap;
    try discriminate.
  - cbn. eexists. split; [reflexivity|constructor].
  - cbn [map] in Hmap. unfold responses at 1 3 in Hmap.
    injection Hmap as Ho Hc Hmap.
    cbn [DegradationMonitor.batch_monitor].
    unfold DegradationMonitor.monitor_log,
      DegradationMonitor.monitor_interaction.
    rewrite <- Ho, <- Hc.
    destruct (DegradationIndexCalculator.calculate (response_origin log)
                (response_control log)) as [d|e]; cbn [bind]; [|reflexivity].
    match goal with
    | |- context [DegradationMonitor.batch_monitor rt ?s logs] =>
        specialize (IH logs' s Hmap);
        destruct (DegradationMonitor.batch_monitor rt s logs)
          as [[rs s2]|e] eqn:Hrest
    end; cbn [bind].
    + destruct IH as (rs' & Hrs' & Hall).
      unfold DegradationMonitor._update_stats in Hrs' |- *.
      cbn [intervention_detected severity_level] in Hrs' |- *.
      rewrite Hrs'. cbn [bind]. eexists. split; [reflexivity|].
      constructor; [|exact Hall]. repeat split.
    + unfold DegradationMonitor._update_stats in IH |- *.
      cbn [intervention_detected severity_level] in IH |- *.
      rewrite IH. reflexivity.
Qed.

Lemma same_measure_map {B : Type} (f : MonitoringResult -> B)
    (rs rs' : list MonitoringResult) :
  (forall r r', same_measure r r' -> f r = f r') ->
  Forall2 same_measure rs rs' -> map f rs = map f rs'.
Proof.
  intros Hf Hall. induction Hall as [|r r' rs rs' Hr _ IH]; [reflexivity|].
  cbn. now rewrite (Hf _ _ Hr), IH.
Qed.

Lemma same_measure_filter (rs rs' : list MonitoringResult) :
  Forall2 same_measure rs rs' ->
  len (filter intervention_detected rs) = len (filter intervention_detected rs').
Proof.
  intros Hall. induction Hall as [|r r' rs rs' Hr _ IH]; [reflexivity|].
  rewrite (filter_length_cons _ r rs), (filter_length_cons _ r' rs'), IH.
  destruct Hr as (_ & _ & Hi & _). unfold len. cbn [filter]. rewrite Hi.
  now destruct (intervention_detected r').
Qed.

(** X13.  A period's metrics depend on the logs only through their two
    responses, in order: logs with other session ids, prompts, metadata,
    hashes and, in particular, other timestamps give the same metrics
    and leave the monitor in the same state.  The period bounds and the
    trend are computed from the clock readings taken while
    monitoring. *)
Theorem analyze_period_reads_responses_only
    (rt : Runtime) (monitor : DegradationMonitor.t)
    (logs logs' : list InteractionLog) :
  map responses logs = map responses logs' ->
  TemporalAnalyzer.analyze_period rt monitor logs
  = TemporalAnalyzer.analyze_period rt monitor logs'.
Proof.
  intros Hmap.
  pose proof (batch_monitor_responses rt logs logs' monitor Hmap) as Hsim.
  assert (Hlen : len logs = len logs').
  { unfold len. f_equal.
    rewrite <- (length_map responses logs), Hmap. apply length_map. }
  unfold TemporalAnalyzer.analyze_period.
  destruct logs as [|log logs]; destruct logs' as [|log' logs'];
    try discriminate; [reflexivity|].
  destruct (DegradationMonitor.batch_monitor rt monitor (log :: logs))
    as [[rs s]|e].
  - destruct Hsim as (rs' & -> & Hall). cbn [bind].
    rewrite (same_measure_map (fun r => I_D (degradation r)) rs rs'), 
      (same_measure_map r_timestamp rs rs'), (same_measure_filter rs rs'),
      Hlen; try exact Hall.
    + assert (Hl : len rs = len rs')
        by (unfold len; f_equal; eapply Forall2_length; exact Hall).
      rewrite Hl.
      destruct Hall; reflexivity.
    + now intros r r' (H & _).
    + now intros r r' (_ & -> & _).
  - rewrite Hsim. reflexivity.
Qed.

Lemma analyze_period_reads_responses_only_witness :
  TemporalAnalyzer.analyze_period example_runtime DegradationMonitor.init
    [example_log "hello world" "peace"]
  = TemporalAnalyzer.analyze_period example_runtime DegradationMonitor.init
      [mkInteractionLog "another" (Instant 5) "why" "hello world" "peace"
         [("k"%string, JNull)] "root" "hash"].
Proof.
  apply analyze_period_reads_responses_only. reflexivity.
Defined.

Lemma filter_len_le {A : Type} (f : A -> bool) (l : list A) :
  (0 <= len (filter f l) <= len l)%Z.
Proof. unfold len. pose proof (filter_length_le f l). lia. Qed.

Lemma last_map_seq {B : Type} (f : nat -> B) (n : nat) (d : B) :
  last (map f (seq 0 (S n))) d = f n.
Proof.
  rewrite seq_S, map_app. cbn [map Nat.add]. apply last_last.
Qed.

(** X14.  The metrics of a period that is not empty: every log is
    counted, the interventions are between none and all of them, the
    period runs from the first to the last clock reading taken while
    monitoring (not the logs' timestamps), the monitor's clock and
    total advance by the number of logs, and a period of one log has
    slope 0, direction STABLE and deviation 0. *)
Theorem analyze_period_metrics (rt : Runtime)
    (monitor monitor' : DegradationMonitor.t)
    (logs : list InteractionLog) (m : TemporalMetrics) :
  logs <> [] ->
  TemporalAnalyzer.analyze_period rt monitor logs = Ok (m, monitor') ->
  total_interactions m = len logs
  /\ (0 <= interventions_count m <= total_interactions m)%Z
  /\ period_start m = Instant (utcnow rt (DegradationMonitor.clock monitor))
  /\ period_end m
     = Instant (utcnow rt (DegradationMonitor.clock monitor
                           + (List.length logs - 1)))
  /\ DegradationMonitor.clock monitor'
     = (DegradationMonitor.clock monitor + List.length logs)%nat
  /\ (List.length logs = 1%nat ->
      trend_slope m = 0%float /\ trend_direction m = "STABLE"%string
      /\ std_I_D m = 0%float).
Proof.
  intros Hne. unfold TemporalAnalyzer.analyze_period.
  destruct logs as [|log logs]; [congruence|].
  destruct (DegradationMonitor.batch_monitor rt monitor (log :: logs))
    as [[rs s]|e] eqn:Hrun; cbn [bind]; [|discriminate].
  pose proof (batch_monitor_length _ _ _ _ _ Hrun) as Hlen.
  destruct (batch_monitor_in_order_aux _ _ _ _ _ Hrun) as (Hts & Hck).
  intros [= <- <-].
  cbn [total_interactions interventions_count period_start period_end
         trend_slope trend_direction std_I_D].
  split; [reflexivity|]. split.
  { pose proof (filter_len_le intervention_detected rs) as Hf.
    unfold len in *. rewrite Hlen in Hf. exact Hf. }
  rewrite Hts. split; [cbn; now rewrite Nat.add_0_r|]. split.
  { cbn [List.length]. rewrite last_map_seq. do 3 f_equal. lia. }
  split; [exact Hck|].
  intros Hone. cbn [List.length] in Hone.
  destruct logs; [|discriminate].
  destruct rs as [|r [|r' rs]]; try discriminate.
  unfold TemporalAnalyzer._calculate_trend_slope, len. cbn [map List.length].
  change (Z.of_nat 1 <? 2)%Z with true. change (1 <? Z.of_nat 1)%Z with false.
  cbv iota. repeat split.
Qed.

Lemma analyze_period_metrics_witness :
  exists m monitor',
    TemporalAnalyzer.analyze_period example_runtime DegradationMonitor.init
      example_logs = Ok (m, monitor')
    /\ total_interactions m = 3%Z
    /\ period_start m = Instant 0
    /\ period_end m = Instant 172800000000.
Proof.
  destruct (TemporalAnalyzer.analyze_period example_runtime
              DegradationMonitor.init example_logs)
    as [[m monitor']|e] eqn:Hrun; [|vm_compute in Hrun; discriminate].
  exists m, monitor'. split; [reflexivity|].
  assert (Hne : example_logs <> []) by (unfold example_logs; discriminate).
  destruct (analyze_period_metrics example_runtime DegradationMonitor.init
              monitor' example_logs m Hne Hrun) as (Ht & _ & Hs & He & _).
  rewrite Ht, Hs, He. vm_compute. repeat split.
Defined.

Lemma analyze_period_counts (rt : Runtime)
    (monitor monitor' : DegradationMonitor.t)
    (logs : list InteractionLog) (m : TemporalMetrics) :
  TemporalAnalyzer.analyze_period rt monitor logs = Ok (m, monitor') ->
  (0 <= interventions_count m <= len logs)%Z
  /\ DegradationMonitor.clock monitor'
     = (DegradationMonitor.clock monitor + List.length logs)%nat
  /\ (logs = [] -> PrimFloat.ltb 0 (mean_I_D m) = false)
  /\ Forall (fun log => ~ tokenless_log log) logs.
Proof.
  unfold TemporalAnalyzer.analyze_period.
  destruct logs as [|log logs].
  - intros [= <- <-]. cbn. unfold len. cbn.
    repeat split; try lia. constructor.
  - destruct (DegradationMonitor.batch_monitor rt monitor (log :: logs))
      as [[rs s]|e] eqn:Hrun; cbn [bind]; [|discriminate].
    pose proof (batch_monitor_length _ _ _ _ _ Hrun) as Hlen.
    destruct (batch_monitor_in_order_aux _ _ _ _ _ Hrun) as (_ & Hck).
    intros [= <- <-]. cbn [interventions_count]. split.
    { pose proof (filter_len_le intervention_detected rs) as Hf.
      unfold len in *. rewrite Hlen in Hf. exact Hf. }
    split; [exact Hck|]. split; [discriminate|].
    clear Hlen Hck. revert monitor rs s Hrun.
    generalize (log :: logs) as l. clear log logs.
    induction l as [|log l IH]; intros monitor rs s; [constructor|].
    cbn [DegradationMonitor.batch_monitor].
    destruct (DegradationMonitor.monitor_log rt monitor log)
      as [[r s1]|e] eqn:Hlog; cbn [bind]; [|discriminate].
    destruct (DegradationMonitor.batch_monitor rt s1 l)
      as [[rs' s2]|e] eqn:Hrest; cbn [bind]; [|discriminate].
    intros _. constructor; [|eapply IH; exact Hrest].
    unfold DegradationMonitor.monitor_log in Hlog.
    apply monitor_interaction_Ok in Hlog. destruct Hlog as (Hcalc & _).
    apply (calculate_returns_iff (response_origin log) (response_control log)).
    eauto.
Qed.

(** X15.  [compare_periods] analyses the second period with the monitor
    the first one leaves: when it returns, no log of either period has
    two token-less responses, the clock has advanced by the number of
    logs of both periods, the change in interventions is the second
    count minus the first and lies between minus the size of the first
    period and the size of the second, and an empty first period gives
    a mean change of 0 instead of a division by zero. *)
Theorem compare_periods_changes (rt : Runtime)
    (monitor monitor' : DegradationMonitor.t)
    (period1_logs period2_logs : list InteractionLog)
    (c : TemporalAnalyzer.Comparison) :
  TemporalAnalyzer.compare_periods rt monitor period1_logs period2_logs
  = Ok (c, monitor') ->
  Forall (fun log => ~ tokenless_log log) (period1_logs ++ period2_logs)
  /\ DegradationMonitor.clock monitor'
     = (DegradationMonitor.clock monitor
        + List.length (period1_logs ++ period2_logs))%nat
  /\ TemporalAnalyzer.interventions_change c
     = (interventions_count (TemporalAnalyzer.period2 c)
        - interventions_count (TemporalAnalyzer.period1 c))%Z
  /\ (- len period1_logs <= TemporalAnalyzer.interventions_change c
      <= len period2_logs)%Z
  /\ (period1_logs = [] ->
      TemporalAnalyzer.mean_I_D_change_percentage c = 0%float).
Proof.
  unfold TemporalAnalyzer.compare_periods.
  destruct (TemporalAnalyzer.analyze_period rt monitor period1_logs)
    as [[m1 s1]|e] eqn:H1; cbn [bind]; [|discriminate].
  destruct (TemporalAnalyzer.analyze_period rt s1 period2_logs)
    as [[m2 s2]|e] eqn:H2; cbn [bind]; [|discriminate].
  intros [= <- <-].
  apply analyze_period_counts in H1, H2.
  destruct H1 as (Hc1 & Hk1 & Hz1 & Ht1). destruct H2 as (Hc2 & Hk2 & _ & Ht2).
  cbn [TemporalAnalyzer.interventions_change TemporalAnalyzer.period1
         TemporalAnalyzer.period2 TemporalAnalyzer.mean_I_D_change_percentage].
  split; [apply Forall_app; split; assumption|].
  split; [rewrite length_app; lia|].
  split; [reflexivity|]. split; [lia|].
  intros Hnil. now rewrite (Hz1 Hnil).
Qed.

Lemma compare_periods_changes_witness :
  exists c monitor',
    TemporalAnalyzer.compare_periods example_runtime DegradationMonitor.init
      [] example_logs = Ok (c, monitor')
    /\ DegradationMonitor.clock monitor' = 3%nat
    /\ TemporalAnalyzer.mean_I_D_change_percentage c = 0%float.
Proof.
  destruct (TemporalAnalyzer.compare_periods example_runtime
              DegradationMonitor.init [] example_logs)
    as [[c monitor']|e] eqn:Hrun; [|vm_compute in Hrun; discriminate].
  exists c, monitor'. split; [reflexivity|].
  destruct (compare_periods_changes example_runtime DegradationMonitor.init
              monitor' [] example_logs c Hrun) as (_ & Hk & _ & _ & Hz).
  split; [exact Hk|]. apply Hz. reflexivity.
Defined.

(** ** Core/degradation_index.py: texts with the same tokens, texts
    without tokens *)

Lemma np_and_same (mask : list bool) :
  SemanticVectorSpace.np_and mask mask = mask.
Proof.
  unfold SemanticVectorSpace.np_and.
  induction mask as [|b mask IH]; [reflexivity|].
  cbn [combine map fst snd]. rewrite IH. now destruct b.
Qed.

Lemma I_D_disjoint_1000 : forall_upto 1001 0 I_D_disjoint_ok = true.
Proof. vm_compute. reflexivity. Qed.

Lemma I_D_disjoint (n : Z) :
  (0 < n <= 1000)%Z -> PrimFloat.eqb (I_D_of 0 n) 1 = true.
Proof.
  intros Hn.
  pose proof (forall_upto_spec 1001 I_D_disjoint_ok 0 I_D_disjoint_1000 n
                ltac:(lia)) as H.
  unfold I_D_disjoint_ok in H. apply orb_true_iff in H.
  destruct H as [H|H]; [apply Z.eqb_eq in H; lia|exact H].
Qed.

(** X16.  The index sees a text through its lower-cased tokens only:
    two responses with the same token sequence (they may differ in
    case, punctuation and spacing, or be the same text) have equal
    dimensions, all of them shared, an index equal to 0, and the status
    ESTABLE without interference. *)
Theorem calculate_same_tokens (text_origin text_control : string)
    (r : DegradationResult) :
  Tfidf.tokenize (lower text_origin) = Tfidf.tokenize (lower text_control) ->
  DegradationIndexCalculator.calculate text_origin text_control = Ok r ->
  dim_V_C r = dim_V_O r /\ dim_intersection r = dim_V_O r
  /\ PrimFloat.eqb (I_D r) 0 = true
  /\ status r = "ESTABLE"%string /\ interference_detected r = false.
Proof.
  intros Htok Hcalc.
  pose proof (calculate_Ok _ _ _ Hcalc) as (Hk & Hn & Hid & Hs).
  assert (Hdims : dim_V_C r = dim_V_O r /\ dim_intersection r = dim_V_O r).
  { revert Hcalc.
    unfold DegradationIndexCalculator.calculate,
      SemanticVectorSpace.fit_transform, Tfidf.fit_transform, bind.
    unfold Tfidf.analyze. rewrite Htok.
    destruct (Tfidf.vocabulary _ _) as [|t vocab]; [discriminate|].
    cbn [SemanticVectorSpace.dimensionality_intersection
           SemanticVectorSpace.V_O SemanticVectorSpace.V_C
           SemanticVectorSpace.dim_V_O SemanticVectorSpace.dim_V_C
           SemanticVectorSpace.dim_intersection].
    rewrite np_and_same.
    cbv beta iota zeta.
    repeat match goal with
           | |- context [if ?c then _ else _] => destruct c
           end; intros [= <-]; split; reflexivity. }
  destruct Hdims as (HC & HI).
  destruct (I_D_facts _ _ Hk Hn) as (_ & _ & Hz & Hc & Hh & _).
  rewrite <- Hid in Hz, Hc, Hh. rewrite HI in Hz, Hc, Hh.
  rewrite Z.eqb_refl in Hz.
  assert (Hc' : PrimFloat.leb DegradationIndexCalculator.CRITICAL_THRESHOLD
                  (I_D r) = false).
  { rewrite Hc. destruct (dim_V_O r =? 0)%Z eqn:E; [reflexivity|].
    apply Z.eqb_neq in E. cbn [negb andb]. apply Z.leb_gt. lia. }
  assert (Hh' : PrimFloat.leb DegradationIndexCalculator.HIGH_THRESHOLD
                  (I_D r) = false).
  { rewrite Hh. destruct (dim_V_O r =? 0)%Z eqn:E; [reflexivity|].
    apply Z.eqb_neq in E. cbn [negb andb]. apply Z.leb_gt. lia. }
  unfold status_of in Hs. rewrite Hc', Hh' in Hs. injection Hs as Hs Hf.
  repeat split; assumption.
Qed.

Lemma calculate_same_tokens_witness :
  exists r,
    DegradationIndexCalculator.calculate "Hello, World!" "hello   world" = Ok r
    /\ dim_intersection r = dim_V_O r /\ status r = "ESTABLE"%string.
Proof.
  destruct (DegradationIndexCalculator.calculate "Hello, World!"
              "hello   world") as [r|e] eqn:Hrun;
    [|vm_compute in Hrun; discriminate].
  exists r. split; [reflexivity|].
  destruct (calculate_same_tokens "Hello, World!" "hello   world" r
              ltac:(vm_compute; reflexivity) Hrun) as (_ & HI & _ & Hs & _).
  split; assumption.
Defined.

Lemma row_of_no_terms (features terms_a terms_b : list string) :
  Tfidf.row features terms_a terms_b [] = map (fun _ => 0%float) features.
Proof.
  unfold Tfidf.row.
  replace (map _ features) with (map (fun _ : string => 0%float) features).
  - unfold Tfidf.normalize. now rewrite squares_of_zeros.
  - apply map_ext. intros t. cbn [Tfidf.tf count_occ]. now rewrite zero_weight.
Qed.

Lemma np_and_zeros_r {A : Type} (mask : list bool) (l : list A) :
  SemanticVectorSpace.np_sum
    (SemanticVectorSpace.np_and mask
       (SemanticVectorSpace.active (map (fun _ : A => 0%float) l))) = 0%Z.
Proof.
  unfold SemanticVectorSpace.np_and, SemanticVectorSpace.active.
  revert l. induction mask as [|b mask IH]; intros [|x l]; try reflexivity.
  cbn [map combine fst snd]. rewrite np_sum_cons.
  unfold SemanticVectorSpace.active in IH. rewrite IH.
  change (PrimFloat.ltb SemanticVectorSpace.threshold (PrimFloat.abs 0))
    with false.
  now rewrite andb_false_r.
Qed.

(** X17.  The index is not symmetric in its two texts.  When one text
    has no token and the other has some, [calculate] returns both ways:
    with the token-less text as origin the result is ESTABLE with an
    index of 0, whatever the control says; with the token-less text as
    control nothing is active or shared in the control, and as soon as
    one origin term is active the index equals 1 with the status
    INTERFERENCIA_CRITICA. *)
Theorem calculate_one_text_tokenless (empty text : string) :
  tokenless empty -> ~ tokenless text ->
  exists r r',
    DegradationIndexCalculator.calculate empty text = Ok r
    /\ DegradationIndexCalculator.calculate text empty = Ok r'
    /\ dim_V_O r = 0%Z /\ PrimFloat.eqb (I_D r) 0 = true
    /\ status r = "ESTABLE"%string /\ interference_detected r = false
    /\ dim_V_C r' = 0%Z /\ dim_intersection r' = 0%Z
    /\ (dim_V_O r' <> 0%Z ->
        PrimFloat.eqb (I_D r') 1 = true
        /\ status r' = "INTERFERENCIA_CRITICA"%string
        /\ interference_detected r' = true).
Proof.
  intros He Ht.
  destruct (calculate_tokenless_origin empty text He Ht)
    as (r & Hr & Hi & HO & _ & Hs & Hf).
  assert (Hex : exists r',
            DegradationIndexCalculator.calculate text empty = Ok r').
  { apply calculate_returns_iff. tauto. }
  destruct Hex as [r' Hr'].
  exists r, r'. split; [exact Hr|]. split; [exact Hr'|].
  split; [exact HO|]. split; [now rewrite Hi|].
  split; [exact Hs|]. split; [exact Hf|].
  pose proof (calculate_Ok _ _ _ Hr') as (Hk & Hn & Hid & Hst).
  assert (Hdims : dim_V_C r' = 0%Z /\ dim_intersection r' = 0%Z).
  { revert Hr'.
    unfold DegradationIndexCalculator.calculate,
      SemanticVectorSpace.fit_transform, Tfidf.fit_transform, bind.
    rewrite (tokenless_analyze _ He).
    destruct (Tfidf.vocabulary _ _) as [|t vocab]; [discriminate|].
    rewrite row_of_no_terms.
    cbn [SemanticVectorSpace.dimensionality_intersection
           SemanticVectorSpace.V_O SemanticVectorSpace.V_C
           SemanticVectorSpace.dim_V_O SemanticVectorSpace.dim_V_C
           SemanticVectorSpace.dim_intersection].
    rewrite np_sum_active_zeros, np_and_zeros_r.
    cbv beta iota zeta.
    repeat match goal with
           | |- context [if ?c then _ else _] => destruct c
           end; intros [= <-]; split; reflexivity. }
  destruct Hdims as (HC & HI). split; [exact HC|]. split; [exact HI|].
  intros Hpos. rewrite HI in Hid, Hk.
  assert (H1 : PrimFloat.eqb (I_D r') 1 = true)
    by (rewrite Hid; apply I_D_disjoint; lia).
  split; [exact H1|].
  destruct (I_D_facts 0 (dim_V_O r') Hk Hn) as (_ & _ & _ & Hc & _).
  rewrite <- Hid in Hc. unfold status_of in Hst. rewrite Hc in Hst.
  apply Z.eqb_neq in Hpos. rewrite Hpos in Hst.
  replace (2 * dim_V_O r' <=? 5 * (dim_V_O r' - 0))%Z with true in Hst
    by (symmetry; apply Z.leb_le; lia).
  cbn [negb andb] in Hst. injection Hst as Hs' Hf'. split; assumption.
Qed.

Lemma calculate_one_text_tokenless_witness :
  exists r r',
    DegradationIndexCalculator.calculate "" "hello world" = Ok r
    /\ DegradationIndexCalculator.calculate "hello world" "" = Ok r'
    /\ status r = "ESTABLE"%string /\ dim_V_C r' = 0%Z.
Proof.
  destruct (calculate_one_text_tokenless "" "hello world"
              ltac:(reflexivity) ltac:(vm_compute; discriminate))
    as (r & r' & Hr & Hr' & _ & _ & Hs & _ & HC & _).
  exists r, r'. repeat split; assumption.
Defined.

(** ** Core/semantic_vector_space.py: the analysis of a fitted space *)

Lemma np_sum_union_le (mask_a mask_b : list bool) :
  List.length mask_a = List.length mask_b ->
  (SemanticVectorSpace.np_sum mask_a + SemanticVectorSpace.np_sum mask_b
   <= SemanticVectorSpace.np_sum (SemanticVectorSpace.np_and mask_a mask_b)
      + len mask_a)%Z.
Proof.
  revert mask_b.
  induction mask_a as [|a mask_a IH]; intros [|b mask_b] Hlen;
    try discriminate Hlen.
  - unfold SemanticVectorSpace.np_sum, SemanticVectorSpace.np_and, len.
    simpl. lia.
  - injection Hlen as Hlen. specialize (IH mask_b Hlen).
    unfold SemanticVectorSpace.np_and in *. cbn [combine map fst snd].
    rewrite !np_sum_cons. unfold len in *. cbn [List.length].
    destruct a, b; cbn [andb]; lia.
Qed.

Lemma np_sum_and_le_r (mask_a mask_b : list bool) :
  (SemanticVectorSpace.np_sum (SemanticVectorSpace.np_and mask_a mask_b)
   <= SemanticVectorSpace.np_sum mask_b)%Z.
Proof.
  revert mask_b. induction mask_a as [|a mask_a IH]; intros [|b mask_b].
  - apply np_sum_nonneg.
  - apply np_sum_nonneg.
  - apply np_sum_nonneg.
  - specialize (IH mask_b).
    unfold SemanticVectorSpace.np_and in *. cbn [combine map fst snd].
    rewrite !np_sum_cons. destruct a, b; cbn [andb]; lia.
Qed.

Lemma in_firstn {A : Type} (n : nat) (l : list A) (x : A) :
  In x (firstn n l) -> In x l.
Proof.
  intros H. rewrite <- (firstn_skipn n l). apply in_or_app. now left.
Qed.

Lemma get_top_features_entries (self : SemanticVectorSpace.t)
    (names : list string) (vector : list float) (top_n : nat) :
  SemanticVectorSpace.feature_names self = Some names ->
  (List.length (SemanticVectorSpace.get_top_features self vector top_n)
   <= top_n)%nat
  /\ Forall (top_feature_of names vector)
       (SemanticVectorSpace.get_top_features self vector top_n).
Proof.
  intros Hnames. unfold SemanticVectorSpace.get_top_features.
  rewrite Hnames. split.
  - rewrite length_map.
    etransitivity; [apply filter_length_le|]. apply firstn_le_length.
  - apply Forall_forall. intros p Hin.
    apply in_map_iff in Hin. destruct Hin as (idx & <- & Hin).
    apply filter_In in Hin. destruct Hin as (Hin & Hpos).
    split; [exact Hpos|]. exists idx. split; [|reflexivity].
    apply in_firstn, in_rev in Hin.
    eapply Permutation_in in Hin;
      [|apply Permutation_sym, sort_by_perm].
    apply in_seq in Hin. lia.
Qed.

(** X18.  Once [fit_transform] has returned, [analyze_semantic_overlap]
    returns, and its report is coherent: both vectors have one
    component per feature name and at most [max_features] of them; the
    shared dimensions are at most the dimensions of either text, and
    the dimensions active in one text or the other are at most the
    number of features; the overlap ratio is 0 when no origin dimension
    is active; each list of top features has at most ten entries, each
    a feature name with its weight in that text's vector, all weights
    above zero. *)
Theorem analyze_semantic_overlap_after_fit
    (log : float -> float) (self self' : SemanticVectorSpace.t)
    (a b : string) (v_o v_c : list float) :
  SemanticVectorSpace.fit_transform self a b = Ok (self', (v_o, v_c)) ->
  exists (o : SemanticVectorSpace.Overlap) (names : list string),
    SemanticVectorSpace.analyze_semantic_overlap log self' = Ok o
    /\ SemanticVectorSpace.feature_names self' = Some names
    /\ List.length v_o = List.length names
    /\ List.length v_c = List.length names
    /\ (List.length names <= SemanticVectorSpace.max_features self)%nat
    /\ (0 <= SemanticVectorSpace.dim_intersection
               (SemanticVectorSpace.dimensionality o)
        <= SemanticVectorSpace.dim_V_O
             (SemanticVectorSpace.dimensionality o))%Z
    /\ (SemanticVectorSpace.dim_intersection
          (SemanticVectorSpace.dimensionality o)
        <= SemanticVectorSpace.dim_V_C
             (SemanticVectorSpace.dimensionality o))%Z
    /\ (SemanticVectorSpace.dim_V_O (SemanticVectorSpace.dimensionality o)
        + SemanticVectorSpace.dim_V_C (SemanticVectorSpace.dimensionality o)
        - SemanticVectorSpace.dim_intersection
            (SemanticVectorSpace.dimensionality o)
        <= len names)%Z
    /\ (SemanticVectorSpace.dim_V_O (SemanticVectorSpace.dimensionality o)
        = 0%Z -> SemanticVectorSpace.o_overlap_ratio o = 0%float)
    /\ (List.length (SemanticVectorSpace.top_features_origin o) <= 10)%nat
    /\ (List.length (SemanticVectorSpace.top_features_control o) <= 10)%nat
    /\ Forall (top_feature_of names v_o)
         (SemanticVectorSpace.top_features_origin o)
    /\ Forall (top_feature_of names v_c)
         (SemanticVectorSpace.top_features_control o).
Proof.
  unfold SemanticVectorSpace.fit_transform, bind.
  destruct (Tfidf.fit_transform _ a b) as [[[w_o w_c] names]|e] eqn:Hfit;
    [|discriminate].
  intros [= <- <- <-].
  apply Tfidf_fit_transform_shape in Hfit. destruct Hfit as (Ho & Hc & Hn).
  eexists. exists names.
  split; [reflexivity|]. split; [reflexivity|].
  split; [exact Ho|]. split; [exact Hc|]. split; [exact Hn|].
  cbn [SemanticVectorSpace.dimensionality SemanticVectorSpace.dim_V_O
         SemanticVectorSpace.dim_V_C SemanticVectorSpace.dim_intersection
         SemanticVectorSpace.o_overlap_ratio
         SemanticVectorSpace.top_features_origin
         SemanticVectorSpace.top_features_control].
  split; [split; [apply np_sum_nonneg|apply np_sum_and_le]|].
  split; [apply np_sum_and_le_r|].
  split.
  { pose proof (np_sum_union_le (SemanticVectorSpace.active w_o)
                  (SemanticVectorSpace.active w_c)
                  ltac:(rewrite !active_length; congruence)) as H.
    unfold len in *. rewrite active_length, Ho in H. lia. }
  split; [intros ->; reflexivity|].
  set (fitted := SemanticVectorSpace.mk _ _ _ _).
  destruct (get_top_features_entries fitted names w_o 10 eq_refl) as (? & ?).
  destruct (get_top_features_entries fitted names w_c 10 eq_refl) as (? & ?).
  repeat split; assumption.
Qed.

Lemma analyze_semantic_overlap_after_fit_witness :
  exists self' v_o v_c o,
    SemanticVectorSpace.fit_transform SemanticVectorSpace.default
      "hello world hello" "world peace" = Ok (self', (v_o, v_c))
    /\ SemanticVectorSpace.analyze_semantic_overlap (fun x => x) self' = Ok o
    /\ (List.length (SemanticVectorSpace.top_features_origin o) <= 10)%nat.
Proof.
  destruct (SemanticVectorSpace.fit_transform SemanticVectorSpace.default
              "hello world hello" "world peace")
    as [[self' [v_o v_c]]|e] eqn:Hfit; [|vm_compute in Hfit; discriminate].
  exists self', v_o, v_c.
  destruct (analyze_semantic_overlap_after_fit (fun x => x) _ _ _ _ _ _ Hfit)
    as (o & names & Ho & _ & _ & _ & _ & _ & _ & _ & _ & Hlen & _).
  exists o. split; [reflexivity|]. split; assumption.
Defined.

(** ** Core/truth_invariance.py: the perturbed prompts *)

Lemma lower_length (s : string) : String.length (lower s) = String.length s.
Proof. induction s as [|c s IH]; cbn; [reflexivity|now rewrite IH]. Qed.

(** A string is its [rstrip] followed by a run of the stripped
    character. *)
Lemma rstrip_spec (c : ascii) (s : string) :
  exists k : nat,
    s = String.append (TruthInvarianceValidator.rstrip c s)
          (string_of_list_ascii (repeat c k)).
Proof.
  induction s as [|a s IH].
  - exists 0%nat. reflexivity.
  - destruct IH as [k Hk]. cbn [TruthInvarianceValidator.rstrip].
    destruct (TruthInvarianceValidator.rstrip c s) as [|b rest] eqn:Hr.
    + destruct (Ascii.eqb_spec a c) as [->|Hne].
      * exists (S k). cbn in Hk |- *. now rewrite <- Hk.
      * exists k. cbn in Hk |- *. now rewrite <- Hk.
    + exists k. cbn in Hk |- *. now rewrite <- Hk.
Qed.

Lemma rstrip_length (c : ascii) (s : string) :
  (String.length (TruthInvarianceValidator.rstrip c s) <= String.length s)%nat.
Proof.
  destruct (rstrip_spec c s) as [k Hk].
  rewrite Hk at 2. rewrite append_length. lia.
Qed.

Lemma append_inj_l (a x y : string) :
  String.append a x = String.append a y -> x = y.
Proof. intros H. now destruct (append_inj a a x y eq_refl H). Qed.

Lemma rstrip_not_question (s : string) :
  s <> String.append (TruthInvarianceValidator.rstrip "." s) "?".
Proof.
  destruct (rstrip_spec "." s) as [k Hk]. intros H.
  rewrite Hk in H at 1. apply append_inj_l in H.
  destruct k; discriminate.
Qed.

Lemma NoDup_snoc {A : Type} (l : list A) (x : A) :
  NoDup l -> ~ In x l -> NoDup (l ++ [x]).
Proof.
  induction l as [|y l IH]; intros Hl Hx; cbn.
  - constructor; [intros []|constructor].
  - inversion Hl as [|? ? Hy Hl']; subst. constructor.
    + rewrite in_app_iff. intros [H|[->|[]]]; [exact (Hy H)|].
      apply Hx. now left.
    + apply IH; [exact Hl'|]. intros H. apply Hx. now right.
Qed.

Lemma fromkeys_fold_NoDup (l seen : list string) :
  NoDup seen ->
  NoDup (fold_left
           (fun seen x =>
              if in_dec string_dec x seen then seen else seen ++ [x])
           l seen).
Proof.
  revert seen. induction l as [|x l IH]; intros seen Hs; [exact Hs|].
  cbn [fold_left]. apply IH.
  destruct (in_dec string_dec x seen); [exact Hs|now apply NoDup_snoc].
Qed.

Lemma fromkeys_fold_id (l seen : list string) :
  NoDup (seen ++ l) ->
  fold_left
    (fun seen x => if in_dec string_dec x seen then seen else seen ++ [x])
    l seen
  = seen ++ l.
Proof.
  revert seen. induction l as [|x l IH]; intros seen Hs.
  - now rewrite app_nil_r.
  - cbn [fold_left].
    destruct (in_dec string_dec x seen) as [Hin|Hnin].
    + exfalso. apply NoDup_remove_2 in Hs. apply Hs.
      apply in_or_app. now left.
    + rewrite IH; rewrite <- app_assoc; [reflexivity|exact Hs].
Qed.

Lemma fromkeys_NoDup_id (l : list string) :
  NoDup l -> TruthInvarianceValidator.fromkeys l = l.
Proof. intros H. apply (fromkeys_fold_id l []). exact H. Qed.

Lemma fromkeys_repeated_head (x : string) (l : list string) :
  TruthInvarianceValidator.fromkeys (x :: x :: l)
  = TruthInvarianceValidator.fromkeys (x :: l).
Proof.
  unfold TruthInvarianceValidator.fromkeys. cbn [fold_left].
  destruct (in_dec string_dec x []) as [[]|_]. cbn [app].
  destruct (in_dec string_dec x [x]) as [_|Hn]; [reflexivity|].
  exfalso. apply Hn. now left.
Qed.

Lemma NoDup_firstn {A : Type} (n : nat) (l : list A) :
  NoDup l -> NoDup (firstn n l).
Proof.
  intros H. rewrite <- (firstn_skipn n l) in H.
  eapply NoDup_app_remove_r. exact H.
Qed.

Ltac template_lengths H :=
  apply (f_equal String.length) in H;
  rewrite ?append_length, ?lower_length in H;
  cbn [String.length] in H; lia.

Ltac refute_templates p :=
  pose proof (rstrip_length "." p);
  repeat match goal with
         | H : _ \/ _ |- _ => destruct H as [H|H]
         | H : False |- _ => destruct H
         end;
  match goal with
  | H : ?a = ?b |- _ =>
      first [ template_lengths H
            | apply append_inj_l in H; discriminate H
            | exact (rstrip_not_question p H)
            | exact (rstrip_not_question p (eq_sym H))
            | congruence ]
  end.

Lemma templates_distinct (p : string) :
  NoDup (tl (TruthInvarianceValidator.templates p))
  /\ NoDup (p :: tl (tl (TruthInvarianceValidator.templates p)))
  /\ (ends_with_one_stop p = false ->
      NoDup (TruthInvarianceValidator.templates p)).
Proof.
  unfold TruthInvarianceValidator.templates, ends_with_one_stop. cbn [tl].
  split; [|split].
  - repeat (constructor; [cbn [In]; intros Hin; refute_templates p|]).
    constructor.
  - repeat (constructor; [cbn [In]; intros Hin; refute_templates p|]).
    constructor.
  - intros Hne. apply String.eqb_neq in Hne.
    repeat (constructor; [cbn [In]; intros Hin; refute_templates p|]).
    constructor.
Qed.

Lemma fromkeys_templates (p : string) :
  TruthInvarianceValidator.fromkeys (TruthInvarianceValidator.templates p)
  = if ends_with_one_stop p
    then p :: tl (tl (TruthInvarianceValidator.templates p))
    else TruthInvarianceValidator.templates p.
Proof.
  destruct (templates_distinct p) as (_ & H7 & H8).
  destruct (ends_with_one_stop p) eqn:E.
  - unfold ends_with_one_stop in E. apply String.eqb_eq in E.
    unfold TruthInvarianceValidator.templates in *. cbn [tl] in *.
    rewrite <- E. rewrite fromkeys_repeated_head.
    now apply fromkeys_NoDup_id.
  - now apply fromkeys_NoDup_id, H8.
Qed.

(** X19.  [generate_perturbations] returns prompts that are pairwise
    distinct and start with the original prompt.  Of the eight
    templates exactly one can repeat an earlier one: the second, when
    the prompt ends with exactly one full stop.  So a request for [n]
    prompts gives exactly [n] of them up to 7 (up to 8 for other
    prompts), never more; the default of 5 is always met.  A negative
    [n] drops that many prompts from the end. *)
Theorem generate_perturbations_distinct (original_prompt : string) (n : Z) :
  NoDup (TruthInvarianceValidator.generate_perturbations original_prompt n)
  /\ ((0 <= n)%Z ->
      len (TruthInvarianceValidator.generate_perturbations original_prompt n)
      = Z.min n (distinct_templates original_prompt))
  /\ ((n < 0)%Z ->
      len (TruthInvarianceValidator.generate_perturbations original_prompt n)
      = Z.max 0 (distinct_templates original_prompt + n))
  /\ ((1 <= n)%Z ->
      hd_error
        (TruthInvarianceValidator.generate_perturbations original_prompt n)
      = Some original_prompt)
  /\ (forall q,
        In q (TruthInvarianceValidator.generate_perturbations
                original_prompt n) ->
        In q (TruthInvarianceValidator.templates original_prompt)).
Proof.
  unfold TruthInvarianceValidator.generate_perturbations.
  assert (Hnd : NoDup (TruthInvarianceValidator.fromkeys
                         (TruthInvarianceValidator.templates original_prompt)))
    by (apply fromkeys_fold_NoDup; constructor).
  assert (Hlen : len (TruthInvarianceValidator.fromkeys
                        (TruthInvarianceValidator.templates original_prompt))
                 = distinct_templates original_prompt).
  { rewrite fromkeys_templates. unfold distinct_templates.
    destruct (ends_with_one_stop original_prompt); reflexivity. }
  assert (Hhd : exists rest,
            TruthInvarianceValidator.fromkeys
              (TruthInvarianceValidator.templates original_prompt)
            = original_prompt :: rest).
  { rewrite fromkeys_templates.
    destruct (ends_with_one_stop original_prompt); eexists; reflexivity. }
  assert (Hsub : forall q,
            In q (TruthInvarianceValidator.fromkeys
                    (TruthInvarianceValidator.templates original_prompt)) ->
            In q (TruthInvarianceValidator.templates original_prompt)).
  { rewrite fromkeys_templates.
    destruct (ends_with_one_stop original_prompt); [|tauto].
    unfold TruthInvarianceValidator.templates. cbn [tl In]. tauto. }
  revert Hnd Hlen Hhd Hsub.
  generalize (TruthInvarianceValidator.fromkeys
                (TruthInvarianceValidator.templates original_prompt)) as l.
  generalize (distinct_templates original_prompt) as total.
  intros total l Hnd Hlen (rest & ->) Hsub.
  unfold TruthInvarianceValidator.slice_to, len in *.
  split; [destruct (0 <=? n)%Z; now apply NoDup_firstn|].
  split; [|split; [|split]].
  - intros Hn. apply Z.leb_le in Hn. rewrite Hn, length_firstn. lia.
  - intros Hn. apply Z.leb_gt in Hn. rewrite Hn, length_firstn. lia.
  - intros Hn.
    replace (0 <=? n)%Z with true by (symmetry; apply Z.leb_le; lia).
    destruct (Z.to_nat n) eqn:E; [lia|reflexivity].
  - intros q Hq. apply Hsub.
    destruct (0 <=? n)%Z; eapply in_firstn; exact Hq.
Qed.

(** ** Core/truth_invariance.py: the two verdicts *)

Lemma SFcompare_antisym (x y : SpecFloat.spec_float) :
  SpecFloat.SFcompare y x = option_map CompOpp (SpecFloat.SFcompare x y).
Proof.
  destruct x as [sx|sx| |sx mx ex], y as [sy|sy| |sy my ey]; cbn;
    try reflexivity;
    try (destruct sx; reflexivity); try (destruct sy; reflexivity);
    try (destruct sx, sy; reflexivity).
  destruct sx, sy; cbn; try reflexivity.
  - change (Pos.compare_cont Eq my mx) with (my ?= mx)%positive.
    change (Pos.compare_cont Eq mx my) with (mx ?= my)%positive.
    rewrite (Z.compare_antisym ex ey), (Pos.compare_antisym mx my).
    destruct (ex ?= ey)%Z, (mx ?= my)%positive; reflexivity.
  - change (Pos.compare_cont Eq my mx) with (my ?= mx)%positive.
    change (Pos.compare_cont Eq mx my) with (mx ?= my)%positive.
    rewrite (Z.compare_antisym ex ey), (Pos.compare_antisym mx my).
    destruct (ex ?= ey)%Z, (mx ?= my)%positive; reflexivity.
Qed.

(** On binary64 numbers [x < y] excludes [y <= x], and one of the two
    holds unless a number is not comparable. *)
Lemma ltb_leb_exclusive (x y : float) :
  (PrimFloat.ltb x y && PrimFloat.leb y x = false)%bool
  /\ (PrimFloat.is_nan x = false -> PrimFloat.is_nan y = false ->
      PrimFloat.ltb x y = negb (PrimFloat.leb y x)).
Proof.
  unfold PrimFloat.is_nan.
  rewrite FloatAxioms.ltb_spec, FloatAxioms.leb_spec, !FloatAxioms.eqb_spec.
  unfold SpecFloat.SFltb, SpecFloat.SFleb, SpecFloat.SFeqb.
  rewrite (SFcompare_antisym (Prim2SF x) (Prim2SF y)).
  split.
  - destruct (SpecFloat.SFcompare (Prim2SF x) (Prim2SF y)) as [[| |]|];
      reflexivity.
  - intros Hx Hy.
    destruct (SpecFloat.SFcompare (Prim2SF x) (Prim2SF y)) as [[| |]|] eqn:Hc;
      try reflexivity.
    exfalso.
    destruct (Prim2SF x) as [sx|sx| |sx mx ex],
             (Prim2SF y) as [sy|sy| |sy my ey];
      cbn in Hc, Hx, Hy; discriminate.
Qed.

Lemma py_max_zero_nonneg (x : float) :
  PrimFloat.leb 0 (py_max 0 x) = true.
Proof.
  unfold py_max. destruct (PrimFloat.ltb 0 x) eqn:H; [|reflexivity].
  rewrite FloatAxioms.ltb_spec in H. rewrite FloatAxioms.leb_spec.
  unfold SpecFloat.SFltb in H. unfold SpecFloat.SFleb.
  destruct (SpecFloat.SFcompare (Prim2SF 0) (Prim2SF x)) as [[| |]|];
    try discriminate; reflexivity.
Qed.

(** X20.  [validate_invariance] always returns, and its two verdicts
    never contradict each other: a response is never reported both
    invariant and biased; for a gradient that is a number exactly one of
    the two is reported; the stability score is never below 0; the
    gradient reported is the mean distance, and the perturbed responses
    are handed back unchanged. *)
Theorem validate_invariance_verdicts
    (original_response : string) (perturbed_responses : list string) :
  exists r,
    TruthInvarianceValidator.validate_invariance original_response
      perturbed_responses = Ok r
    /\ (is_invariant r && bias_detected r = false)%bool
    /\ (PrimFloat.is_nan (gradient_magnitude r) = false ->
        is_invariant r = negb (bias_detected r))
    /\ PrimFloat.leb 0 (stability_score r) = true
    /\ gradient_magnitude r = mean_distance r
    /\ perturbation_responses r = perturbed_responses.
Proof.
  unfold TruthInvarianceValidator.validate_invariance.
  assert (Hg : exists g,
            TruthInvarianceValidator.calculate_gradient original_response
              perturbed_responses = Ok g
            /\ TruthInvarianceValidator.g_gradient_magnitude g = TruthInvarianceValidator.g_mean_distance g).
  { unfold TruthInvarianceValidator.calculate_gradient.
    destruct perturbed_responses; [eauto|].
    destruct (TruthInvarianceValidator.collect_distances _ _); eauto. }
  destruct Hg as (g & -> & Hmean). cbn [bind].
  eexists. split; [reflexivity|].
  cbn [is_invariant bias_detected gradient_magnitude stability_score
         mean_distance perturbation_responses].
  destruct (ltb_leb_exclusive (TruthInvarianceValidator.g_gradient_magnitude g)
              TruthInvarianceValidator.INVARIANCE_THRESHOLD) as (Hex & Hone).
  split; [exact Hex|]. split; [intros Hnan; now apply Hone|].
  split; [apply py_max_zero_nonneg|]. split; [exact Hmean|reflexivity].
Qed.

(** ** Core/shannon_entropy.py: the tokenizer against the vectorizer's *)

Lemma space_not_word (c : ascii) : is_space c = true -> is_word_char c = false.
Proof.
  destruct c as [[] [] [] [] [] [] [] []]; vm_compute; congruence.
Qed.

Lemma lower_char_idempotent (c : ascii) :
  lower_char (lower_char c) = lower_char c.
Proof. destruct c as [[] [] [] [] [] [] [] []]; reflexivity. Qed.

Lemma lower_char_word (c : ascii) :
  is_word_char (lower_char c) = is_word_char c.
Proof. destruct c as [[] [] [] [] [] [] [] []]; reflexivity. Qed.

Lemma lower_idempotent (s : string) : lower (lower s) = lower s.
Proof.
  induction s as [|c s IH]; cbn; [reflexivity|].
  now rewrite lower_char_idempotent, IH.
Qed.

Lemma all_chars_append (p : ascii -> bool) (a b : string) :
  all_chars p (String.append a b) = (all_chars p a && all_chars p b)%bool.
Proof.
  unfold all_chars. induction a as [|c a IH]; cbn; [reflexivity|].
  now rewrite IH, andb_assoc.
Qed.

Lemma lower_append (a b : string) :
  lower (String.append a b) = String.append (lower a) (lower b).
Proof. induction a as [|c a IH]; cbn; [reflexivity|now rewrite IH]. Qed.

Lemma word_filter (run : string) :
  filter (fun token => (1 <? String.length token)%nat)
    (ShannonEntropyCalculator.word run)
  = Tfidf.emit run.
Proof.
  unfold Tfidf.emit. destruct run as [|c [|d run]]; reflexivity.
Qed.

(** On a text of word characters and whitespace, splitting at
    whitespace and keeping the words of two characters or more gives
    the maximal runs of two word characters or more. *)
Lemma split_findall (s : string) :
  all_chars (fun c => is_word_char c || is_space c)%bool s = true ->
  forall run : string,
  filter (fun token => (1 <? String.length token)%nat)
    (ShannonEntropyCalculator.split s run)
  = Tfidf.findall s run.
Proof.
  unfold all_chars.
  induction s as [|c s IH]; intros Hall run.
  - apply word_filter.
  - cbn [list_ascii_of_string forallb] in Hall.
    apply andb_true_iff in Hall. destruct Hall as [Hc Hs].
    cbn [ShannonEntropyCalculator.split Tfidf.findall].
    destruct (is_space c) eqn:Hsp.
    + rewrite (space_not_word c Hsp), filter_app, word_filter.
      now rewrite (IH Hs).
    + rewrite orb_false_r in Hc. rewrite Hc. apply (IH Hs).
Qed.

Lemma remove_punctuation_chars (s : string) :
  all_chars (fun c => is_word_char c || is_space c)%bool
    (ShannonEntropyCalculator.remove_punctuation s) = true.
Proof.
  unfold all_chars. induction s as [|c s IH]; [reflexivity|].
  cbn [ShannonEntropyCalculator.remove_punctuation].
  destruct (is_word_char c || is_space c)%bool eqn:Hc; [|exact IH].
  cbn [list_ascii_of_string forallb]. now rewrite Hc, IH.
Qed.

Lemma remove_punctuation_id (s : string) :
  all_chars (fun c => is_word_char c || is_space c)%bool s = true ->
  ShannonEntropyCalculator.remove_punctuation s = s.
Proof.
  unfold all_chars. induction s as [|c s IH]; [reflexivity|].
  cbn [list_ascii_of_string forallb ShannonEntropyCalculator.remove_punctuation].
  intros H. apply andb_true_iff in H. destruct H as [Hc Hs].
  now rewrite Hc, (IH Hs).
Qed.

Lemma remove_punctuation_lower (s : string) :
  lower (ShannonEntropyCalculator.remove_punctuation (lower s))
  = ShannonEntropyCalculator.remove_punctuation (lower s).
Proof.
  induction s as [|c s IH]; [reflexivity|].
  cbn [lower ShannonEntropyCalculator.remove_punctuation].
  destruct (is_word_char (lower_char c) || is_space (lower_char c))%bool;
    [|exact IH].
  cbn [lower]. now rewrite lower_char_idempotent, IH.
Qed.

Lemma lower_chars (p : ascii -> bool) (s : string) :
  (forall c, p (lower_char c) = p c) -> all_chars p (lower s) = all_chars p s.
Proof.
  intros Hp. unfold all_chars. induction s as [|c s IH]; [reflexivity|].
  cbn [lower list_ascii_of_string forallb]. now rewrite Hp, IH.
Qed.

Lemma lower_char_space (c : ascii) : is_space (lower_char c) = is_space c.
Proof. destruct c as [[] [] [] [] [] [] [] []]; reflexivity. Qed.

(** The tokens of the vectorizer's pattern on a lower-case text. *)
Lemma findall_clean (s : string) :
  lower s = s ->
  forall run : string,
  all_chars is_word_char run = true -> lower run = run ->
  Forall clean_token (Tfidf.findall s run).
Proof.
  assert (Hemit : forall run,
            all_chars is_word_char run = true -> lower run = run ->
            Forall clean_token (Tfidf.emit run)).
  { intros run Hw Hl. unfold Tfidf.emit.
    destruct (2 <=? String.length run)%nat eqn:E; constructor; [|constructor].
    apply Nat.leb_le in E. repeat split; assumption. }
  induction s as [|c s IH]; intros Hs run Hw Hl.
  - now apply Hemit.
  - cbn [lower] in Hs. injection Hs as Hc Hs.
    cbn [Tfidf.findall].
    destruct (is_word_char c) eqn:Hword.
    + apply (IH Hs).
      * rewrite all_chars_append, Hw. unfold all_chars. cbn. now rewrite Hword.
      * rewrite lower_append, Hl. cbn [lower]. now rewrite Hc.
    + apply Forall_app. split; [now apply Hemit|].
      now apply (IH Hs).
Qed.

(** X21.  The entropy tokenizer is the vectorizer's tokenizer applied
    after deleting the characters that are neither word characters nor
    whitespace: every token has two characters or more, all of them
    word characters in lower case; and on a text without such
    characters the two tokenizers give the same tokens.  (They can
    differ otherwise: punctuation inside a word splits it for the
    vectorizer and is dropped by the entropy tokenizer.) *)
Theorem shannon_tokenize_as_vectorizer (text : string) :
  ShannonEntropyCalculator.tokenize text
  = Tfidf.tokenize
      (ShannonEntropyCalculator.remove_punctuation (lower text))
  /\ Forall clean_token (ShannonEntropyCalculator.tokenize text)
  /\ Forall clean_token (Tfidf.tokenize (lower text))
  /\ (all_chars (fun c => is_word_char c || is_space c)%bool text = true ->
      ShannonEntropyCalculator.tokenize text = Tfidf.tokenize (lower text)).
Proof.
  assert (Heq : ShannonEntropyCalculator.tokenize text
                = Tfidf.tokenize
                    (ShannonEntropyCalculator.remove_punctuation (lower text))).
  { unfold ShannonEntropyCalculator.tokenize, Tfidf.tokenize.
    apply split_findall, remove_punctuation_chars. }
  split; [exact Heq|]. split; [|split].
  - rewrite Heq. unfold Tfidf.tokenize.
    apply findall_clean; [apply remove_punctuation_lower| |]; reflexivity.
  - unfold Tfidf.tokenize.
    apply findall_clean; [apply lower_idempotent| |]; reflexivity.
  - intros Hall. rewrite Heq. f_equal. apply remove_punctuation_id.
    rewrite lower_chars; [exact Hall|].
    intros c. now rewrite lower_char_word, lower_char_space.
Qed.

Example shannon_tokenize_differs :
  ShannonEntropyCalculator.tokenize "don't stop" = ["dont"; "stop"]%string
  /\ Tfidf.tokenize (lower "don't stop") = ["don"; "stop"]%string.
Proof. split; reflexivity. Qed.

(** ** Sovereignty/hash_validator.py: trails, and the hash of a link *)

Lemma trail_fold (clock : nat -> string)
    (data_chain : list (HashData * string)) :
  forall (t : nat) (results : list ValidationResult) (all_valid : bool),
  fold_left (HashValidator.trail_step clock) data_chain
    (t, results, all_valid)
  = ((t + List.length data_chain)%nat,
     results
     ++ map (fun p =>
               HashValidator.validate_derived_hash (clock (t + fst p)%nat)
                 (fst (snd p)) (snd (snd p)))
          (combine (seq 0 (List.length data_chain)) data_chain),
     (all_valid && forallb entry_ok data_chain)%bool).
Proof.
  induction data_chain as [|[data expected] chain IH];
    intros t results all_valid.
  - cbn. now rewrite Nat.add_0_r, app_nil_r, andb_true_r.
  - cbn [fold_left HashValidator.trail_step]. rewrite IH.
    cbn [List.length seq combine map fst snd forallb].
    rewrite <- app_assoc. cbn [app].
    rewrite <- seq_shift. f_equal; [f_equal|].
    + lia.
    + rewrite Nat.add_0_r. do 2 f_equal.
      clear IH. generalize (seq 0 (List.length chain)) as l.
      induction chain as [|e chain IHc]; intros [|i l]; cbn; try reflexivity.
      rewrite IHc. do 3 f_equal. lia.
    + unfold entry_ok at 2. cbn [fst snd].
      cbn [HashValidator.validate_derived_hash v_is_valid].
      destruct (String.eqb (HashValidator.compute_hash data) expected),
        all_valid; reflexivity.
Qed.

Lemma filter_partition_len {A : Type} (f : A -> bool) (l : list A) :
  (len (filter f l) + len (filter (fun x => negb (f x)) l) = len l)%Z.
Proof.
  unfold len. induction l as [|x l IH]; [reflexivity|].
  cbn [filter]. destruct (f x); cbn [negb List.length]; lia.
Qed.

Lemma filter_none_iff {A : Type} (f : A -> bool) (l : list A) :
  len (filter (fun x => negb (f x)) l) = 0%Z <-> forallb f l = true.
Proof.
  unfold len. induction l as [|x l IH]; [cbn; tauto|].
  cbn [filter forallb]. destruct (f x); cbn [negb andb List.length].
  - exact IH.
  - split; [lia|discriminate].
Qed.

Lemma trail_results_fields (clock : nat -> string) (t : nat)
    (data_chain : list (HashData * string)) :
  forall l : list nat,
  List.length l = List.length data_chain ->
  map v_is_valid
    (map (fun p =>
            HashValidator.validate_derived_hash (clock (t + fst p)%nat)
              (fst (snd p)) (snd (snd p)))
       (combine l data_chain))
  = map entry_ok data_chain
  /\ map expected_hash
       (map (fun p =>
               HashValidator.validate_derived_hash (clock (t + fst p)%nat)
                 (fst (snd p)) (snd (snd p)))
          (combine l data_chain))
     = map snd data_chain.
Proof.
  induction data_chain as [|e chain IH]; intros [|i l] Hl; try discriminate;
    [split; reflexivity|].
  injection Hl as Hl. destruct (IH l Hl) as [Hv He].
  cbn [combine map fst snd]. rewrite Hv, He. split; reflexivity.
Qed.

(** X22.  The report of [verify_integrity_trail] adds up: one result
    per entry, in order, each valid exactly when the hash of its data
    is the expected one; the valid and the invalid count sum to the
    total; [all_valid] holds exactly when the invalid count is zero,
    that is when every entry carries the hash of its data; and
    [block_if_invalid] raises on exactly the entries reported
    invalid. *)
Theorem verify_integrity_trail_counts (clock : nat -> string) (t : nat)
    (data_chain : list (HashData * string)) :
  let trail := HashValidator.verify_integrity_trail clock t data_chain in
  map v_is_valid (HashValidator.results trail) = map entry_ok data_chain
  /\ map expected_hash (HashValidator.results trail) = map snd data_chain
  /\ HashValidator.total_validated trail = len data_chain
  /\ (HashValidator.valid_count trail + HashValidator.invalid_count trail
      = HashValidator.total_validated trail)%Z
  /\ (0 <= HashValidator.valid_count trail)%Z
  /\ (0 <= HashValidator.invalid_count trail)%Z
  /\ (HashValidator.all_valid trail = true
      <-> HashValidator.invalid_count trail = 0%Z)
  /\ (HashValidator.all_valid trail = true
      <-> Forall (fun entry => HashValidator.compute_hash (fst entry)
                               = snd entry) data_chain)
  /\ (forall (utcnow : string) (entry : HashData * string),
        HashValidator.block_if_invalid utcnow (fst entry) (snd entry) = inr tt
        <-> entry_ok entry = true).
Proof.
  cbv zeta. unfold HashValidator.verify_integrity_trail.
  rewrite trail_fold. cbn [app andb].
  set (rs := map _ (combine _ data_chain)).
  destruct (trail_results_fields clock t data_chain
              (seq 0 (List.length data_chain)) (length_seq _ _))
    as [Hvalid Hexp].
  fold rs in Hvalid, Hexp.
  assert (Hlen : len rs = len data_chain).
  { unfold len. f_equal.
    rewrite <- (length_map v_is_valid rs), Hvalid. apply length_map. }
  assert (Hall : forallb (fun r => v_is_valid r) rs
                 = forallb entry_ok data_chain).
  { clear Hlen Hexp. revert Hvalid. generalize rs as l. clear rs.
    induction data_chain as [|e chain IH]; intros [|r l] Hv; try discriminate;
      [reflexivity|].
    cbn [map] in Hv. injection Hv as Hr Hv.
    cbn [forallb]. now rewrite Hr, (IH l Hv). }
  cbn [HashValidator.results HashValidator.total_validated
         HashValidator.valid_count HashValidator.invalid_count
         HashValidator.all_valid].
  pose proof (filter_partition_len (fun r => v_is_valid r) rs) as Hsum.
  pose proof (filter_len_le (fun r => v_is_valid r) rs) as Hv.
  pose proof (filter_len_le (fun r => negb (v_is_valid r)) rs) as Hi.
  cbv beta in Hsum.
  split; [exact Hvalid|]. split; [exact Hexp|]. split; [reflexivity|].
  split; [lia|]. split; [lia|]. split; [lia|]. split; [|split].
  - pose proof (filter_none_iff (fun r => v_is_valid r) rs) as Hn.
    cbv beta in Hn. rewrite Hall in Hn. symmetry. exact Hn.
  - rewrite forallb_forall, Forall_forall. unfold entry_ok.
    split; intros H e He; [apply String.eqb_eq|apply String.eqb_eq];
      now apply H.
  - intros utcnow [data expected]. unfold HashValidator.block_if_invalid,
      entry_ok.
    cbn [fst snd HashValidator.validate_derived_hash v_is_valid].
    destruct (String.eqb (HashValidator.compute_hash data) expected);
      cbn [negb]; split; intros H; (reflexivity || discriminate).
Qed.

Lemma json_ind_nested (P : json -> Prop) :
  P JNull -> (forall b, P (JBool b)) -> (forall n, P (JInt n)) ->
  (forall repr, P (JFloat repr)) -> (forall s, P (JStr s)) ->
  (forall items, Forall P items -> P (JList items)) ->
  (forall items, Forall (fun kv => P (snd kv)) items -> P (JDict items)) ->
  forall j, P j.
Proof.
  intros Hnull Hbool Hint Hfloat Hstr Hlist Hdict.
  fix IH 1. intros [|b|n|repr|s|items|items].
  - exact Hnull.
  - apply Hbool.
  - apply Hint.
  - apply Hfloat.
  - apply Hstr.
  - apply Hlist. induction items as [|x items IHl]; constructor;
      [apply IH|exact IHl].
  - apply Hdict. induction items as [|[k v] items IHl]; constructor;
      [apply IH|exact IHl].
Qed.

Lemma escape_ascii_same (s : string) :
  forallb (fun c => (Z.of_N (code c) <? 127)%Z) (list_ascii_of_string s)
  = true ->
  Json.escape_ascii s = Json.escape s.
Proof.
  induction s as [|c s IH]; [reflexivity|].
  cbn [list_ascii_of_string forallb Json.escape_ascii Json.escape].
  intros H. apply andb_true_iff in H. destruct H as [Hc Hs].
  rewrite (IH Hs). f_equal. unfold Json.escape_char_ascii.
  apply Z.ltb_lt in Hc.
  replace (127 <=? Z.of_N (code c))%Z with false
    by (symmetry; apply Z.leb_gt; exact Hc).
  reflexivity.
Qed.

Lemma dumps_ascii_same (j : json) :
  json_ascii j = true -> Json.dumps_ascii j = Json.dumps j.
Proof.
  induction j as [|b|n|repr|s|items IH|items IH] using json_ind_nested;
    try reflexivity.
  - cbn [json_ascii Json.dumps_ascii Json.dumps]. intros H.
    unfold Json.quote_ascii, Json.quote. now rewrite (escape_ascii_same s H).
  - cbn [json_ascii Json.dumps_ascii Json.dumps]. intros H.
    do 3 f_equal.
    induction IH as [|x items Hx _ IHl]; [reflexivity|].
    cbn [forallb] in H. apply andb_true_iff in H. destruct H as [H1 H2].
    cbn [map]. now rewrite (Hx H1), (IHl H2).
  - cbn [json_ascii Json.dumps_ascii Json.dumps]. intros H.
    set (render_ascii := fix render (l : list (string * json)) :=
           match l with
           | [] => []
           | (k, v) :: l' => (k, Json.dumps_ascii v) :: render l'
           end).
    set (render := fix render (l : list (string * json)) :=
           match l with
           | [] => []
           | (k, v) :: l' => (k, Json.dumps v) :: render l'
           end).
    assert (Hr : render_ascii items = render items
                 /\ Forall (fun kv : string * string =>
                              Json.quote_ascii (fst kv) = Json.quote (fst kv))
                      (render items)).
    { induction IH as [|[k v] items Hx _ IHl]; [split; [reflexivity|constructor]|].
      cbn [forallb fst snd] in H.
      apply andb_true_iff in H. destruct H as [H1 H2].
      apply andb_true_iff in H1. destruct H1 as [Hk Hv].
      destruct (IHl H2) as [E F]. cbn [render_ascii render].
      fold render_ascii. fold render. cbn [snd] in Hx.
      rewrite (Hx Hv), E. split; [reflexivity|].
      constructor; [|exact F]. cbn [fst].
      unfold Json.quote_ascii, Json.quote. now rewrite (escape_ascii_same k Hk). }
    destruct Hr as [-> Hq]. do 3 f_equal.
    assert (Hs : Forall (fun kv : string * string =>
                           Json.quote_ascii (fst kv) = Json.quote (fst kv))
                   (sort_by Json.by_key (render items))).
    { eapply Permutation_Forall; [apply sort_by_perm|exact Hq]. }
    induction Hs as [|kv l Hkv _ IHs]; [reflexivity|].
    cbn [map]. rewrite IHs. f_equal.
    unfold Json.item_ascii, Json.item. now rewrite Hkv.
Qed.

(** X23.  The hash validator and the integrity chain hash a text the
    same way, and a dict the same way as long as its keys and strings
    stay below code point 127: for such data the [data_hash] of a link
    is accepted by [validate_derived_hash].  (Beyond that the two
    modules serialise a dict differently, one escaping what the other
    writes as it is, and the hashes differ.) *)
Theorem link_data_hash_validates (utcnow utcnow' : string) (d : Dict)
    (metadata : option Dict) :
  json_ascii (JDict d) = true ->
  HashValidator.compute_hash (HDict d)
  = IntegrityChain.compute_data_hash (PyDict d)
  /\ v_is_valid
       (HashValidator.validate_derived_hash utcnow (HDict d)
          (data_hash (IntegrityChain.create_link utcnow' (PyDict d) metadata)))
     = true
  /\ (forall s : string,
        HashValidator.compute_hash (HStr s)
        = IntegrityChain.compute_data_hash (PyStr s)
        /\ v_is_valid
             (HashValidator.validate_derived_hash utcnow (HStr s)
                (data_hash
                   (IntegrityChain.create_link utcnow' (PyStr s) metadata)))
           = true).
Proof.
  intros H.
  assert (E : HashValidator.compute_hash (HDict d)
              = IntegrityChain.compute_data_hash (PyDict d)).
  { unfold HashValidator.compute_hash, IntegrityChain.compute_data_hash,
      IntegrityChain._serialize_data, sha256_hex.
    now rewrite (dumps_ascii_same (JDict d) H). }
  split; [exact E|]. split.
  - cbn [HashValidator.validate_derived_hash v_is_valid
           IntegrityChain.create_link data_hash].
    rewrite E. apply String.eqb_refl.
  - intros s. split; [reflexivity|].
    cbn [HashValidator.validate_derived_hash v_is_valid
           IntegrityChain.create_link data_hash].
    apply String.eqb_refl.
Qed.

Lemma link_data_hash_validates_witness :
  json_ascii (JDict [("k"%string, JStr "v")]) = true
  /\ HashValidator.compute_hash (HDict [("k"%string, JStr "v")])
     = IntegrityChain.compute_data_hash (PyDict [("k"%string, JStr "v")]).
Proof.
  split; [reflexivity|].
  destruct (link_data_hash_validates EmptyString EmptyString
              [("k"%string, JStr "v")] None eq_refl) as [H _].
  exact H.
Defined.

Example accented_dict_serialised_differently :
  String.length
    (Json.dumps_ascii
       (JDict [("k"%string, JStr (String (ascii_of_nat 233) EmptyString))]))
  = 15%nat
  /\ String.length
       (Json.dumps
          (JDict [("k"%string, JStr (String (ascii_of_nat 233) EmptyString))]))
     = 10%nat
  /\ HashValidator.compute_hash
       (HDict [("k"%string, JStr (String (ascii_of_nat 233) EmptyString))])
     <> IntegrityChain.compute_data_hash
          (PyDict [("k"%string, JStr (String (ascii_of_nat 233) EmptyString))]).
Proof.
  split; [reflexivity|]. split; [reflexivity|].
  intros H. vm_compute in H. discriminate H.
Qed.

(** ** Core/invariance_engine.py: the orchestrator *)

(** X24.  [InvarianceEngine.analyze] returns exactly when
    [DegradationIndexCalculator.calculate] does, that is unless both
    texts are without a token, in which case it raises the
    vectorizer's exception; when it returns, the degradation fields of
    the matrix are those of [calculate]'s result, the interference flag
    is set exactly when the status is not ESTABLE, the integrity hash
    has 64 characters, and without perturbed responses ([None] or an
    empty list) the matrix reports invariance with gradient 0 and
    stability 1. *)
Theorem analyze_follows_calculate
    (calculate_entropy : string -> float) (log : float -> float)
    (format_6f : float -> string) (utcnow : string)
    (text_origin text_control : string)
    (perturbed_responses : option (list string)) :
  match DegradationIndexCalculator.calculate text_origin text_control with
  | Raise e =>
      InvarianceEngine.analyze calculate_entropy log format_6f utcnow
        text_origin text_control perturbed_responses = Raise e
      /\ tokenless text_origin /\ tokenless text_control
  | Ok r =>
      exists m,
        InvarianceEngine.analyze calculate_entropy log format_6f utcnow
          text_origin text_control perturbed_responses = Ok m
        /\ ~ (tokenless text_origin /\ tokenless text_control)
        /\ degradation_index m = I_D r
        /\ degradation_status m = status r
        /\ im_interference_detected m = interference_detected r
        /\ (im_dim_V_O m, im_dim_V_C m, im_dim_intersection m)
           = (dim_V_O r, dim_V_C r, dim_intersection r)
        /\ (im_interference_detected m = true
            <-> degradation_status m <> "ESTABLE"%string)
        /\ String.length (integrity_hash m) = 64%nat
        /\ (perturbed_responses = None \/ perturbed_responses = Some [] ->
            truth_invariance m = true
            /\ im_gradient_magnitude m = 0%float
            /\ im_stability_score m = 1%float)
  end.
Proof.
  destruct (DegradationIndexCalculator.calculate text_origin text_control)
    as [r|e] eqn:Hcalc.
  - assert (Hret : ~ (tokenless text_origin /\ tokenless text_control))
      by (apply calculate_returns_iff; eauto).
    pose proof (calculate_Ok _ _ _ Hcalc) as (_ & _ & _ & Hs).
    unfold InvarianceEngine.analyze. rewrite Hcalc. cbn [bind].
    destruct (SemanticVectorSpace.fit_transform SemanticVectorSpace.default
                text_origin text_control) as [[vs vectors]|e] eqn:Hfit.
    + destruct (metrics_return_after_fit_transform _ _ _ _ _ log Hfit)
        as ([d Hd] & _ & [k Hk] & _).
      cbn [bind]. rewrite Hd, Hk. cbn [bind].
      assert (Hinv : exists flags,
                match perturbed_responses with
                | Some ((_ :: _) as responses) =>
                    invariance_result <-
                      TruthInvarianceValidator.validate_invariance
                        text_origin responses ;;
                    Ok (is_invariant invariance_result,
                        gradient_magnitude invariance_result,
                        stability_score invariance_result)
                | _ => Ok (true, 0%float, 1%float)
                end = Ok flags
                /\ (perturbed_responses = None
                    \/ perturbed_responses = Some [] ->
                    flags = (true, 0%float, 1%float))).
      { destruct perturbed_responses as [[|p ps]|].
        - eexists. split; [reflexivity|]. reflexivity.
        - cbv beta iota. unfold TruthInvarianceValidator.validate_invariance.
          destruct (calculate_gradient_Ok text_origin (p :: ps)) as [g ->].
          cbn [bind]. eexists. split; [reflexivity|].
          intros [H|H]; discriminate.
        - eexists. split; [reflexivity|]. reflexivity. }
      destruct Hinv as ([[inv grad] stab] & -> & Hdefault). cbn [bind].
      eexists. split; [reflexivity|].
      cbn [degradation_index degradation_status im_interference_detected
             im_dim_V_O im_dim_V_C im_dim_intersection integrity_hash
             truth_invariance im_gradient_magnitude im_stability_score].
      split; [exact Hret|]. do 4 (split; [reflexivity|]).
      split; [|split].
      * unfold status_of in Hs.
        repeat match type of Hs with
               | context [if ?c then _ else _] => destruct c
               end; injection Hs as -> ->;
          split; intros; (congruence || discriminate).
      * apply sha256_hex_length.
      * intros H. specialize (Hdefault H). injection Hdefault as -> -> ->.
        repeat split.
    + exfalso.
      pose proof (calculate_follows_vectorizer text_origin text_control) as H.
      unfold SemanticVectorSpace.fit_transform, SemanticVectorSpace.default,
        SemanticVectorSpace.init, bind in Hfit.
      cbn [SemanticVectorSpace.max_features] in Hfit.
      destruct (Tfidf.fit_transform 1000 text_origin text_control)
        as [[[v_o v_c] names]|e']; [discriminate|].
      congruence.
  - unfold InvarianceEngine.analyze. rewrite Hcalc. cbn [bind].
    split; [reflexivity|].
    destruct (Tfidf.fit_transform 1000 text_origin text_control)
      as [x|e'] eqn:Hfit.
    + pose proof (calculate_follows_vectorizer text_origin text_control) as H.
      rewrite Hfit in H. destruct H as [r Hr]. congruence.
    + apply (Tfidf_fit_transform_raises 1000). eauto.
Qed.
